(** * The NBD client driver of tapdisk (drivers/block-nbd), embedded in Rocq

    The development follows the C source function by function:

    - C [int] values are integers of [Z]; unsigned conversions and the
      places where the source relies on wrap-around are written out
      ([to_size_t], [to_uint32], [to_int]); byte counts and cursors stay
      far below [INT_MAX], their arithmetic is that of [Z];
    - [char] arrays and socket payloads are lists of [ascii];
    - the three intrusive request lists hold indices into the [requests]
      array, [list_move] unlinks an entry from wherever it is;
    - everything the driver asks of its surroundings (the socket, the
      scheduler, the upper block layer) is answered by an environment
      [env]; the calls it makes are recorded in the [trace] of a [world]
      that is passed along.  Log lines (INFO, ERROR) are left out. *)

From Stdlib Require Import ZArith Ascii String Lia Bool.
From stdpp Require Import base tactics option numbers list.

Local Open Scope Z_scope.

(** ** C scalars *)

Definition NUL : ascii := Ascii.zero.

(** A C string as the characters before its terminating NUL. *)
Definition cstring (s : string) : list ascii := list_ascii_of_string s.

Definition code (c : ascii) : Z := Z.of_nat (nat_of_ascii c).

(** Conversions of an integer to [size_t], [uint32_t] and [int]. *)
Definition to_size_t (z : Z) : Z := z mod 2 ^ 64.
Definition to_uint32 (z : Z) : Z := z mod 2 ^ 32.
Definition to_int (z : Z) : Z := (z + 2 ^ 31) mod 2 ^ 32 - 2 ^ 31.

(** Big-endian encoding and decoding, as [htonl], [htonll], [be64toh]. *)
Fixpoint encode_be (n : nat) (v : Z) : list ascii :=
  match n with
  | O => []
  | S n' => encode_be n' (v / 256) ++ [ascii_of_nat (Z.to_nat (v mod 256))]
  end.

Definition decode_be (bs : list ascii) : Z :=
  fold_left (fun acc b => acc * 256 + code b) bs 0.

(** errno values (Linux). *)
Definition EIO : Z := 5.
Definition EAGAIN : Z := 11.
Definition EWOULDBLOCK : Z := 11.
Definition EBUSY : Z := 16.
Definition EINVAL : Z := 22.
Definition ETIMEDOUT : Z := 110.

(** ** Upper layer and scheduler *)

(** Modelled from the spec: [td_request_t] is declared in tapdisk.h, which
    is not among the sources; the spec gives a request as sector start,
    sector count and the upstream tag that identifies it on completion. *)
Record td_request_t := mk_treq {
  treq_sec : Z;
  treq_secs : Z;
  treq_tag : Z
}.

Inductive poll_mode := SCHEDULER_POLL_READ_FD | SCHEDULER_POLL_WRITE_FD.

(** Calls that leave the driver, in the order they are made. *)
Inductive event :=
| EvRegister (mode : poll_mode) (fd : Z) (id : Z)
| EvUnregister (id : Z)
| EvComplete (treq : td_request_t) (err : Z)
| EvClose (fd : Z).

(** ** The environment *)

(** [send] either fails with an errno (return value -1; an errno is a
    positive number) or takes at most [n] of the bytes offered; [recv] either fails or delivers at most the
    bytes asked for out of [bytes].  [RecvData []] is the peer's orderly
    shutdown (return value 0). *)
Inductive send_resp := SendErr (errno : positive) | SendTakes (n : nat).
Inductive recv_resp := RecvErr (errno : positive) | RecvData (bytes : list ascii).
Inductive select_resp :=
  SelectErr (errno : positive) | SelectTimeout | SelectReady.

(** What the k-th call of each kind answers.  [TEMP_FAILURE_RETRY] is the
    C library's: an answer stands for the call after its EINTR retries.
    [env_stack] is the indeterminate content of an uninitialised local. *)
Record env := mk_env {
  env_send : nat -> send_resp;
  env_recv : nat -> recv_resp;
  env_select : nat -> select_resp;
  env_fcntl : nat -> Z;
  env_send_fully : nat -> Z;
  env_register : nat -> Z;
  env_stack : list ascii
}.

Record tdnbd_passed_fd := mk_passed_fd {
  pf_id : list ascii;
  pf_fd : Z
}.

(** Process state: the two globals of the driver ([passed_fds],
    [global_id]), how many calls of each kind were made, how many bytes
    went through the socket, and the trace. *)
Record world := mk_world {
  passed_fds : list tdnbd_passed_fd;
  global_id : Z;
  n_send : nat;
  n_recv : nat;
  n_select : nat;
  n_fcntl : nat;
  n_send_fully : nat;
  n_register : nat;
  bytes_out : Z;
  bytes_in : Z;
  trace : list event
}.

Definition set_passed_fds (t : list tdnbd_passed_fd) (w : world) : world :=
  mk_world t (global_id w) (n_send w) (n_recv w) (n_select w) (n_fcntl w)
    (n_send_fully w) (n_register w) (bytes_out w) (bytes_in w) (trace w).

Definition set_global_id (g : Z) (w : world) : world :=
  mk_world (passed_fds w) g (n_send w) (n_recv w) (n_select w) (n_fcntl w)
    (n_send_fully w) (n_register w) (bytes_out w) (bytes_in w) (trace w).

Definition emit (e : event) (w : world) : world :=
  mk_world (passed_fds w) (global_id w) (n_send w) (n_recv w) (n_select w)
    (n_fcntl w) (n_send_fully w) (n_register w) (bytes_out w) (bytes_in w)
    (trace w ++ [e]).

Definition did_send (rc : Z) (w : world) : world :=
  mk_world (passed_fds w) (global_id w) (S (n_send w)) (n_recv w) (n_select w)
    (n_fcntl w) (n_send_fully w) (n_register w)
    (bytes_out w + Z.max rc 0) (bytes_in w) (trace w).

Definition did_recv (rc : Z) (w : world) : world :=
  mk_world (passed_fds w) (global_id w) (n_send w) (S (n_recv w)) (n_select w)
    (n_fcntl w) (n_send_fully w) (n_register w)
    (bytes_out w) (bytes_in w + Z.max rc 0) (trace w).

Definition did_select (w : world) : world :=
  mk_world (passed_fds w) (global_id w) (n_send w) (n_recv w) (S (n_select w))
    (n_fcntl w) (n_send_fully w) (n_register w) (bytes_out w) (bytes_in w)
    (trace w).

Definition did_fcntl (w : world) : world :=
  mk_world (passed_fds w) (global_id w) (n_send w) (n_recv w) (n_select w)
    (S (n_fcntl w)) (n_send_fully w) (n_register w) (bytes_out w) (bytes_in w)
    (trace w).

Definition did_send_fully (w : world) : world :=
  mk_world (passed_fds w) (global_id w) (n_send w) (n_recv w) (n_select w)
    (n_fcntl w) (S (n_send_fully w)) (n_register w) (bytes_out w) (bytes_in w)
    (trace w).

Definition did_register (w : world) : world :=
  mk_world (passed_fds w) (global_id w) (n_send w) (n_recv w) (n_select w)
    (n_fcntl w) (n_send_fully w) (S (n_register w)) (bytes_out w) (bytes_in w)
    (trace w).

(** ** FD stash *)

Definition N_PASSED_FDS : nat := 10.

(** [strncmp]: compares at most [n] characters and stops at a NUL. *)
Fixpoint strncmp (s1 s2 : list ascii) (n : nat) : Z :=
  match n with
  | O => 0
  | S n' =>
    match s1, s2 with
    | [], [] => 0
    | [], c2 :: _ => - code c2
    | c1 :: _, [] => code c1
    | c1 :: t1, c2 :: t2 =>
      if code c1 =? code c2 then strncmp t1 t2 n' else code c1 - code c2
    end
  end.

(** Modelled from the spec: [safe_strncpy] is declared in util.h, which is
    not among the sources; it copies into a buffer of [n] bytes, keeping
    the last one for the terminating NUL. *)
Definition safe_strncpy (src : list ascii) (n : nat) : list ascii :=
  take (n - 1) src.

(** [sizeof(passed_fds[i].id)]. *)
Definition PASSED_FD_ID_SIZE : nat := 40.

(** The condition of the scan in [tdnbd_stash_passed_fd]: the slot is
    unused, or its name compares equal to [msg]. *)
Definition stash_slot_ok (msg : list ascii) (e : tdnbd_passed_fd) : bool :=
  (pf_fd e =? -1) || (strncmp msg (pf_id e) (PASSED_FD_ID_SIZE - 1) =? 0).

(** The [for] loop of [tdnbd_stash_passed_fd] from index [i] on; [None]
    is [free_index == -1]. *)
Fixpoint stash_scan (msg : list ascii) (tbl : list tdnbd_passed_fd) (i : nat)
  : option nat :=
  match tbl with
  | [] => None
  | e :: rest =>
    if stash_slot_ok msg e then Some i else stash_scan msg rest (S i)
  end.

Definition tdnbd_stash_passed_fd (fd : Z) (msg : list ascii) (w : world)
  : world :=
  match stash_scan msg (passed_fds w) 0 with
  | None => emit (EvClose fd) w
  | Some free_index =>
    (* the scan stays inside the table *)
    match passed_fds w !! free_index with
    | None => w
    | Some old =>
      let w1 := if old.(pf_fd) >? -1 then emit (EvClose old.(pf_fd)) w else w in
      set_passed_fds
        (<[free_index := mk_passed_fd (safe_strncpy msg PASSED_FD_ID_SIZE) fd]>
           (passed_fds w1)) w1
    end
  end.

Fixpoint retrieve_scan (name : list ascii) (tbl : list tdnbd_passed_fd)
  (i : nat) : option (nat * Z) :=
  match tbl with
  | [] => None
  | e :: rest =>
    if strncmp name (pf_id e) (PASSED_FD_ID_SIZE - 1) =? 0
    then Some (i, pf_fd e)
    else retrieve_scan name rest (S i)
  end.

Definition tdnbd_retrieve_passed_fd (name : list ascii) (w : world)
  : Z * world :=
  match retrieve_scan name (passed_fds w) 0 with
  | Some (i, fd) =>
    (fd, set_passed_fds (alter (fun e => mk_passed_fd (pf_id e) (-1)) i
                           (passed_fds w)) w)
  | None => (-1, w)
  end.

(** The initialisation loop of [tdnbd_fdreceiver_start]: every slot is
    marked unused, the names stay as they are.  (Starting the receiver
    itself is the business of the fd receiver, which is not modelled.) *)
Definition tdnbd_fdreceiver_start (w : world) : world :=
  set_passed_fds (map (fun e => mk_passed_fd (pf_id e) (-1)) (passed_fds w)) w.

(** ** Socket transport *)

Record nbd_queued_io := mk_qio {
  buffer : list ascii;
  len : Z;
  so_far : Z
}.

Definition advance (rc : Z) (q : nbd_queued_io) : nbd_queued_io :=
  mk_qio (buffer q) (len q) (so_far q + rc).

(** [recv] stores the bytes it returns at [buffer + so_far]. *)
Definition store_at (q : nbd_queued_io) (bytes : list ascii) : nbd_queued_io :=
  let off := Z.to_nat (so_far q) in
  mk_qio (take off (buffer q) ++ bytes ++ drop (off + length bytes) (buffer q))
         (len q) (so_far q).

Section Transport.

Variable E : env.

(** [send(fd, buf, left, 0)]: the return value and the world after it.
    The second component is [errno] when the call fails. *)
Definition sys_send (left : Z) (w : world) : Z * Z * world :=
  match env_send E (n_send w) with
  | SendErr e => (-1, Z.pos e, did_send (-1) w)
  | SendTakes n =>
    let rc := Z.min (Z.of_nat n) left in (rc, 0, did_send rc w)
  end.

(** [recv(fd, buf, left, 0)]: return value, [errno], the bytes stored. *)
Definition sys_recv (left : Z) (w : world) : Z * Z * list ascii * world :=
  match env_recv E (n_recv w) with
  | RecvErr e => (-1, Z.pos e, [], did_recv (-1) w)
  | RecvData bytes =>
    let got := take (Z.to_nat left) bytes in
    let rc := Z.of_nat (length got) in (rc, 0, got, did_recv rc w)
  end.

(** The [while (left > 0)] loop of [tdnbd_write_some].  Every round that
    goes on takes at least one byte off [left], so [fuel] rounds are
    enough as soon as [left <= fuel]. *)
Fixpoint write_some_loop (fuel : nat) (left : Z) (data : nbd_queued_io)
  (w : world) : Z * nbd_queued_io * world :=
  if left >? 0 then
    match fuel with
    | O => (left, data, w)
    | S fuel' =>
      let '(rc, errno, w1) := sys_send left w in
      if rc =? -1 then
        if (errno =? EAGAIN) || (errno =? EWOULDBLOCK)
        then (left, data, w1)
        else (rc, data, w1)
      else if rc =? 0 then (-1, data, w1)
      else write_some_loop fuel' (left - rc) (advance rc data) w1
    end
  else (left, data, w).

Definition tdnbd_write_some (data : nbd_queued_io) (w : world)
  : Z * nbd_queued_io * world :=
  let left := len data - so_far data in
  write_some_loop (Z.to_nat left) left data w.

Fixpoint read_some_loop (fuel : nat) (left : Z) (data : nbd_queued_io)
  (w : world) : Z * nbd_queued_io * world :=
  if left >? 0 then
    match fuel with
    | O => (left, data, w)
    | S fuel' =>
      let '(rc, errno, got, w1) := sys_recv left w in
      if rc =? -1 then
        if (errno =? EAGAIN) || (errno =? EWOULDBLOCK)
        then (left, data, w1)
        else (rc, data, w1)
      else if rc =? 0 then (-1, data, w1)
      else read_some_loop fuel' (left - rc) (advance rc (store_at data got)) w1
    end
  else (left, data, w).

Definition tdnbd_read_some (data : nbd_queued_io) (w : world)
  : Z * nbd_queued_io * world :=
  let left := len data - so_far data in
  read_some_loop (Z.to_nat left) left data w.

End Transport.

(** ** Request engine: data *)

(** Modelled from the spec: the wire constants and [struct nbd_request] /
    [struct nbd_reply] come from the NBD protocol header, which is not
    among the sources.  A request header is 28 bytes (magic, type, handle,
    offset, length), a reply header 16 bytes (magic, error, handle). *)
Definition NBD_REQUEST_MAGIC : Z := 0x25609513.
Definition NBD_REPLY_MAGIC : Z := 0x67446698.
Definition TAPDISK_NBD_CMD_READ : Z := 0.
Definition TAPDISK_NBD_CMD_WRITE : Z := 1.
Definition TAPDISK_NBD_CMD_DISC : Z := 2.
Definition SIZEOF_NBD_REQUEST : Z := 28.
Definition SIZEOF_NBD_REPLY : Z := 16.

(** A request header; the fields hold the values that [ntohl]/[ntohll]
    read back from the network-order struct. *)
Record nbd_request := mk_nreq {
  nreq_magic : Z;
  nreq_type : Z;
  nreq_handle : list ascii;
  nreq_from : Z;
  nreq_len : Z
}.

Definition encode_nreq (r : nbd_request) : list ascii :=
  encode_be 4 (nreq_magic r) ++ encode_be 4 (nreq_type r) ++
  take 8 (nreq_handle r) ++ encode_be 8 (nreq_from r) ++
  encode_be 4 (nreq_len r).

Record td_nbd_request := mk_req {
  treq : td_request_t;
  nreq : nbd_request;
  timeout_event : Z;
  fake : Z;
  header : nbd_queued_io;
  body : nbd_queued_io
}.

Definition set_timeout_event (t : Z) (r : td_nbd_request) : td_nbd_request :=
  mk_req (treq r) (nreq r) t (fake r) (header r) (body r).
Definition set_header (h : nbd_queued_io) (r : td_nbd_request) : td_nbd_request :=
  mk_req (treq r) (nreq r) (timeout_event r) (fake r) h (body r).
Definition set_body (b : nbd_queued_io) (r : td_nbd_request) : td_nbd_request :=
  mk_req (treq r) (nreq r) (timeout_event r) (fake r) (header r) b.

(** A slot after [memset(prv, 0, ...)]. *)
Definition zero_request : td_nbd_request :=
  mk_req (mk_treq 0 0 0) (mk_nreq 0 0 (replicate 8 NUL) 0 0) 0 0
         (mk_qio [] 0 0) (mk_qio [] 0 0).

(** [struct tdnbd_data].  The lists hold indices into [requests]; the
    buffer of [cur_reply_qio] is the memory of [current_reply].  The
    address fields (remote, peer_ip, port, name) belong to connecting and
    closing and are left out. *)
Record tdnbd_data := mk_data {
  writer_event_id : Z;
  sent_reqs : list nat;
  pending_reqs : list nat;
  free_reqs : list nat;
  requests : list td_nbd_request;
  nr_free_count : Z;
  reader_event_id : Z;
  cur_reply_qio : nbd_queued_io;
  curr_reply_req : option nat;
  socket : Z;
  flags : Z;
  closed : Z
}.

Definition set_writer_event_id (v : Z) (p : tdnbd_data) : tdnbd_data :=
  mk_data v (sent_reqs p) (pending_reqs p) (free_reqs p) (requests p)
    (nr_free_count p) (reader_event_id p) (cur_reply_qio p) (curr_reply_req p)
    (socket p) (flags p) (closed p).
Definition set_lists (s pe f : list nat) (p : tdnbd_data) : tdnbd_data :=
  mk_data (writer_event_id p) s pe f (requests p)
    (nr_free_count p) (reader_event_id p) (cur_reply_qio p) (curr_reply_req p)
    (socket p) (flags p) (closed p).
Definition set_requests (rs : list td_nbd_request) (p : tdnbd_data) : tdnbd_data :=
  mk_data (writer_event_id p) (sent_reqs p) (pending_reqs p) (free_reqs p) rs
    (nr_free_count p) (reader_event_id p) (cur_reply_qio p) (curr_reply_req p)
    (socket p) (flags p) (closed p).
Definition set_nr_free_count (n : Z) (p : tdnbd_data) : tdnbd_data :=
  mk_data (writer_event_id p) (sent_reqs p) (pending_reqs p) (free_reqs p)
    (requests p) n (reader_event_id p) (cur_reply_qio p) (curr_reply_req p)
    (socket p) (flags p) (closed p).
Definition set_reader_event_id (v : Z) (p : tdnbd_data) : tdnbd_data :=
  mk_data (writer_event_id p) (sent_reqs p) (pending_reqs p) (free_reqs p)
    (requests p) (nr_free_count p) v (cur_reply_qio p) (curr_reply_req p)
    (socket p) (flags p) (closed p).
Definition set_cur_reply_qio (q : nbd_queued_io) (p : tdnbd_data) : tdnbd_data :=
  mk_data (writer_event_id p) (sent_reqs p) (pending_reqs p) (free_reqs p)
    (requests p) (nr_free_count p) (reader_event_id p) q (curr_reply_req p)
    (socket p) (flags p) (closed p).
Definition set_curr_reply_req (r : option nat) (p : tdnbd_data) : tdnbd_data :=
  mk_data (writer_event_id p) (sent_reqs p) (pending_reqs p) (free_reqs p)
    (requests p) (nr_free_count p) (reader_event_id p) (cur_reply_qio p) r
    (socket p) (flags p) (closed p).
Definition set_socket_flags (s f : Z) (p : tdnbd_data) : tdnbd_data :=
  mk_data (writer_event_id p) (sent_reqs p) (pending_reqs p) (free_reqs p)
    (requests p) (nr_free_count p) (reader_event_id p) (cur_reply_qio p)
    (curr_reply_req p) s f (closed p).
Definition set_closed (c : Z) (p : tdnbd_data) : tdnbd_data :=
  mk_data (writer_event_id p) (sent_reqs p) (pending_reqs p) (free_reqs p)
    (requests p) (nr_free_count p) (reader_event_id p) (cur_reply_qio p)
    (curr_reply_req p) (socket p) (flags p) c.

(** [requests[i]]; a list entry always points into the array. *)
Definition slot (p : tdnbd_data) (i : nat) : td_nbd_request :=
  default zero_request (requests p !! i).

Definition update_slot (i : nat) (f : td_nbd_request -> td_nbd_request)
  (p : tdnbd_data) : tdnbd_data :=
  set_requests (alter f i (requests p)) p.

(** [current_reply.error] and [current_reply.handle], read from the
    staging buffer. *)
Definition current_reply_error (p : tdnbd_data) : Z :=
  decode_be (take 4 (drop 4 (buffer (cur_reply_qio p)))).
Definition current_reply_handle (p : tdnbd_data) : list ascii :=
  take 8 (drop 8 (buffer (cur_reply_qio p))).

(** *** Intrusive lists *)

(** [list_del]: the entry leaves the list it is linked on. *)
Definition list_del (i : nat) (l : list nat) : list nat :=
  filter (fun j => j <> i) l.

Inductive which_list := FreeReqs | PendingReqs | SentReqs.

(** [list_move(entry, head)]: unlink, then insert right after the head. *)
Definition list_move (i : nat) (to : which_list) (p : tdnbd_data) : tdnbd_data :=
  let s := list_del i (sent_reqs p) in
  let pe := list_del i (pending_reqs p) in
  let f := list_del i (free_reqs p) in
  match to with
  | FreeReqs => set_lists s pe (i :: f) p
  | PendingReqs => set_lists s (i :: pe) f p
  | SentReqs => set_lists (i :: s) pe f p
  end.

(** [list_move_tail(entry, head)]: unlink, then insert before the head. *)
Definition list_move_tail (i : nat) (to : which_list) (p : tdnbd_data)
  : tdnbd_data :=
  let s := list_del i (sent_reqs p) in
  let pe := list_del i (pending_reqs p) in
  let f := list_del i (free_reqs p) in
  match to with
  | FreeReqs => set_lists s pe (f ++ [i]) p
  | PendingReqs => set_lists s (pe ++ [i]) f p
  | SentReqs => set_lists (s ++ [i]) pe f p
  end.

(** [memcmp] over the first [n] bytes. *)
Fixpoint memcmp (a b : list ascii) (n : nat) : Z :=
  match n with
  | O => 0
  | S n' =>
    match a, b with
    | x :: a', y :: b' =>
      if code x =? code y then memcmp a' b' n' else code x - code y
    | _, _ => 0
    end
  end.

(** *** Formatting the handle *)

Definition hex_digit (d : Z) : ascii :=
  nth (Z.to_nat d) (cstring "0123456789abcdef") "0"%char.

(** The digits of [v] in base 16, most significant first. *)
Fixpoint hex_digits (fuel : nat) (v : Z) (acc : list ascii) : list ascii :=
  match fuel with
  | O => acc
  | S fuel' =>
    let acc' := hex_digit (v mod 16) :: acc in
    if v / 16 =? 0 then acc' else hex_digits fuel' (v / 16) acc'
  end.

(** The conversion "%05x" of an [int] argument: it is printed as an
    [unsigned int], padded with zeros to at least five digits. *)
Definition fmt_05x (v : Z) : list ascii :=
  let ds := hex_digits 8 (to_uint32 v) [] in
  replicate (5 - length ds) "0"%char ++ ds.

(** [snprintf(handle, 8, "td%05x", v)]: at most seven characters and the
    terminating NUL. *)
Definition snprintf_handle (v : Z) : list ascii :=
  take 7 (cstring "td" ++ fmt_05x v) ++ [NUL].

(** ** Request engine: operations *)

Section Engine.

Variable E : env.

(** [tapdisk_server_register_event]: the scheduler answers with an id. *)
Definition register_event (mode : poll_mode) (fd : Z) (w : world) : Z * world :=
  let id := env_register E (n_register w) in
  (id, emit (EvRegister mode fd id) (did_register w)).

Definition __cancel_req (pos : nat) (e : Z) (p : tdnbd_data) (w : world)
  : tdnbd_data * world :=
  let t := timeout_event (slot p pos) in
  let '(p1, w1) :=
    if t >=? 0
    then (update_slot pos (set_timeout_event (-1)) p, emit (EvUnregister t) w)
    else (p, w) in
  (p1, emit (EvComplete (treq (slot p1 pos)) e) w1).

(** [list_for_each_entry_safe(pos, q, head, queue) __cancel_req(i++, pos, e)];
    the counter [i] only numbers the log lines. *)
Fixpoint cancel_each (l : list nat) (e : Z) (p : tdnbd_data) (w : world)
  : tdnbd_data * world :=
  match l with
  | [] => (p, w)
  | pos :: rest =>
    let '(p1, w1) := __cancel_req pos e p w in cancel_each rest e p1 w1
  end.

Definition tdnbd_disable (p : tdnbd_data) (e : Z) (w : world)
  : tdnbd_data * world :=
  let w1 := emit (EvUnregister (writer_event_id p)) w in
  let w2 := emit (EvUnregister (reader_event_id p)) w1 in
  let '(p1, w3) := cancel_each (sent_reqs p) e p w2 in
  let '(p2, w4) := cancel_each (pending_reqs p1) e p1 w3 in
  (set_closed 3 p2, w4).

Definition enable_write_queue (p : tdnbd_data) (w : world)
  : Z * tdnbd_data * world :=
  if writer_event_id p >=? 0 then (0, p, w)
  else
    let '(id, w1) := register_event SCHEDULER_POLL_WRITE_FD (socket p) w in
    (id, set_writer_event_id id p, w1).

Definition disable_write_queue (p : tdnbd_data) (w : world)
  : tdnbd_data * world :=
  if writer_event_id p <? 0 then (p, w)
  else (set_writer_event_id (-1) p, emit (EvUnregister (writer_event_id p)) w).

(** The body of the loop of [tdnbd_writer_cb] over the entries that were
    pending when it started ([list_for_each_entry_safe] keeps the next
    entry, and the body unlinks only the current one).  The boolean tells
    whether the callback returned from inside the loop. *)
Fixpoint writer_loop (entries : list nat) (p : tdnbd_data) (w : world)
  : bool * tdnbd_data * world :=
  match entries with
  | [] => (false, p, w)
  | pos :: rest =>
    let '(rc, h, w1) := tdnbd_write_some E (header (slot p pos)) w in
    let p1 := update_slot pos (set_header h) p in
    if rc >? 0 then (true, p1, w1)
    else
      let type := nreq_type (nreq (slot p1 pos)) in
      let '(again, p2, w2) :=
        if type =? TAPDISK_NBD_CMD_WRITE then
          let '(rc2, b, w2) := tdnbd_write_some E (body (slot p1 pos)) w1 in
          (rc2 >? 0, update_slot pos (set_body b) p1, w2)
        else (false, p1, w1) in
      if again then (true, p2, w2)
      else
        let p3 :=
          if type =? TAPDISK_NBD_CMD_DISC then
            set_closed 2
              (set_nr_free_count (nr_free_count p2 + 1)
                 (list_move pos FreeReqs p2))
          else list_move pos SentReqs p2 in
        writer_loop rest p3 w2
  end.

Definition tdnbd_writer_cb (p : tdnbd_data) (w : world) : tdnbd_data * world :=
  let '(returned, p1, w1) := writer_loop (pending_reqs p) p w in
  if returned then (p1, w1)
  else
    let '(p2, w2) := disable_write_queue p1 w1 in
    if closed p2 =? 2 then tdnbd_disable p2 EIO w2 else (p2, w2).

(** [tdnbd_queue_request]; [None] stands for the undefined behaviour of
    taking [list_entry] of the head of an empty free list. *)
Definition tdnbd_queue_request (p : tdnbd_data) (type offset : Z)
  (buf : list ascii) (length : Z) (tr : td_request_t) (fk : Z) (w : world)
  : option (Z * tdnbd_data * world) :=
  if nr_free_count p =? 0 then Some (- EBUSY, p, w)
  else if closed p =? 3 then
    Some (- ETIMEDOUT, p, emit (EvComplete tr (- ETIMEDOUT)) w)
  else
    match free_reqs p with
    | [] => None
    | req :: _ =>
      let id := global_id w in
      let w1 := set_global_id (to_int (id + 1)) w in
      let nr := mk_nreq NBD_REQUEST_MAGIC (to_uint32 type)
                  (snprintf_handle (Z.rem id 0xffff))
                  (to_size_t offset) (to_uint32 length) in
      let r := mk_req tr nr (-1) fk
                 (mk_qio (encode_nreq nr) SIZEOF_NBD_REQUEST 0)
                 (mk_qio buf (to_int (to_uint32 length)) 0) in
      let p1 := update_slot req (fun _ => r) p in
      let p2 := list_move_tail req PendingReqs p1 in
      let p3 := set_nr_free_count (nr_free_count p2 - 1) p2 in
      let '(_, p4, w2) :=
        if writer_event_id p3 <? 0 then enable_write_queue p3 w1
        else (0, p3, w1) in
      Some (0, p4, w2)
    end.

(** The first entry of the sent list whose handle equals the reply's. *)
Fixpoint find_sent (p : tdnbd_data) (entries : list nat) : option nat :=
  match entries with
  | [] => None
  | pos :: rest =>
    if memcmp (nreq_handle (nreq (slot p pos))) (current_reply_handle p) 8 =? 0
    then Some pos
    else find_sent p rest
  end.

(** The part of [tdnbd_reader_cb] after the [switch]. *)
Definition reader_remove_state (r : nat) (do_disable : bool) (p : tdnbd_data)
  (w : world) : tdnbd_data * world :=
  let p1 := list_move r FreeReqs p in
  let p2 := set_nr_free_count (nr_free_count p1 + 1) p1 in
  let q := cur_reply_qio p2 in
  let p3 := set_cur_reply_qio (mk_qio (buffer q) (len q) 0) p2 in
  let t := timeout_event (slot p3 r) in
  let w1 := if t >=? 0 then emit (EvUnregister t) w else w in
  let p4 := set_curr_reply_req None p3 in
  if do_disable then tdnbd_disable p4 EIO w1 else (p4, w1).

Definition tdnbd_reader_cb (p : tdnbd_data) (w : world) : tdnbd_data * world :=
  let do_disable := false in
  let '(rc, q, w1) := tdnbd_read_some E (cur_reply_qio p) w in
  let p1 := set_cur_reply_qio q p in
  if rc <? 0 then tdnbd_disable p1 EIO w1
  else if rc >? 0 then (p1, w1)
  else if negb (current_reply_error p1 =? 0) then tdnbd_disable p1 EIO w1
  else
    let found :=
      match curr_reply_req p1 with
      | Some r => Some r
      | None => find_sent p1 (sent_reqs p1)
      end in
    match found with
    | None => tdnbd_disable p1 EIO w1
    | Some r =>
      let p2 := set_curr_reply_req (Some r) p1 in
      let type := nreq_type (nreq (slot p2 r)) in
      if type =? TAPDISK_NBD_CMD_READ then
        let '(rc2, b, w2) := tdnbd_read_some E (body (slot p2 r)) w1 in
        let p3 := update_slot r (set_body b) p2 in
        if rc2 <? 0 then tdnbd_disable p3 EIO w2
        else if rc2 >? 0 then (p3, w2)
        else
          reader_remove_state r do_disable p3
            (emit (EvComplete (treq (slot p3 r)) 0) w2)
      else if type =? TAPDISK_NBD_CMD_WRITE then
        reader_remove_state r do_disable p2
          (emit (EvComplete (treq (slot p2 r)) 0) w1)
      else
        (* default: do_disable = 1; return; *)
        (p2, w1)
    end.

End Engine.

(** ** Handshake *)

(** Modelled from the spec: the handshake magics, [SECTOR_SHIFT] and
    [DEFAULT_SECTOR_SIZE] are defined in headers that are not among the
    sources; the spec gives the magics, the shift by 9 and the sector size
    of 512. *)
Definition NBD_MAGIC : Z := 0x4e42444d41474943.
Definition NBD_OLD_VERSION : Z := 0x00420281861253.
Definition NBD_OPT_MAGIC : Z := 0x49484156454F5054.
Definition SECTOR_SHIFT : Z := 9.
Definition DEFAULT_SECTOR_SIZE : Z := 512.

(** [driver->info]. *)
Record td_disk_info := mk_info {
  info_size : Z;
  info_sector_size : Z;
  info_info : Z
}.

Section Handshake.

Variable E : env.

(** [tdnbd_wait_recv]: the return value, the bytes stored in the buffer,
    the world. *)
Definition tdnbd_wait_recv (length : Z) (w : world) : Z * list ascii * world :=
  match env_select E (n_select w) with
  | SelectErr e => (- Z.pos e, [], did_select w)
  | SelectTimeout => (- ETIMEDOUT, [], did_select w)
  | SelectReady =>
    let '(rc, errno, got, w1) := sys_recv E length (did_select w) in
    if rc <? 0 then (- errno, [], w1) else (rc, got, w1)
  end.

Definition sys_fcntl (w : world) : Z * world :=
  (env_fcntl E (n_fcntl w), did_fcntl w).

(** [send_fully_or_fail] is declared in util.h, which is not among the
    sources: its result is the environment's. *)
Definition send_fully_or_fail (w : world) : Z * world :=
  (env_send_fully E (n_send_fully w), did_send_fully w).

(** A local of [n] bytes after a receive that stored [got] at its start:
    the rest keeps the indeterminate content it had. *)
Definition local_after_recv (n : nat) (got : list ascii) : list ascii :=
  take n (got ++ drop (length got) (env_stack E)).

(** The label [errout]: close the socket, return -1. *)
Definition errout {A} (sock : Z) (a : A) (w : world) : Z * A * world :=
  (-1, a, emit (EvClose sock) w).

Definition negotiate_client_newstyle_options (sock : Z) (drv : td_disk_info)
  (w : world) : Z * td_disk_info * world :=
  let '(rc, w1) := send_fully_or_fail w in
  if rc <? 0 then errout sock drv w1
  else
    let '(rc, w2) := send_fully_or_fail w1 in
    if rc <? 0 then errout sock drv w2
    else
      let '(rc, got, w3) := tdnbd_wait_recv 10 w2 in
      if rc <? 0 then errout sock drv w3
      else
        let exportsize := take 8 (local_after_recv 10 got) in
        let drv1 :=
          mk_info (Z.shiftr (decode_be exportsize) SECTOR_SHIFT)
                  DEFAULT_SECTOR_SIZE 0 in
        let '(rc, w4) := sys_fcntl w3 in
        if negb (rc =? 0) then errout sock drv1 w4 else (0, drv1, w4).

(** The loop that drains the pad bytes of the OLD greeting.  [None]: the
    loop is still running after [fuel] rounds.  [Some false]: it left
    through [errout]. *)
Fixpoint drain_pad (fuel : nat) (padbytes : Z) (w : world)
  : option (bool * world) :=
  if padbytes >? 0 then
    match fuel with
    | O => None
    | S fuel' =>
      let '(rc, _, w1) := tdnbd_wait_recv padbytes w in
      if rc <? 0 then Some (false, w1)
      else drain_pad fuel' (padbytes - rc) w1
    end
  else Some (true, w).

Definition tdnbd_nbd_negotiate_old (fuel : nat) (p : tdnbd_data)
  (drv : td_disk_info) (w : world) : option (Z * td_disk_info * world) :=
  let padbytes := 124 in
  let sock := socket p in
  let '(rc, size, w1) := tdnbd_wait_recv 8 w in
  if rc <? 0 then Some (errout sock drv w1)
  else if to_size_t rc <? 8 then Some (errout sock drv w1)
  else
    let drv1 :=
      mk_info (Z.shiftr (decode_be (local_after_recv 8 size)) SECTOR_SHIFT)
              DEFAULT_SECTOR_SIZE 0 in
    let '(rc, _, w2) := tdnbd_wait_recv 4 w1 in
    if rc <? 0 then Some (errout sock drv1 w2)
    else if to_size_t rc <? 4 then Some (errout sock drv1 w2)
    else
      match drain_pad fuel padbytes w2 with
      | None => None
      | Some (false, w3) => Some (errout sock drv1 w3)
      | Some (true, w3) =>
        let '(rc, w4) := sys_fcntl w3 in
        if negb (rc =? 0) then Some (errout sock drv1 w4)
        else Some (0, drv1, w4)
      end.

Definition tdnbd_nbd_negotiate_new (p : tdnbd_data) (drv : td_disk_info)
  (w : world) : Z * td_disk_info * world :=
  let sock := socket p in
  let '(rc, _, w1) := tdnbd_wait_recv 2 w in
  if rc <? 0 then errout sock drv w1
  else if to_size_t rc <? 2 then errout sock drv w1
  else
    let '(rc, _, w2) := sys_send E 4 w1 in
    (* rc < sizeof(cflags) compares as size_t *)
    if to_size_t rc <? 4 then errout sock drv w2
    else negotiate_client_newstyle_options sock drv w2.

Definition tdnbd_nbd_negotiate (fuel : nat) (p : tdnbd_data)
  (drv : td_disk_info) (w : world) : option (Z * td_disk_info * world) :=
  let sock := socket p in
  let '(rc, magic, w1) := tdnbd_wait_recv 8 w in
  if rc <? 0 then Some (errout sock drv w1)
  else if to_size_t rc <? 8 then Some (errout sock drv w1)
  else if negb (decode_be (local_after_recv 8 magic) =? NBD_MAGIC)
  then Some (errout sock drv w1)
  else
    let '(rc, magic, w2) := tdnbd_wait_recv 8 w1 in
    if rc <? 0 then Some (errout sock drv w2)
    else if to_size_t rc <? 8 then Some (errout sock drv w2)
    else if decode_be (local_after_recv 8 magic) =? NBD_OLD_VERSION
    then tdnbd_nbd_negotiate_old fuel p drv w2
    else if decode_be (local_after_recv 8 magic) =? NBD_OPT_MAGIC
    then Some (tdnbd_nbd_negotiate_new p drv w2)
    else Some (errout sock drv w2).

(** ** Open *)

(** The loop of [tdnbd_open] that links every slot onto the free list
    with [list_add], which inserts right after the head. *)
Fixpoint open_link_slots (n : nat) (i : nat) (p : tdnbd_data) : tdnbd_data :=
  match n with
  | O => p
  | S n' =>
    open_link_slots n' (S i)
      (set_lists (sent_reqs p) (pending_reqs p) (i :: free_reqs p)
         (update_slot i (set_timeout_event (-1)) p))
  end.

(** The engine state [tdnbd_open] builds before it connects. *)
Definition open_engine_state (MAX_NBD_REQS : nat) : tdnbd_data :=
  let zeroed :=
    mk_data 0 [] [] [] (replicate MAX_NBD_REQS zero_request) 0 0
            (mk_qio (replicate 16 NUL) 0 0) None 0 0 0 in
  let p1 := set_writer_event_id (-1) zeroed in
  let p2 := open_link_slots MAX_NBD_REQS 0 p1 in
  let p3 := set_nr_free_count (Z.of_nat MAX_NBD_REQS) p2 in
  set_cur_reply_qio (mk_qio (replicate 16 NUL) SIZEOF_NBD_REPLY 0) p3.

(** [tdnbd_open] from the point where the socket [sock] is connected
    (or was taken from the stash); [MAX_NBD_REQS] is
    [TAPDISK_DATA_REQUESTS], whose definition is not among the sources. *)
Definition tdnbd_open (fuel : nat) (MAX_NBD_REQS : nat) (sock : Z) (fl : Z)
  (drv0 : td_disk_info) (w : world)
  : option (Z * tdnbd_data * td_disk_info * world) :=
  let drv := mk_info (info_size drv0) 512 0 in
  let p := set_socket_flags sock 0 (open_engine_state MAX_NBD_REQS) in
  match tdnbd_nbd_negotiate fuel p drv w with
  | None => None
  | Some (rc, drv1, w1) =>
    if negb (rc =? 0) then Some (-1, p, drv1, w1)
    else
      let '(id, w2) := register_event E SCHEDULER_POLL_READ_FD (socket p) w1 in
      let p1 := set_reader_event_id id p in
      let p2 := set_socket_flags (socket p1) fl p1 in
      Some (0, set_closed 0 p2, drv1, w2)
  end.

End Handshake.

(** ** Runs of the engine *)

Inductive engine_op :=
| QueueRequest (type offset : Z) (buf : list ascii) (length : Z)
    (tr : td_request_t) (fk : Z)
| WriterCb
| ReaderCb.

Definition engine_step (E : env) (op : engine_op) (p : tdnbd_data) (w : world)
  : option (tdnbd_data * world) :=
  match op with
  | QueueRequest type offset buf length tr fk =>
    match tdnbd_queue_request E p type offset buf length tr fk w with
    | Some (_, p', w') => Some (p', w')
    | None => None
    end
  | WriterCb => Some (tdnbd_writer_cb E p w)
  | ReaderCb => Some (tdnbd_reader_cb E p w)
  end.

Fixpoint engine_run (E : env) (ops : list engine_op) (p : tdnbd_data)
  (w : world) : option (tdnbd_data * world) :=
  match ops with
  | [] => Some (p, w)
  | op :: rest =>
    match engine_step E op p w with
    | Some (p', w') => engine_run E rest p' w'
    | None => None
    end
  end.

(** ** Close and the queueing entry points *)

Section Facade.

Variable E : env.

(** [tdnbd_close].  [name] is [prv->name], which is set when the socket
    came from the stash; the request the DISC carries is all zeros.  The
    two [fcntl] calls switch the socket to blocking mode; their results
    are not looked at. *)
Definition tdnbd_close (name : option (list ascii)) (p : tdnbd_data) (w : world)
  : option (Z * tdnbd_data * world) :=
  if closed p =? 3 then
    let w1 := if socket p >=? 0 then emit (EvClose (socket p)) w else w in
    Some (0, set_socket_flags (-1) (flags p) p, w1)
  else
    match tdnbd_queue_request E p TAPDISK_NBD_CMD_DISC 0 [] 0 (mk_treq 0 0 0) 0 w
    with
    | None => None
    | Some (_, p1, w1) =>
      let '(_, w2) := sys_fcntl E w1 in
      let '(_, w3) := sys_fcntl E w2 in
      let '(p2, w4) := tdnbd_writer_cb E p1 w3 in
      match name with
      | Some n => Some (0, p2, tdnbd_stash_passed_fd (socket p2) n w4)
      | None =>
        let w5 :=
          if socket p2 >=? 0 then emit (EvClose (socket p2)) w4 else w4 in
        Some (0, set_socket_flags (-1) (flags p2) p2, w5)
      end
    end.

(** [tdnbd_queue_write]: [sector_size] is [driver->info.sector_size] and
    [buf] the memory behind [treq.buf].  The size is computed into an
    [int], the offset into a [uint64_t]; the result of
    [tdnbd_queue_request] is not looked at. *)
Definition tdnbd_queue_write (sector_size : Z) (p : tdnbd_data)
  (tr : td_request_t) (buf : list ascii) (w : world)
  : option (tdnbd_data * world) :=
  let size := to_int (treq_secs tr * sector_size) in
  let offset := to_size_t (treq_sec tr * sector_size) in
  match tdnbd_queue_request E p TAPDISK_NBD_CMD_WRITE offset buf size tr 0 w with
  | Some (_, p', w') => Some (p', w')
  | None => None
  end.

(** [tdnbd_queue_read]; the boolean tells whether the request went to
    [td_forward_request] instead.  [TD_OPEN_SECONDARY] is a flag bit of
    tapdisk.h, which is not among the sources. *)
Definition tdnbd_queue_read (TD_OPEN_SECONDARY sector_size : Z) (p : tdnbd_data)
  (tr : td_request_t) (buf : list ascii) (w : world)
  : option (bool * tdnbd_data * world) :=
  let size := to_int (treq_secs tr * sector_size) in
  let offset := to_size_t (treq_sec tr * sector_size) in
  if negb (Z.land (flags p) TD_OPEN_SECONDARY =? 0) then Some (true, p, w)
  else
    match tdnbd_queue_request E p TAPDISK_NBD_CMD_READ offset buf size tr 0 w with
    | Some (_, p', w') => Some (false, p', w')
    | None => None
    end.

End Facade.

(** * Statements *)

(** The predicates the properties are stated with. *)

(** The first index from [i] on at which [p] holds. *)
Fixpoint first_index {A} (p : A -> bool) (l : list A) (i : nat) : option nat :=
  match l with
  | [] => None
  | x :: rest => if p x then Some i else first_index p rest (S i)
  end.

(** The slot that a search by name first would select: the first slot
    whose name matches, and only when there is none the first unused
    slot. *)
Definition stash_slot_by_name_first (msg : list ascii)
  (tbl : list tdnbd_passed_fd) : option nat :=
  match first_index
          (fun e => strncmp msg (pf_id e) (PASSED_FD_ID_SIZE - 1) =? 0) tbl 0 with
  | Some i => Some i
  | None => first_index (fun e => pf_fd e =? -1) tbl 0
  end.

(** What [tdnbd_write_some] promises, with [send] as the system call and
    [bytes_out] as the count of bytes that went through it. *)
Definition write_some_contract (E : env) : Prop :=
  (forall data w e,
     0 < len data - so_far data ->
     env_send E (n_send w) = SendErr e ->
     Z.pos e = EAGAIN \/ Z.pos e = EWOULDBLOCK ->
     tdnbd_write_some E data w =
       (len data - so_far data, data, did_send (-1) w)) /\
  (forall data w,
     0 < len data - so_far data ->
     env_send E (n_send w) = SendTakes 0 \/
     (exists e, env_send E (n_send w) = SendErr e /\
                Z.pos e <> EAGAIN /\ Z.pos e <> EWOULDBLOCK) ->
     exists r w', tdnbd_write_some E data w = (r, data, w') /\ r < 0) /\
  (forall data w n,
     0 < len data - so_far data ->
     env_send E (n_send w) = SendTakes (S n) ->
     let rc := Z.min (Z.of_nat (S n)) (len data - so_far data) in
     tdnbd_write_some E data w =
       tdnbd_write_some E (advance rc data) (did_send rc w)) /\
  (forall data w,
     so_far data <= len data ->
     let '(r, d', w') := tdnbd_write_some E data w in
     len d' = len data /\
     so_far d' - so_far data = bytes_out w' - bytes_out w /\
     (r = 0 <-> so_far d' = len data) /\
     (0 < r -> r = len data - so_far d') /\
     (r < 0 -> so_far d' < len data)) /\
  (forall data w,
     len data = so_far data -> tdnbd_write_some E data w = (0, data, w)).

(** The same for [tdnbd_read_some], with [recv] and [bytes_in]. *)
Definition read_some_contract (E : env) : Prop :=
  (forall data w e,
     0 < len data - so_far data ->
     env_recv E (n_recv w) = RecvErr e ->
     Z.pos e = EAGAIN \/ Z.pos e = EWOULDBLOCK ->
     tdnbd_read_some E data w =
       (len data - so_far data, data, did_recv (-1) w)) /\
  (forall data w,
     0 < len data - so_far data ->
     env_recv E (n_recv w) = RecvData [] \/
     (exists e, env_recv E (n_recv w) = RecvErr e /\
                Z.pos e <> EAGAIN /\ Z.pos e <> EWOULDBLOCK) ->
     exists r w', tdnbd_read_some E data w = (r, data, w') /\ r < 0) /\
  (forall data w b bytes,
     0 < len data - so_far data ->
     env_recv E (n_recv w) = RecvData (b :: bytes) ->
     let got := take (Z.to_nat (len data - so_far data)) (b :: bytes) in
     let rc := Z.of_nat (length got) in
     tdnbd_read_some E data w =
       tdnbd_read_some E (advance rc (store_at data got)) (did_recv rc w)) /\
  (forall data w,
     so_far data <= len data ->
     let '(r, d', w') := tdnbd_read_some E data w in
     len d' = len data /\
     so_far d' - so_far data = bytes_in w' - bytes_in w /\
     (r = 0 <-> so_far d' = len data) /\
     (0 < r -> r = len data - so_far d') /\
     (r < 0 -> so_far d' < len data)) /\
  (forall data w,
     len data = so_far data -> tdnbd_read_some E data w = (0, data, w)).

(** The completions among a sequence of calls, in order. *)
Fixpoint completions (t : list event) : list (td_request_t * Z) :=
  match t with
  | [] => []
  | EvComplete tr e :: rest => (tr, e) :: completions rest
  | _ :: rest => completions rest
  end.

(** What [__cancel_req] and the two cancelling loops leave alone. *)
Definition same_connection (p p' : tdnbd_data) : Prop :=
  sent_reqs p' = sent_reqs p /\ pending_reqs p' = pending_reqs p /\
  free_reqs p' = free_reqs p /\ nr_free_count p' = nr_free_count p /\
  writer_event_id p' = writer_event_id p /\
  reader_event_id p' = reader_event_id p /\
  curr_reply_req p' = curr_reply_req p /\ closed p' = closed p /\
  length (requests p') = length (requests p) /\
  forall i, treq (slot p' i) = treq (slot p i).

(** The three lists, one after the other. *)
Definition all_reqs (p : tdnbd_data) : list nat :=
  free_reqs p ++ pending_reqs p ++ sent_reqs p.

(** The accounting of the request slots of a connection with [N] slots:
    the counter is the length of the free list, the three lists together
    hold every slot index once, and the request a reply is being read
    for is on the sent list. *)
Definition engine_inv (N : nat) (p : tdnbd_data) : Prop :=
  nr_free_count p = Z.of_nat (length (free_reqs p)) /\
  all_reqs p ≡ₚ seq 0 N /\
  (forall r, curr_reply_req p = Some r -> r ∈ sent_reqs p).

(** The writer event id is non-negative exactly when requests are pending. *)
Definition writer_inv (p : tdnbd_data) : Prop :=
  0 <= writer_event_id p <-> pending_reqs p <> [].

(** The five hexadecimal digits of a number below 16^5. *)
Definition hex5 (v : Z) : list ascii :=
  [hex_digit (v / 16 ^ 4 mod 16); hex_digit (v / 16 ^ 3 mod 16);
   hex_digit (v / 16 ^ 2 mod 16); hex_digit (v / 16 mod 16);
   hex_digit (v mod 16)].

(** The requests that are queued or sent and not yet answered. *)
Definition outstanding (p : tdnbd_data) : list td_request_t :=
  map (fun i => treq (slot p i)) (pending_reqs p ++ sent_reqs p).

(** The request an operation takes on: that of an enqueue that returns 0. *)
Definition accepted_by (E : env) (op : engine_op) (p : tdnbd_data) (w : world)
  : list td_request_t :=
  match op with
  | QueueRequest type offset buf length tr fk =>
    match tdnbd_queue_request E p type offset buf length tr fk w with
    | Some (rc, _, _) => if rc =? 0 then [tr] else []
    | None => []
    end
  | _ => []
  end.

(** The requests a run takes on, in order. *)
Fixpoint engine_accepted (E : env) (ops : list engine_op) (p : tdnbd_data)
  (w : world) : list td_request_t :=
  match ops with
  | [] => []
  | op :: rest =>
    accepted_by E op p w ++
    match engine_step E op p w with
    | Some (p', w') => engine_accepted E rest p' w'
    | None => []
    end
  end.

(** An operation of the two queueing entry points or of the scheduler:
    an enqueue is a read or a write. *)
Definition read_or_write (op : engine_op) : Prop :=
  match op with
  | QueueRequest type _ _ _ _ _ =>
    type = TAPDISK_NBD_CMD_READ \/ type = TAPDISK_NBD_CMD_WRITE
  | _ => True
  end.

(** Every queued or sent request is a read or a write. *)
Definition types_rw (p : tdnbd_data) : Prop :=
  forall i, i ∈ pending_reqs p ++ sent_reqs p ->
    nreq_type (nreq (slot p i)) = TAPDISK_NBD_CMD_READ \/
    nreq_type (nreq (slot p i)) = TAPDISK_NBD_CMD_WRITE.

(** The operations leave the requests and the headers of the slots as
    they are. *)
Definition same_reqs (p p' : tdnbd_data) : Prop :=
  forall i, treq (slot p' i) = treq (slot p i) /\ nreq (slot p' i) = nreq (slot p i).

(** A connection with [N] slots whose accounting holds, whose array has
    the [N] slots, on which only reads and writes are queued, and which
    is open or dead. *)
Definition live_inv (N : nat) (p : tdnbd_data) : Prop :=
  engine_inv N p /\ length (requests p) = N /\ types_rw p /\
  (closed p = 0 \/ closed p = 3).

(** What the callbacks leave alone: the requests and headers of the
    slots, the size of the array; and they queue nothing. *)
Definition slots_kept (p p' : tdnbd_data) : Prop :=
  same_reqs p p' /\ length (requests p') = length (requests p) /\
  forall i, i ∈ pending_reqs p' ++ sent_reqs p' ->
            i ∈ pending_reqs p ++ sent_reqs p.

(** The ledger of one operation that takes on the requests [acc]: either
    the connection stays open, what it completed was answered without
    error, and every request outstanding before or taken on is completed
    or still outstanding; or the connection is dead and every such request
    was completed with EIO. *)
Definition ledger_step (acc : list td_request_t) (p : tdnbd_data) (w : world)
  (p' : tdnbd_data) (w' : world) : Prop :=
  exists done,
    completions (trace w') = completions (trace w) ++ done /\
    ((closed p' = 0 /\ Forall (fun c => snd c = 0) done /\
      map fst done ++ outstanding p' ≡ₚ outstanding p ++ acc) \/
     (closed p' = 3 /\ Forall (fun c => snd c = EIO) done /\
      map fst done ≡ₚ outstanding p ++ acc)).

(** The descriptors the stash holds, and the descriptors a sequence of
    calls closed. *)
Definition held_fds (w : world) : list Z :=
  filter (fun fd => -1 < fd) (map pf_fd (passed_fds w)).

Fixpoint closed_fds (t : list event) : list Z :=
  match t with
  | [] => []
  | EvClose fd :: rest => fd :: closed_fds rest
  | _ :: rest => closed_fds rest
  end.

(** The handle of the request in slot [i] is the handle of the reply
    that was read. *)
Definition handle_matches (p : tdnbd_data) (i : nat) : Prop :=
  nreq_handle (nreq (slot p i)) = current_reply_handle p.

(** The bytes of a request that are still to be written: the rest of
    its header, and the rest of its data when it is a write. *)
Definition remaining_of (r : td_nbd_request) : Z :=
  (len (header r) - so_far (header r)) +
  (if nreq_type (nreq r) =? TAPDISK_NBD_CMD_WRITE
   then len (body r) - so_far (body r) else 0).

Definition sum_over (f : nat -> Z) (l : list nat) : Z :=
  foldr (fun i acc => f i + acc) 0 l.

(** The bytes the pending requests still have to send. *)
Definition unsent (p : tdnbd_data) : Z :=
  sum_over (fun i => remaining_of (slot p i)) (pending_reqs p).

(** The cursors of the pending requests are within their buffers. *)
Definition cursors_ok (p : tdnbd_data) : Prop :=
  forall i, i ∈ pending_reqs p ->
    so_far (header (slot p i)) <= len (header (slot p i)) /\
    so_far (body (slot p i)) <= len (body (slot p i)).

(** A socket on which [send] takes at least one byte or would block. *)
Definition sends_never_fail (E : env) : Prop :=
  forall k, match env_send E k with
            | SendErr e => Z.pos e = EAGAIN
            | SendTakes n => (0 < n)%nat
            end.







(** * Sample environments and states *)

(** A scripted answer sequence: the k-th call gets the k-th element, and
    [d] once the script is over. *)
Definition script {A} (l : list A) (d : A) : nat -> A := fun k => nth k l d.

(** The process before anything happened: the globals are zero. *)
Definition world0 : world :=
  mk_world (replicate N_PASSED_FDS (mk_passed_fd [] 0)) 0 0 0 0 0 0 0 0 0 [].

(** The world in which [k] sends and [k] receives have been made. *)
Definition world_at (k : nat) : world := mk_world [] 0 k k 0 0 0 0 0 0 [].

(** The world in which [k] receives went through [tdnbd_wait_recv]. *)
Definition world_recvd (k : nat) : world := mk_world [] 0 0 k k 0 0 0 0 0 [].

(** A socket on which every call would block. *)
Definition env_idle : env :=
  mk_env (fun _ => SendErr 11) (fun _ => RecvErr 11) (fun _ => SelectTimeout)
         (fun _ => 0) (fun _ => 0) (fun k => Z.of_nat k + 1) [].

(** A socket that takes three bytes, then would block, then is shut down
    by the peer, then fails with EPIPE (32); it delivers two bytes, then
    would block, then is at end of file, then fails with ECONNRESET (104). *)
Definition env_transport : env :=
  mk_env (script [SendTakes 3; SendErr 11; SendTakes 0; SendErr 32] (SendErr 11))
         (script [RecvData (cstring "ab"); RecvErr 11; RecvData []; RecvErr 104]
                 (RecvErr 11))
         (fun _ => SelectTimeout) (fun _ => 0) (fun _ => 0) (fun _ => 0) [].

(** A request header of 28 bytes, nothing of it sent. *)
Definition qio_header : nbd_queued_io := mk_qio (replicate 28 NUL) 28 0.

(** The greeting of an OLD-style server that exports [size] bytes. *)
Definition old_greeting (size : Z) : list recv_resp :=
  [RecvData (encode_be 8 NBD_MAGIC); RecvData (encode_be 8 NBD_OLD_VERSION);
   RecvData (encode_be 8 size); RecvData (encode_be 4 0);
   RecvData (replicate 124 NUL)].

(** The greeting of a NEW-style server, up to the reply to the export
    name: both magics, the handshake flags, the export size with the
    transmission flags. *)
Definition new_greeting (size : Z) : list recv_resp :=
  [RecvData (encode_be 8 NBD_MAGIC); RecvData (encode_be 8 NBD_OPT_MAGIC);
   RecvData (encode_be 2 3); RecvData (encode_be 8 size ++ encode_be 2 1)].

(** A reply header without error for the request with the given handle. *)
Definition reply_ok (handle : string) : list ascii :=
  encode_be 4 NBD_REPLY_MAGIC ++ encode_be 4 0 ++ cstring handle ++ [NUL].

(** A server that sends [greeting] and then [replies], is always
    readable and takes everything that is sent; the scheduler numbers the
    registrations from 1. *)
Definition env_session (greeting replies : list recv_resp) : env :=
  mk_env (fun _ => SendTakes 4096)
         (script (greeting ++ replies) (RecvErr 11))
         (fun _ => SelectReady) (fun _ => 0) (fun _ => 0)
         (fun k => Z.of_nat k + 1) [].

(** The server answers the first request and sends 512 bytes of data. *)
Definition env_two_replies : env :=
  env_session (old_greeting 0x200000000)
    [RecvData (reply_ok "td00000"); RecvData (replicate 512 "x"%char)].

(** The server answers the first request with a bare reply header. *)
Definition env_one_reply : env :=
  env_session (old_greeting 0x200000000) [RecvData (reply_ok "td00000")].

(** The same connection with both slots in flight when the peer shuts
    down: the reader disables it. *)
Definition env_peer_closes : env :=
  env_session (old_greeting 0x200000000) [RecvData []].

(** A NEW-style server whose reply to the export name arrives in pieces:
    the receive delivers only its first four bytes.  The local that takes
    the reply held 0xff bytes before. *)
Definition env_short_reply : env :=
  mk_env (fun _ => SendTakes 4096)
         (script (take 3 (new_greeting 0x40000000) ++
                  [RecvData (take 4 (encode_be 8 0x40000000))]) (RecvErr 11))
         (fun _ => SelectReady) (fun _ => 0) (fun _ => 0)
         (fun k => Z.of_nat k + 1) (replicate 16 "255"%char).

(** An OLD-style server that closes the connection after the flags. *)
Definition env_peer_gone : env :=
  mk_env (fun _ => SendTakes 4096)
         (script (take 4 (old_greeting 0x200000000)) (RecvData []))
         (fun _ => SelectReady) (fun _ => 0) (fun _ => 0)
         (fun k => Z.of_nat k + 1) [].

(** A table as it stands after the receiver started, two sockets were
    stashed and the first was taken out again. *)
Definition stash_example_world : world :=
  let w1 := tdnbd_fdreceiver_start world0 in
  let w2 := tdnbd_stash_passed_fd 4 (cstring "a") w1 in
  let w3 := tdnbd_stash_passed_fd 5 (cstring "foo") w2 in
  snd (tdnbd_retrieve_passed_fd (cstring "a") w3).

(** The connection and the world that a successful open leaves. *)
Definition opened (E : env) (N : nat) : tdnbd_data * world :=
  match tdnbd_open E 124 N 3 0 (mk_info 0 0 0) world0 with
  | Some (_, p, _, w) => (p, w)
  | None => (open_engine_state N, world0)
  end.

(** Two requests, one round of the writer, one of the reader, a third
    request. *)
Definition session_ops : list engine_op :=
  [QueueRequest TAPDISK_NBD_CMD_READ 0 (replicate 512 NUL) 512 (mk_treq 0 1 7) 0;
   QueueRequest TAPDISK_NBD_CMD_WRITE 512 (replicate 512 "y"%char) 512
     (mk_treq 1 1 8) 0;
   WriterCb; ReaderCb;
   QueueRequest TAPDISK_NBD_CMD_READ 1024 (replicate 512 NUL) 512
     (mk_treq 2 1 9) 0].

(** Two reads go out, then the reader finds the connection closed. *)
Definition dead_session : option (tdnbd_data * world) :=
  engine_run env_peer_closes
    [QueueRequest TAPDISK_NBD_CMD_READ 0 (replicate 512 NUL) 512 (mk_treq 0 1 7) 0;
     QueueRequest TAPDISK_NBD_CMD_READ 512 (replicate 512 NUL) 512 (mk_treq 1 1 8) 0;
     WriterCb; ReaderCb]
    (fst (opened env_peer_closes 2)) (snd (opened env_peer_closes 2)).

(** A connection that was disabled while both of its two slots were in
    flight: nothing is on the free list. *)
Definition dead_full_connection : tdnbd_data :=
  mk_data 1 [1%nat; 0%nat] [] [] [zero_request; zero_request] 0 2
          (mk_qio (replicate 16 NUL) 16 0) None 3 0 3.

(** A dead connection with one of its two slots free. *)
Definition dead_connection : tdnbd_data :=
  mk_data 1 [1%nat] [] [0%nat] [zero_request; zero_request] 1 2
          (mk_qio (replicate 16 NUL) 16 0) None 3 0 3.

(** The driver info and the world of a negotiation that returned. *)
Definition info_of (r : option (Z * td_disk_info * world)) : td_disk_info :=
  match r with Some (_, d, _) => d | None => mk_info 0 0 0 end.

Definition world_of (r : option (Z * td_disk_info * world)) : world :=
  match r with Some (_, _, w) => w | None => world0 end.

(** A server like that of [env_session] whose socket takes ten bytes,
    ten bytes again, then would block, and takes everything after that. *)
Definition env_trickle : env :=
  mk_env (script [SendTakes 10; SendTakes 10; SendErr 11] (SendTakes 4096))
         (script (old_greeting 0x200000000) (RecvErr 11))
         (fun _ => SelectReady) (fun _ => 0) (fun _ => 0)
         (fun k => Z.of_nat k + 1) [].

(** The server of [env_one_reply] with a scheduler that registers the
    reader as event 1 and refuses every later registration with -12. *)
Definition env_register_fails : env :=
  mk_env (fun _ => SendTakes 4096)
         (script (old_greeting 0x200000000) (RecvErr 11))
         (fun _ => SelectReady) (fun _ => 0) (fun _ => 0)
         (script [1] (-12)) [].

(** The state a run ends in. *)
Definition state_of (r : option (tdnbd_data * world)) : tdnbd_data * world :=
  default (open_engine_state 0, world0) r.

(** * Properties *)

(** ** FD stash *)

Lemma stash_scan_some msg tbl k i :
  stash_scan msg tbl k = Some i ->
  (k <= i)%nat /\
  exists old, tbl !! (i - k)%nat = Some old /\ stash_slot_ok msg old = true /\
    forall j e, (j < i - k)%nat -> tbl !! j = Some e -> stash_slot_ok msg e = false.
Proof.
  revert k. induction tbl as [|e rest IH]; intros k H; simpl in H; [discriminate|].
  destruct (stash_slot_ok msg e) eqn:Hok.
  - injection H as <-. split; [lia|]. exists e.
    replace (k - k)%nat with 0%nat by lia. repeat split; auto. intros; lia.
  - apply IH in H as (Hle & old & Hl & Ho & Hbefore). split; [lia|].
    exists old. replace (i - k)%nat with (S (i - S k)) by lia.
    repeat split; auto.
    intros [|j] e' Hj He'; simpl in He'.
    + congruence.
    + apply (Hbefore j); [lia|assumption].
Qed.

Lemma stash_scan_none msg tbl k :
  stash_scan msg tbl k = None ->
  forall e, e ∈ tbl -> stash_slot_ok msg e = false.
Proof.
  revert k. induction tbl as [|e rest IH]; intros k H e' Hin.
  - inversion Hin.
  - simpl in H. destruct (stash_slot_ok msg e) eqn:Hok; [discriminate|].
    apply elem_of_cons in Hin as [->|Hin]; eauto.
Qed.

Lemma stash_slot_ok_spec msg e :
  stash_slot_ok msg e = true <->
  pf_fd e = -1 \/ strncmp msg (pf_id e) 39 = 0.
Proof.
  unfold stash_slot_ok. rewrite orb_true_iff, !Z.eqb_eq. reflexivity.
Qed.

(** C6, as stated, fails: with an unused slot in front of the slot that
    carries the name, the pair goes to the unused slot; the slot with the
    matching name keeps its socket, which is not closed. *)
Lemma stash_takes_unused_slot_before_matching :
  let w := stash_example_world in
  let w' := tdnbd_stash_passed_fd 7 (cstring "foo") w in
  stash_slot_by_name_first (cstring "foo") (passed_fds w) = Some 1%nat /\
  passed_fds w !! 1%nat = Some (mk_passed_fd (cstring "foo") 5) /\
  passed_fds w' !! 1%nat = Some (mk_passed_fd (cstring "foo") 5) /\
  passed_fds w' !! 0%nat = Some (mk_passed_fd (cstring "foo") 7) /\
  trace w' = trace w /\
  stash_scan (cstring "foo") (passed_fds w) 0 <>
  stash_slot_by_name_first (cstring "foo") (passed_fds w).
Proof.
  vm_compute. repeat split; congruence.
Qed.

(** C6, amended: [tdnbd_stash_passed_fd] stores the pair into the first
    slot that is unused (fd = -1) or whose name compares equal to the
    given one over 39 bytes, whichever comes first; a socket held by that
    slot (fd > -1) is closed before the pair is stored.  When no slot
    qualifies the table is left alone and the passed socket is closed. *)
Theorem stash_first_unused_or_matching (fd : Z) (msg : list ascii) (w : world) :
  let w' := tdnbd_stash_passed_fd fd msg w in
  match stash_scan msg (passed_fds w) 0 with
  | Some i =>
    exists old,
      passed_fds w !! i = Some old /\
      (pf_fd old = -1 \/ strncmp msg (pf_id old) 39 = 0) /\
      (forall j e, (j < i)%nat -> passed_fds w !! j = Some e ->
         pf_fd e <> -1 /\ strncmp msg (pf_id e) 39 <> 0) /\
      passed_fds w' = <[i := mk_passed_fd (take 39 msg) fd]> (passed_fds w) /\
      trace w' =
        trace w ++ (if pf_fd old >? -1 then [EvClose (pf_fd old)] else [])
  | None =>
    (forall e, e ∈ passed_fds w ->
       pf_fd e <> -1 /\ strncmp msg (pf_id e) 39 <> 0) /\
    passed_fds w' = passed_fds w /\
    trace w' = trace w ++ [EvClose fd]
  end.
Proof.
  intros w'. subst w'. unfold tdnbd_stash_passed_fd.
  assert (Hno : forall e, stash_slot_ok msg e = false ->
                 pf_fd e <> -1 /\ strncmp msg (pf_id e) 39 <> 0).
  { intros e He. split; intros Hc;
      assert (stash_slot_ok msg e = true) by (apply stash_slot_ok_spec; auto);
      congruence. }
  destruct (stash_scan msg (passed_fds w) 0) as [i|] eqn:Hscan.
  - apply stash_scan_some in Hscan as (_ & old & Hl & Hok & Hbefore).
    replace (i - 0)%nat with i in * by lia.
    exists old. rewrite Hl. split; [reflexivity|].
    split; [apply stash_slot_ok_spec; assumption|].
    split; [intros j e Hj He; apply Hno; eauto|].
    destruct (pf_fd old >? -1); simpl; split; auto using app_nil_r.
  - split; [|split; reflexivity].
    intros e He. apply Hno. eapply stash_scan_none; eauto.
Qed.

(** ** Socket transport *)

Section TransportFacts.

Variable E : env.

Lemma sys_send_rc left w :
  0 < left ->
  let '(rc, errno, w1) := sys_send E left w in
  w1 = did_send rc w /\
  ((rc = -1 /\ 0 < errno) \/ (0 <= rc <= left /\ errno = 0)).
Proof.
  intros Hl. unfold sys_send. destruct (env_send E (n_send w)); simpl.
  - split; [reflexivity|]. left. split; lia.
  - split; [reflexivity|]. right. lia.
Qed.

Lemma sys_recv_rc left w :
  0 < left ->
  let '(rc, errno, got, w1) := sys_recv E left w in
  w1 = did_recv rc w /\
  ((rc = -1 /\ 0 < errno) \/
   (0 <= rc <= left /\ errno = 0 /\ rc = Z.of_nat (length got))).
Proof.
  intros Hl. unfold sys_recv. destruct (env_recv E (n_recv w)); simpl.
  - split; [reflexivity|]. left. split; lia.
  - split; [reflexivity|]. right. rewrite length_take. lia.
Qed.

Lemma write_some_loop_fuel f1 : forall f2 left data w,
  left <= Z.of_nat f1 -> left <= Z.of_nat f2 ->
  write_some_loop E f1 left data w = write_some_loop E f2 left data w.
Proof.
  induction f1 as [|f1 IH]; intros f2 left data w H1 H2.
  - destruct f2; simpl; destruct (left >? 0) eqn:Hgt; try reflexivity; lia.
  - destruct f2; simpl; destruct (left >? 0) eqn:Hgt; try reflexivity; [lia|].
    pose proof (sys_send_rc left w ltac:(lia)) as Hs.
    destruct (sys_send E left w) as [[rc errno] w1].
    destruct (rc =? -1) eqn:Hm; [reflexivity|].
    destruct (rc =? 0) eqn:Hz; [reflexivity|].
    apply IH; lia.
Qed.

Lemma read_some_loop_fuel f1 : forall f2 left data w,
  left <= Z.of_nat f1 -> left <= Z.of_nat f2 ->
  read_some_loop E f1 left data w = read_some_loop E f2 left data w.
Proof.
  induction f1 as [|f1 IH]; intros f2 left data w H1 H2.
  - destruct f2; simpl; destruct (left >? 0) eqn:Hgt; try reflexivity; lia.
  - destruct f2; simpl; destruct (left >? 0) eqn:Hgt; try reflexivity; [lia|].
    pose proof (sys_recv_rc left w ltac:(lia)) as Hs.
    destruct (sys_recv E left w) as [[[rc errno] got] w1].
    destruct (rc =? -1) eqn:Hm; [reflexivity|].
    destruct (rc =? 0) eqn:Hz; [reflexivity|].
    apply IH; lia.
Qed.

(** One round of [tdnbd_write_some] when there is something left. *)
Lemma tdnbd_write_some_step data w :
  0 < len data - so_far data ->
  tdnbd_write_some E data w =
  let left := len data - so_far data in
  let '(rc, errno, w1) := sys_send E left w in
  if rc =? -1 then
    if (errno =? EAGAIN) || (errno =? EWOULDBLOCK)
    then (left, data, w1) else (rc, data, w1)
  else if rc =? 0 then (-1, data, w1)
  else tdnbd_write_some E (advance rc data) w1.
Proof.
  intros Hl. unfold tdnbd_write_some.
  destruct (Z.to_nat (len data - so_far data)) as [|f] eqn:Hf; [lia|].
  simpl write_some_loop.
  destruct (len data - so_far data >? 0) eqn:Hgt; [|lia].
  cbv zeta.
  pose proof (sys_send_rc (len data - so_far data) w Hl) as Hs.
  destruct (sys_send E (len data - so_far data) w) as [[rc errno] w1].
  destruct (rc =? -1) eqn:Hm; [reflexivity|].
  destruct (rc =? 0) eqn:Hz; [reflexivity|].
  simpl. replace (len data - (so_far data + rc)) with (len data - so_far data - rc) by lia.
  apply write_some_loop_fuel; lia.
Qed.

Lemma tdnbd_read_some_step data w :
  0 < len data - so_far data ->
  tdnbd_read_some E data w =
  let left := len data - so_far data in
  let '(rc, errno, got, w1) := sys_recv E left w in
  if rc =? -1 then
    if (errno =? EAGAIN) || (errno =? EWOULDBLOCK)
    then (left, data, w1) else (rc, data, w1)
  else if rc =? 0 then (-1, data, w1)
  else tdnbd_read_some E (advance rc (store_at data got)) w1.
Proof.
  intros Hl. unfold tdnbd_read_some.
  destruct (Z.to_nat (len data - so_far data)) as [|f] eqn:Hf; [lia|].
  simpl read_some_loop.
  destruct (len data - so_far data >? 0) eqn:Hgt; [|lia].
  cbv zeta.
  pose proof (sys_recv_rc (len data - so_far data) w Hl) as Hs.
  destruct (sys_recv E (len data - so_far data) w) as [[[rc errno] got] w1].
  destruct (rc =? -1) eqn:Hm; [reflexivity|].
  destruct (rc =? 0) eqn:Hz; [reflexivity|].
  simpl. replace (len data - (so_far data + rc)) with (len data - so_far data - rc) by lia.
  apply read_some_loop_fuel; lia.
Qed.

Lemma tdnbd_write_some_done data w :
  len data - so_far data <= 0 ->
  tdnbd_write_some E data w = (len data - so_far data, data, w).
Proof.
  intros Hl. unfold tdnbd_write_some.
  destruct (Z.to_nat (len data - so_far data)); simpl;
    destruct (len data - so_far data >? 0) eqn:Hgt; try reflexivity; lia.
Qed.

Lemma tdnbd_read_some_done data w :
  len data - so_far data <= 0 ->
  tdnbd_read_some E data w = (len data - so_far data, data, w).
Proof.
  intros Hl. unfold tdnbd_read_some.
  destruct (Z.to_nat (len data - so_far data)); simpl;
    destruct (len data - so_far data >? 0) eqn:Hgt; try reflexivity; lia.
Qed.

Lemma write_some_loop_result fuel : forall left data w,
  left = len data - so_far data -> left <= Z.of_nat fuel -> 0 <= left ->
  let '(r, d', w') := write_some_loop E fuel left data w in
  len d' = len data /\ buffer d' = buffer data /\
  so_far d' - so_far data = bytes_out w' - bytes_out w /\
  so_far data <= so_far d' <= len data /\
  (r = len data - so_far d' \/ (r = -1 /\ so_far d' < len data)).
Proof.
  induction fuel as [|fuel IH]; intros left data w Hleft Hfuel Hpos.
  - simpl. destruct (left >? 0) eqn:Hgt; [lia|]. repeat split; lia.
  - simpl. destruct (left >? 0) eqn:Hgt; [|repeat split; lia].
    pose proof (sys_send_rc left w ltac:(lia)) as Hs.
    destruct (sys_send E left w) as [[rc errno] w1].
    destruct Hs as [-> Hrc].
    destruct (rc =? -1) eqn:Hm.
    { destruct ((errno =? EAGAIN) || (errno =? EWOULDBLOCK)); simpl;
        repeat split; lia. }
    destruct (rc =? 0) eqn:Hz; [simpl; repeat split; lia|].
    specialize (IH (left - rc) (advance rc data) (did_send rc w)).
    simpl in IH.
    destruct (write_some_loop E fuel (left - rc) (advance rc data) (did_send rc w))
      as [[r d'] w'].
    destruct IH as (Hlen & Hbuf & Hsf & Hrange & Hr); [lia..|].
    repeat split; try assumption; try lia.
Qed.

Lemma read_some_loop_result fuel : forall left data w,
  left = len data - so_far data -> left <= Z.of_nat fuel -> 0 <= left ->
  let '(r, d', w') := read_some_loop E fuel left data w in
  len d' = len data /\
  so_far d' - so_far data = bytes_in w' - bytes_in w /\
  so_far data <= so_far d' <= len data /\
  (r = len data - so_far d' \/ (r = -1 /\ so_far d' < len data)).
Proof.
  induction fuel as [|fuel IH]; intros left data w Hleft Hfuel Hpos.
  - simpl. destruct (left >? 0) eqn:Hgt; [lia|]. repeat split; lia.
  - simpl. destruct (left >? 0) eqn:Hgt; [|repeat split; lia].
    pose proof (sys_recv_rc left w ltac:(lia)) as Hs.
    destruct (sys_recv E left w) as [[[rc errno] got] w1].
    destruct Hs as [-> Hrc].
    destruct (rc =? -1) eqn:Hm.
    { destruct ((errno =? EAGAIN) || (errno =? EWOULDBLOCK)); simpl;
        repeat split; lia. }
    destruct (rc =? 0) eqn:Hz; [simpl; repeat split; lia|].
    specialize (IH (left - rc) (advance rc (store_at data got)) (did_recv rc w)).
    simpl in IH.
    destruct (read_some_loop E fuel (left - rc) (advance rc (store_at data got))
                (did_recv rc w)) as [[r d'] w'].
    destruct IH as (Hlen & Hsf & Hrange & Hr); [lia..|].
    repeat split; try assumption; try lia.
Qed.

End TransportFacts.

(** Reduce the test of a return value of -1 without unfolding the errno
    constants. *)
Ltac failing_call :=
  cbv beta iota zeta; change (-1 =? -1) with true; cbv beta iota.

Lemma tdnbd_write_some_contract E : write_some_contract E.
Proof.
  unfold write_some_contract. repeat apply conj.
  - intros data w e Hl He Hagain. rewrite tdnbd_write_some_step by assumption.
    cbv zeta. unfold sys_send. rewrite He. failing_call.
    replace ((Z.pos e =? EAGAIN) || (Z.pos e =? EWOULDBLOCK)) with true;
      [reflexivity|].
    symmetry. apply orb_true_iff. rewrite !Z.eqb_eq. assumption.
  - intros data w Hl [He|(e & He & Hn1 & Hn2)];
      rewrite tdnbd_write_some_step by assumption;
      cbv zeta; unfold sys_send; rewrite He.
    + simpl. rewrite Z.min_l by lia. simpl. eexists _, _. split; [reflexivity|lia].
    + failing_call. replace ((Z.pos e =? EAGAIN) || (Z.pos e =? EWOULDBLOCK)) with false.
      * eexists _, _. split; [reflexivity|lia].
      * symmetry. apply orb_false_iff. rewrite !Z.eqb_neq. auto.
  - intros data w n Hl He.
    set (rc := Z.min (Z.of_nat (S n)) (len data - so_far data)).
    rewrite tdnbd_write_some_step by assumption.
    cbv zeta. unfold sys_send. rewrite He. fold rc.
    destruct (rc =? -1) eqn:Hm; [lia|].
    destruct (rc =? 0) eqn:Hz; [lia|]. reflexivity.
  - intros data w Hle. unfold tdnbd_write_some.
    pose proof (write_some_loop_result E (Z.to_nat (len data - so_far data))
                  (len data - so_far data) data w eq_refl) as H.
    destruct (write_some_loop E _ _ data w) as [[r d'] w'].
    destruct H as (Hlen & _ & Hsf & Hrange & Hr); [lia..|].
    repeat split; try assumption; lia.
  - intros data w Heq. rewrite tdnbd_write_some_done by lia.
    f_equal. f_equal. lia.
Qed.

Lemma tdnbd_read_some_contract E : read_some_contract E.
Proof.
  unfold read_some_contract. repeat apply conj.
  - intros data w e Hl He Hagain. rewrite tdnbd_read_some_step by assumption.
    cbv zeta. unfold sys_recv. rewrite He. failing_call.
    replace ((Z.pos e =? EAGAIN) || (Z.pos e =? EWOULDBLOCK)) with true;
      [reflexivity|].
    symmetry. apply orb_true_iff. rewrite !Z.eqb_eq. assumption.
  - intros data w Hl [He|(e & He & Hn1 & Hn2)];
      rewrite tdnbd_read_some_step by assumption;
      cbv zeta; unfold sys_recv; rewrite He.
    + simpl. rewrite take_nil. simpl. eexists _, _. split; [reflexivity|lia].
    + failing_call. replace ((Z.pos e =? EAGAIN) || (Z.pos e =? EWOULDBLOCK)) with false.
      * eexists _, _. split; [reflexivity|lia].
      * symmetry. apply orb_false_iff. rewrite !Z.eqb_neq. auto.
  - intros data w b bytes Hl He.
    set (got := take (Z.to_nat (len data - so_far data)) (b :: bytes)).
    set (rc := Z.of_nat (length got)).
    rewrite tdnbd_read_some_step by assumption.
    cbv zeta. unfold sys_recv. rewrite He. fold got. fold rc.
    assert (0 < rc).
    { subst rc got.
      destruct (Z.to_nat (len data - so_far data)) eqn:Hn; [lia|].
      simpl. lia. }
    destruct (rc =? -1) eqn:Hm; [lia|].
    destruct (rc =? 0) eqn:Hz; [lia|]. reflexivity.
  - intros data w Hle. unfold tdnbd_read_some.
    pose proof (read_some_loop_result E (Z.to_nat (len data - so_far data))
                  (len data - so_far data) data w eq_refl) as H.
    destruct (read_some_loop E _ _ data w) as [[r d'] w'].
    destruct H as (Hlen & Hsf & Hrange & Hr); [lia..|].
    repeat split; try assumption; lia.
  - intros data w Heq. rewrite tdnbd_read_some_done by lia.
    f_equal. f_equal. lia.
Qed.

(** C9: [tdnbd_write_some], and [tdnbd_read_some] in the same way, returns
    the positive number of bytes left when the call would block, a
    negative value when the system call returns 0 or fails otherwise,
    moves [so_far] on by exactly the bytes transferred, returns 0 exactly
    when [len] bytes are through, and with [len = so_far] returns 0 and
    makes no system call. *)
Theorem tdnbd_some_contract (E : env) :
  write_some_contract E /\ read_some_contract E.
Proof.
  split; [apply tdnbd_write_some_contract | apply tdnbd_read_some_contract].
Qed.

Lemma tdnbd_some_contract_witness :
  let q := qio_header in
  (tdnbd_write_some env_transport q (world_at 1) = (28, q, did_send (-1) (world_at 1)) /\
   (exists r w', tdnbd_write_some env_transport q (world_at 2) = (r, q, w') /\ r < 0) /\
   (exists r w', tdnbd_write_some env_transport q (world_at 3) = (r, q, w') /\ r < 0) /\
   tdnbd_write_some env_transport q (world_at 0) =
     tdnbd_write_some env_transport (advance 3 q) (did_send 3 (world_at 0)) /\
   (let '(r, d', w') := tdnbd_write_some env_transport q (world_at 0) in
    len d' = len q /\
    so_far d' - so_far q = bytes_out w' - bytes_out (world_at 0) /\
    (r = 0 <-> so_far d' = len q) /\
    (0 < r -> r = len q - so_far d') /\ (r < 0 -> so_far d' < len q)) /\
   tdnbd_write_some env_transport (advance 28 q) (world_at 0) =
     (0, advance 28 q, world_at 0)) /\
  (tdnbd_read_some env_transport q (world_at 1) = (28, q, did_recv (-1) (world_at 1)) /\
   (exists r w', tdnbd_read_some env_transport q (world_at 2) = (r, q, w') /\ r < 0) /\
   (exists r w', tdnbd_read_some env_transport q (world_at 3) = (r, q, w') /\ r < 0) /\
   tdnbd_read_some env_transport q (world_at 0) =
     tdnbd_read_some env_transport (advance 2 (store_at q (cstring "ab")))
       (did_recv 2 (world_at 0)) /\
   (let '(r, d', w') := tdnbd_read_some env_transport q (world_at 0) in
    len d' = len q /\
    so_far d' - so_far q = bytes_in w' - bytes_in (world_at 0) /\
    (r = 0 <-> so_far d' = len q) /\
    (0 < r -> r = len q - so_far d') /\ (r < 0 -> so_far d' < len q)) /\
   tdnbd_read_some env_transport (advance 28 q) (world_at 0) =
     (0, advance 28 q, world_at 0)).
Proof.
  intros q.
  destruct (tdnbd_some_contract env_transport)
    as [(W1 & W2 & W3 & W4 & W5) (R1 & R2 & R3 & R4 & R5)].
  split.
  - split; [apply (W1 q (world_at 1) 11%positive);
              [vm_compute; reflexivity | reflexivity | left; reflexivity]|].
    split; [apply (W2 q (world_at 2)); [vm_compute; reflexivity | left; reflexivity]|].
    split; [apply (W2 q (world_at 3)); [vm_compute; reflexivity|];
            right; exists 32%positive; repeat split; discriminate|].
    split; [apply (W3 q (world_at 0) 2%nat); [vm_compute; reflexivity | reflexivity]|].
    split; [apply (W4 q (world_at 0)); vm_compute; discriminate|].
    apply (W5 (advance 28 q) (world_at 0)); reflexivity.
  - split; [apply (R1 q (world_at 1) 11%positive);
              [vm_compute; reflexivity | reflexivity | left; reflexivity]|].
    split; [apply (R2 q (world_at 2)); [vm_compute; reflexivity | left; reflexivity]|].
    split; [apply (R2 q (world_at 3)); [vm_compute; reflexivity|];
            right; exists 104%positive; repeat split; discriminate|].
    split; [apply (R3 q (world_at 0) "a"%char (cstring "b"));
              [vm_compute; reflexivity | reflexivity]|].
    split; [apply (R4 q (world_at 0)); vm_compute; discriminate|].
    apply (R5 (advance 28 q) (world_at 0)); reflexivity.
Defined.

(** ** Disable *)

Lemma completions_app t1 t2 :
  completions (t1 ++ t2) = completions t1 ++ completions t2.
Proof.
  induction t1 as [|ev t1 IH]; [reflexivity|].
  destruct ev; simpl; rewrite ?IH; reflexivity.
Qed.

Lemma slot_update_slot p pos f i :
  slot (update_slot pos f p) i =
  if decide (i = pos) then
    match requests p !! i with Some r => f r | None => zero_request end
  else slot p i.
Proof.
  unfold slot, update_slot. simpl.
  destruct (decide (i = pos)) as [->|Hne].
  - rewrite list_lookup_alter_eq. destruct (requests p !! pos); reflexivity.
  - rewrite list_lookup_alter_ne by congruence. reflexivity.
Qed.

Lemma treq_slot_set_timeout p pos t i :
  treq (slot (update_slot pos (set_timeout_event t) p) i) = treq (slot p i).
Proof.
  rewrite slot_update_slot. destruct (decide (i = pos)) as [->|]; [|reflexivity].
  unfold slot. destruct (requests p !! pos); reflexivity.
Qed.

Lemma same_connection_refl p : same_connection p p.
Proof. unfold same_connection. repeat split. Qed.

Lemma same_connection_trans p1 p2 p3 :
  same_connection p1 p2 -> same_connection p2 p3 -> same_connection p1 p3.
Proof.
  unfold same_connection.
  intros (?&?&?&?&?&?&?&?&?&Ht1) (?&?&?&?&?&?&?&?&?&Ht2).
  repeat split; first [congruence | intros i; rewrite Ht2; apply Ht1].
Qed.

Lemma cancel_req_effect pos e p w :
  let '(p', w') := __cancel_req pos e p w in
  same_connection p p' /\
  exists calls, trace w' = trace w ++ calls /\
    completions calls = [(treq (slot p pos), e)].
Proof.
  unfold __cancel_req.
  destruct (timeout_event (slot p pos) >=? 0).
  - split.
    + unfold same_connection, update_slot. simpl.
      repeat split; try reflexivity.
      * apply length_alter.
      * intros i. apply treq_slot_set_timeout.
    + eexists [_; _]. simpl. rewrite <- app_assoc. split; [reflexivity|].
      simpl. rewrite treq_slot_set_timeout. reflexivity.
  - split; [apply same_connection_refl|].
    eexists [_]. simpl. split; reflexivity.
Qed.

Lemma cancel_each_effect l e : forall p w,
  let '(p', w') := cancel_each l e p w in
  same_connection p p' /\
  exists calls, trace w' = trace w ++ calls /\
    completions calls = map (fun i => (treq (slot p i), e)) l.
Proof.
  induction l as [|pos rest IH]; intros p w; simpl.
  - split; [apply same_connection_refl|]. exists []. rewrite app_nil_r. auto.
  - pose proof (cancel_req_effect pos e p w) as H1.
    destruct (__cancel_req pos e p w) as [p1 w1].
    destruct H1 as (Hs1 & c1 & Ht1 & Hc1).
    specialize (IH p1 w1).
    destruct (cancel_each rest e p1 w1) as [p2 w2].
    destruct IH as (Hs2 & c2 & Ht2 & Hc2).
    split; [eapply same_connection_trans; eassumption|].
    exists (c1 ++ c2). rewrite Ht2, Ht1, <- app_assoc. split; [reflexivity|].
    rewrite completions_app, Hc1, Hc2. simpl. f_equal.
    apply map_ext. intros i. f_equal.
    destruct Hs1 as (_&_&_&_&_&_&_&_&_&Ht). apply Ht.
Qed.

(** C3: [tdnbd_disable] hands the writer's and the reader's event id to
    the scheduler's unregister call, then completes the request of every
    entry of the sent list and after those of every entry of the pending
    list, once each, with the error it was given; the three lists are as
    they were, and [closed] is 3. *)
Theorem tdnbd_disable_cancels_all (p : tdnbd_data) (e : Z) (w : world) :
  let '(p', w') := tdnbd_disable p e w in
  (exists calls,
     trace w' =
       trace w ++ [EvUnregister (writer_event_id p);
                   EvUnregister (reader_event_id p)] ++ calls /\
     completions calls =
       map (fun i => (treq (slot p i), e)) (sent_reqs p ++ pending_reqs p)) /\
  sent_reqs p' = sent_reqs p /\
  pending_reqs p' = pending_reqs p /\
  free_reqs p' = free_reqs p /\
  nr_free_count p' = nr_free_count p /\
  closed p' = 3.
Proof.
  unfold tdnbd_disable.
  set (w2 := emit _ (emit _ w)).
  pose proof (cancel_each_effect (sent_reqs p) e p w2) as H1.
  destruct (cancel_each (sent_reqs p) e p w2) as [p1 w3].
  destruct H1 as (Hs1 & c1 & Ht1 & Hc1).
  pose proof (cancel_each_effect (pending_reqs p1) e p1 w3) as H2.
  destruct (cancel_each (pending_reqs p1) e p1 w3) as [p2 w4].
  destruct H2 as (Hs2 & c2 & Ht2 & Hc2).
  pose proof (same_connection_trans _ _ _ Hs1 Hs2) as Hs.
  destruct Hs1 as (_ & Hpe1 & _ & _ & _ & _ & _ & _ & _ & Htr1).
  destruct Hs as (Hse & Hpe & Hfr & Hnr & _).
  simpl. split; [|repeat split; assumption].
  exists (c1 ++ c2). split.
  - rewrite Ht2, Ht1. subst w2. simpl. rewrite <- !app_assoc. reflexivity.
  - rewrite completions_app, Hc1, Hc2, map_app, Hpe1. f_equal.
    apply map_ext. intros i. f_equal. apply Htr1.
Qed.

(** ** Enqueue on a dead connection *)

(** C4, as stated, fails: a connection that died with every slot in
    flight answers an enqueue with -EBUSY and completes nothing. *)
Lemma queue_request_dead_without_free_slot :
  match dead_session with
  | None => False
  | Some (p, w) =>
    let tr := mk_treq 2 1 9 in
    let result :=
      tdnbd_queue_request env_peer_closes p TAPDISK_NBD_CMD_READ 1024
        (replicate 512 NUL) 512 tr 0 w in
    closed p = 3 /\ nr_free_count p = 0 /\
    sent_reqs p = [0%nat; 1%nat] /\
    result = Some (- EBUSY, p, w) /\
    result <> Some (- ETIMEDOUT, p, emit (EvComplete tr (- ETIMEDOUT)) w)
  end.
Proof.
  vm_compute. repeat split. discriminate.
Qed.

(** C4, amended: on a connection with [closed = 3] that has a free slot
    ([nr_free_count <> 0]), [tdnbd_queue_request] completes the request
    with -ETIMEDOUT and returns -ETIMEDOUT, and changes nothing else; the
    test for [nr_free_count = 0] comes first and answers -EBUSY without
    completing the request. *)
Theorem queue_request_dead (E : env) (p : tdnbd_data) (type offset : Z)
  (buf : list ascii) (length : Z) (tr : td_request_t) (fk : Z) (w : world) :
  closed p = 3 ->
  (nr_free_count p <> 0 ->
   tdnbd_queue_request E p type offset buf length tr fk w =
     Some (- ETIMEDOUT, p, emit (EvComplete tr (- ETIMEDOUT)) w)) /\
  (nr_free_count p = 0 ->
   tdnbd_queue_request E p type offset buf length tr fk w =
     Some (- EBUSY, p, w)).
Proof.
  intros Hc. unfold tdnbd_queue_request. split; intros Hn.
  - apply Z.eqb_neq in Hn. rewrite Hn, Hc. reflexivity.
  - rewrite Hn. reflexivity.
Qed.

Lemma queue_request_dead_witness :
  let tr := mk_treq 0 1 7 in
  tdnbd_queue_request env_idle dead_connection TAPDISK_NBD_CMD_READ 0
    (replicate 512 NUL) 512 tr 0 world0
  = Some (- ETIMEDOUT, dead_connection, emit (EvComplete tr (- ETIMEDOUT)) world0) /\
  tdnbd_queue_request env_idle dead_full_connection TAPDISK_NBD_CMD_READ 0
    (replicate 512 NUL) 512 tr 0 world0
  = Some (- EBUSY, dead_full_connection, world0).
Proof.
  intros tr. split.
  - apply (queue_request_dead env_idle dead_connection); [reflexivity|].
    simpl. discriminate.
  - apply (queue_request_dead env_idle dead_full_connection); reflexivity.
Defined.

(** ** The three lists *)

Lemma list_del_notin i l : i ∉ l -> list_del i l = l.
Proof.
  unfold list_del. induction l as [|x l IH]; intros Hni; [reflexivity|].
  apply not_elem_of_cons in Hni as [Hne Hni].
  rewrite filter_cons_True by congruence. f_equal. auto.
Qed.

Lemma list_del_head i l : i ∉ l -> list_del i (i :: l) = l.
Proof.
  intros Hni. unfold list_del. rewrite filter_cons_False by tauto.
  apply list_del_notin. assumption.
Qed.

Lemma list_del_perm i l : NoDup l -> i ∈ l -> i :: list_del i l ≡ₚ l.
Proof.
  intros Hnd Hin. apply NoDup_Permutation; [|assumption|].
  - apply NoDup_cons_2.
    + unfold list_del. rewrite list_elem_of_filter. tauto.
    + apply NoDup_filter. assumption.
  - intros x. unfold list_del. rewrite elem_of_cons, list_elem_of_filter.
    destruct (decide (x = i)) as [->|]; tauto.
Qed.

Lemma list_del_all i p :
  list_del i (free_reqs p) ++ list_del i (pending_reqs p) ++
  list_del i (sent_reqs p) = list_del i (all_reqs p).
Proof. unfold all_reqs, list_del. rewrite !filter_app. reflexivity. Qed.

Lemma all_reqs_list_move i to p :
  NoDup (all_reqs p) -> i ∈ all_reqs p ->
  all_reqs (list_move i to p) ≡ₚ all_reqs p.
Proof.
  intros Hnd Hin.
  etransitivity; [|apply (list_del_perm i); assumption].
  rewrite <- list_del_all. destruct to; unfold all_reqs; simpl.
  - reflexivity.
  - rewrite <- Permutation_middle. reflexivity.
  - rewrite app_assoc, <- Permutation_middle, <- app_assoc. reflexivity.
Qed.

Lemma all_reqs_list_move_tail i to p :
  NoDup (all_reqs p) -> i ∈ all_reqs p ->
  all_reqs (list_move_tail i to p) ≡ₚ all_reqs p.
Proof.
  intros Hnd Hin.
  etransitivity; [|apply (list_del_perm i); assumption].
  rewrite <- list_del_all. destruct to; unfold all_reqs; simpl.
  - rewrite <- app_assoc. simpl. rewrite <- Permutation_middle. reflexivity.
  - rewrite <- !app_assoc. simpl.
    rewrite app_assoc, <- Permutation_middle, <- app_assoc. reflexivity.
  - rewrite !app_assoc, <- Permutation_cons_append. reflexivity.
Qed.

Lemma engine_inv_nodup N p : engine_inv N p -> NoDup (all_reqs p).
Proof. intros (_ & Hp & _). rewrite Hp. apply NoDup_seq. Qed.

(** A slot is on one list only. *)
Lemma all_reqs_disjoint p :
  NoDup (all_reqs p) ->
  (NoDup (free_reqs p) /\ NoDup (pending_reqs p) /\ NoDup (sent_reqs p)) /\
  (forall x, x ∈ free_reqs p -> (x ∉ pending_reqs p) /\ (x ∉ sent_reqs p)) /\
  (forall x, x ∈ pending_reqs p -> (x ∉ free_reqs p) /\ (x ∉ sent_reqs p)) /\
  (forall x, x ∈ sent_reqs p -> (x ∉ free_reqs p) /\ (x ∉ pending_reqs p)).
Proof.
  unfold all_reqs. rewrite !NoDup_app.
  intros (Hf & Hfo & Hpe & Hpo & Hs).
  split; [auto|]. repeat split; intros Hc.
  - apply (Hfo x); [assumption|]. apply elem_of_app. auto.
  - apply (Hfo x); [assumption|]. apply elem_of_app. auto.
  - apply (Hfo x); [assumption|]. apply elem_of_app. auto.
  - apply (Hpo x); assumption.
  - apply (Hfo x); [assumption|]. apply elem_of_app. auto.
  - apply (Hpo x); assumption.
Qed.

(** [engine_inv] and [writer_inv] only look at the lists, the counter,
    the reply pointer and the writer id. *)
Lemma engine_inv_frame N p p' :
  free_reqs p' = free_reqs p -> pending_reqs p' = pending_reqs p ->
  sent_reqs p' = sent_reqs p -> nr_free_count p' = nr_free_count p ->
  curr_reply_req p' = curr_reply_req p ->
  engine_inv N p -> engine_inv N p'.
Proof.
  unfold engine_inv, all_reqs. intros -> -> -> -> ->. tauto.
Qed.

Lemma tdnbd_disable_frame p e w :
  let '(p', w') := tdnbd_disable p e w in
  free_reqs p' = free_reqs p /\ pending_reqs p' = pending_reqs p /\
  sent_reqs p' = sent_reqs p /\ nr_free_count p' = nr_free_count p /\
  curr_reply_req p' = curr_reply_req p /\
  writer_event_id p' = writer_event_id p /\ closed p' = 3.
Proof.
  unfold tdnbd_disable.
  set (w2 := emit _ (emit _ w)).
  pose proof (cancel_each_effect (sent_reqs p) e p w2) as H1.
  destruct (cancel_each (sent_reqs p) e p w2) as [p1 w3].
  destruct H1 as (Hs1 & _).
  pose proof (cancel_each_effect (pending_reqs p1) e p1 w3) as H2.
  destruct (cancel_each (pending_reqs p1) e p1 w3) as [p2 w4].
  destruct H2 as (Hs2 & _).
  destruct (same_connection_trans _ _ _ Hs1 Hs2)
    as (?&?&?&?&?&?&?&?&?&?).
  simpl. repeat split; assumption.
Qed.

Lemma engine_inv_disable N p e w :
  engine_inv N p -> engine_inv N (fst (tdnbd_disable p e w)).
Proof.
  intros Hinv. pose proof (tdnbd_disable_frame p e w) as H.
  destruct (tdnbd_disable p e w) as [p' w']. simpl.
  destruct H as (?&?&?&?&?&?&?). eapply engine_inv_frame; eassumption.
Qed.

Lemma writer_inv_disable p e w :
  writer_inv p -> writer_inv (fst (tdnbd_disable p e w)).
Proof.
  unfold writer_inv. pose proof (tdnbd_disable_frame p e w) as H.
  destruct (tdnbd_disable p e w) as [p' w']. simpl.
  destruct H as (_ & -> & _ & _ & _ & -> & _). tauto.
Qed.

(** A pending entry goes to the free list (the DISC case of the writer). *)
Lemma engine_inv_pending_to_free N p pos :
  engine_inv N p -> pos ∈ pending_reqs p ->
  engine_inv N (set_closed 2
                  (set_nr_free_count (nr_free_count p + 1)
                     (list_move pos FreeReqs p))).
Proof.
  intros Hinv Hin. pose proof (engine_inv_nodup _ _ Hinv) as Hnd.
  destruct (all_reqs_disjoint p Hnd) as (_ & _ & Hpe & _).
  destruct (Hpe pos Hin) as [Hnf Hns].
  destruct Hinv as (Hnr & Hperm & Hcur).
  split; [|split].
  - simpl. rewrite list_del_notin by assumption. simpl. lia.
  - change (all_reqs (list_move pos FreeReqs p) ≡ₚ seq 0 N).
    rewrite all_reqs_list_move; [assumption..|].
    unfold all_reqs. rewrite !elem_of_app. auto.
  - simpl. intros r Hr. rewrite list_del_notin by assumption. auto.
Qed.

(** A pending entry goes to the sent list. *)
Lemma engine_inv_pending_to_sent N p pos :
  engine_inv N p -> pos ∈ pending_reqs p ->
  engine_inv N (list_move pos SentReqs p).
Proof.
  intros Hinv Hin. pose proof (engine_inv_nodup _ _ Hinv) as Hnd.
  destruct (all_reqs_disjoint p Hnd) as (_ & _ & Hpe & _).
  destruct (Hpe pos Hin) as [Hnf Hns].
  destruct Hinv as (Hnr & Hperm & Hcur).
  split; [|split].
  - simpl. rewrite list_del_notin by assumption. assumption.
  - rewrite all_reqs_list_move; [assumption..|].
    unfold all_reqs. rewrite !elem_of_app. auto.
  - simpl. intros r Hr. rewrite list_del_notin by assumption.
    apply elem_of_cons. auto.
Qed.

(** The head of the free list goes to the tail of the pending list. *)
Lemma engine_inv_free_to_pending N p req rest :
  engine_inv N p -> free_reqs p = req :: rest ->
  engine_inv N (set_nr_free_count (nr_free_count p - 1)
                  (list_move_tail req PendingReqs p)).
Proof.
  intros Hinv Hfree. pose proof (engine_inv_nodup _ _ Hinv) as Hnd.
  destruct (all_reqs_disjoint p Hnd) as ((Hndf & _) & Hf & _).
  assert (Hin : req ∈ free_reqs p) by (rewrite Hfree; apply elem_of_cons; auto).
  destruct (Hf req Hin) as [Hnp Hns].
  destruct Hinv as (Hnr & Hperm & Hcur).
  rewrite Hfree in Hndf. apply NoDup_cons in Hndf as [Hnr' _].
  split; [|split].
  - simpl. rewrite Hfree, list_del_head by assumption.
    rewrite Hnr, Hfree. simpl. lia.
  - change (all_reqs (list_move_tail req PendingReqs p) ≡ₚ seq 0 N).
    rewrite all_reqs_list_move_tail; [assumption..|].
    unfold all_reqs. rewrite !elem_of_app. auto.
  - simpl. intros r Hr. rewrite list_del_notin by assumption. auto.
Qed.

(** A sent entry goes to the free list and the reply state is reset. *)
Lemma engine_inv_sent_to_free N p r q :
  engine_inv N p -> r ∈ sent_reqs p ->
  engine_inv N
    (set_curr_reply_req None
       (set_cur_reply_qio q
          (set_nr_free_count (nr_free_count p + 1) (list_move r FreeReqs p)))).
Proof.
  intros Hinv Hin. pose proof (engine_inv_nodup _ _ Hinv) as Hnd.
  destruct (all_reqs_disjoint p Hnd) as (_ & _ & _ & Hs).
  destruct (Hs r Hin) as [Hnf Hnp].
  destruct Hinv as (Hnr & Hperm & Hcur).
  split; [|split].
  - simpl. rewrite list_del_notin by assumption. simpl. lia.
  - change (all_reqs (list_move r FreeReqs p) ≡ₚ seq 0 N).
    rewrite all_reqs_list_move; [assumption..|].
    unfold all_reqs. rewrite !elem_of_app. auto.
  - simpl. discriminate.
Qed.

Section EngineInvariants.

Variable E : env.
Variable N : nat.

(** The writer's loop keeps the accounting; the entries it still has to
    visit are what is left on the pending list.  When it returns from
    inside, an entry is still pending; when it runs to the end, the
    pending list is empty. *)
Lemma writer_loop_inv entries : forall p w,
  engine_inv N p -> pending_reqs p = entries ->
  let '(returned, p', w') := writer_loop E entries p w in
  engine_inv N p' /\ writer_event_id p' = writer_event_id p /\
  if returned then pending_reqs p' <> [] /\ entries <> []
  else pending_reqs p' = [].
Proof.
  induction entries as [|pos rest IH]; intros p w Hinv Hpend; simpl.
  - auto.
  - destruct (tdnbd_write_some E (header (slot p pos)) w) as [[rc h] w1].
    set (p1 := update_slot pos (set_header h) p).
    assert (Hinv1 : engine_inv N p1)
      by (eapply engine_inv_frame; [..|exact Hinv]; reflexivity).
    destruct (rc >? 0).
    { repeat split; [apply Hinv1|apply Hinv1|apply Hinv1| |];
        simpl; rewrite ?Hpend; discriminate. }
    set (type := nreq_type (nreq (slot p1 pos))).
    assert (Hbody : exists again p2 w2,
      (if type =? TAPDISK_NBD_CMD_WRITE
       then let '(rc2, b, w2) := tdnbd_write_some E (body (slot p1 pos)) w1 in
            (rc2 >? 0, update_slot pos (set_body b) p1, w2)
       else (false, p1, w1)) = (again, p2, w2) /\
      engine_inv N p2 /\ pending_reqs p2 = pos :: rest /\
      writer_event_id p2 = writer_event_id p).
    { destruct (type =? TAPDISK_NBD_CMD_WRITE).
      - destruct (tdnbd_write_some E (body (slot p1 pos)) w1) as [[rc2 b] w2].
        eexists _, _, _. split; [reflexivity|]. split; [|split].
        + eapply engine_inv_frame; [..|exact Hinv1]; reflexivity.
        + exact Hpend.
        + reflexivity.
      - eexists _, _, _. split; [reflexivity|]. repeat split; try apply Hinv1.
        exact Hpend. }
    destruct Hbody as (again & p2 & w2 & -> & Hinv2 & Hpend2 & Hw2).
    destruct again.
    { repeat split; try apply Hinv2; try assumption;
        rewrite ?Hpend2; discriminate. }
    assert (Hin : pos ∈ pending_reqs p2)
      by (rewrite Hpend2; apply elem_of_cons; auto).
    assert (Hrest : list_del pos (pending_reqs p2) = rest).
    { rewrite Hpend2. apply list_del_head.
      pose proof (engine_inv_nodup _ _ Hinv2) as Hnd.
      destruct (all_reqs_disjoint p2 Hnd) as ((_ & Hndp & _) & _).
      rewrite Hpend2 in Hndp. apply NoDup_cons in Hndp. tauto. }
    match goal with
    | |- context [writer_loop E rest ?p3 w2] =>
      specialize (IH p3 w2); destruct (writer_loop E rest p3 w2) as [[ret p'] w']
    end.
    destruct (type =? TAPDISK_NBD_CMD_DISC).
    + destruct IH as (Hinv' & Hw' & Hret).
      * apply engine_inv_pending_to_free; assumption.
      * simpl. exact Hrest.
      * split; [assumption|]. split; [rewrite Hw'; simpl; assumption|].
        destruct ret; [split; [tauto|discriminate]|assumption].
    + destruct IH as (Hinv' & Hw' & Hret).
      * apply engine_inv_pending_to_sent; assumption.
      * simpl. exact Hrest.
      * split; [assumption|]. split; [rewrite Hw'; simpl; assumption|].
        destruct ret; [split; [tauto|discriminate]|assumption].
Qed.

Lemma tdnbd_writer_cb_inv p w :
  engine_inv N p ->
  engine_inv N (fst (tdnbd_writer_cb E p w)) /\
  (writer_inv p -> writer_inv (fst (tdnbd_writer_cb E p w))).
Proof.
  intros Hinv. unfold tdnbd_writer_cb.
  pose proof (writer_loop_inv (pending_reqs p) p w Hinv eq_refl) as H.
  destruct (writer_loop E (pending_reqs p) p w) as [[returned p1] w1].
  destruct H as (Hinv1 & Hw1 & Hret).
  destruct returned.
  - simpl. split; [assumption|]. unfold writer_inv. rewrite Hw1. tauto.
  - assert (Hq : engine_inv N (fst (disable_write_queue p1 w1)) /\
                 writer_inv (fst (disable_write_queue p1 w1))).
    { unfold disable_write_queue, writer_inv.
      destruct (writer_event_id p1 <? 0) eqn:Hneg; simpl.
      - split; [assumption|]. rewrite Hret. split; [lia|congruence].
      - split; [eapply engine_inv_frame; [..|exact Hinv1]; reflexivity|].
        rewrite Hret. split; [lia|congruence]. }
    destruct (disable_write_queue p1 w1) as [p2 w2]. simpl in Hq.
    destruct Hq as [Hinv2 Hwi2].
    destruct (closed p2 =? 2).
    + split; [apply engine_inv_disable; assumption|].
      intros _. apply writer_inv_disable. assumption.
    + simpl. tauto.
Qed.

Lemma tdnbd_queue_request_inv p type offset buf length tr fk w :
  engine_inv N p ->
  exists rc p' w',
    tdnbd_queue_request E p type offset buf length tr fk w = Some (rc, p', w') /\
    engine_inv N p' /\
    ((forall k, 0 <= env_register E k) -> writer_inv p -> writer_inv p').
Proof.
  intros Hinv. unfold tdnbd_queue_request.
  destruct (nr_free_count p =? 0) eqn:Hnr; [eauto 7|].
  destruct (closed p =? 3); [eauto 7|].
  destruct (free_reqs p) as [|req rest] eqn:Hfree.
  { destruct Hinv as (Hc & _). rewrite Hfree in Hc. simpl in Hc. lia. }
  match goal with
  | |- context [update_slot req ?f p] => set (p1 := update_slot req f p)
  end.
  assert (Hinv1 : engine_inv N p1)
    by (eapply engine_inv_frame; [..|exact Hinv]; reflexivity).
  assert (Hfree1 : free_reqs p1 = req :: rest) by exact Hfree.
  pose proof (engine_inv_free_to_pending N p1 req rest Hinv1 Hfree1) as Hinv3.
  set (p3 := set_nr_free_count (nr_free_count (list_move_tail req PendingReqs p1) - 1)
               (list_move_tail req PendingReqs p1)).
  change (engine_inv N p3) in Hinv3.
  assert (Hpend3 : pending_reqs p3 <> []).
  { simpl. destruct (list_del req (pending_reqs p)); discriminate. }
  destruct (writer_event_id p3 <? 0) eqn:Hneg.
  - unfold enable_write_queue.
    destruct (writer_event_id p3 >=? 0) eqn:Hge; [lia|].
    simpl. eexists _, _, _. split; [reflexivity|]. split.
    + eapply engine_inv_frame; [..|exact Hinv3]; reflexivity.
    + intros Hreg _. unfold writer_inv. simpl. split; [|intros _; apply Hreg].
      intros _. exact Hpend3.
  - eexists _, _, _. split; [reflexivity|]. split; [assumption|].
    intros _ _. unfold writer_inv. split; [intros _; exact Hpend3|]. lia.
Qed.

Lemma find_sent_elem p entries r :
  find_sent p entries = Some r -> r ∈ entries.
Proof.
  induction entries as [|pos rest IH]; simpl; [discriminate|].
  destruct (memcmp _ _ 8 =? 0).
  - intros [= ->]. apply elem_of_cons. auto.
  - intros H. apply elem_of_cons. auto.
Qed.

Lemma reader_remove_state_inv r p w :
  engine_inv N p -> r ∈ sent_reqs p ->
  engine_inv N (fst (reader_remove_state r false p w)) /\
  (writer_inv p -> writer_inv (fst (reader_remove_state r false p w))).
Proof.
  intros Hinv Hin. unfold reader_remove_state. simpl. split.
  - apply (engine_inv_sent_to_free N p r); assumption.
  - unfold writer_inv. simpl.
    pose proof (engine_inv_nodup _ _ Hinv) as Hnd.
    destruct (all_reqs_disjoint p Hnd) as (_ & _ & _ & Hs).
    destruct (Hs r Hin) as [_ Hnp]. rewrite list_del_notin by assumption.
    tauto.
Qed.

Lemma tdnbd_reader_cb_inv p w :
  engine_inv N p ->
  engine_inv N (fst (tdnbd_reader_cb E p w)) /\
  (writer_inv p -> writer_inv (fst (tdnbd_reader_cb E p w))).
Proof.
  intros Hinv. unfold tdnbd_reader_cb.
  destruct (tdnbd_read_some E (cur_reply_qio p) w) as [[rc q] w1].
  set (p1 := set_cur_reply_qio q p).
  assert (Hinv1 : engine_inv N p1)
    by (eapply engine_inv_frame; [..|exact Hinv]; reflexivity).
  assert (Hw1 : writer_inv p -> writer_inv p1) by (unfold writer_inv; simpl; tauto).
  assert (Hdis : forall e w',
    engine_inv N (fst (tdnbd_disable p1 e w')) /\
    (writer_inv p -> writer_inv (fst (tdnbd_disable p1 e w')))).
  { intros e w'. split; [apply engine_inv_disable; assumption|].
    intros Hw. apply writer_inv_disable. auto. }
  destruct (rc <? 0); [apply Hdis|].
  destruct (rc >? 0); [simpl; auto|].
  destruct (negb (current_reply_error p1 =? 0)); [apply Hdis|].
  assert (Hfound : forall r,
    match curr_reply_req p1 with
    | Some r => Some r
    | None => find_sent p1 (sent_reqs p1)
    end = Some r -> r ∈ sent_reqs p1).
  { intros r. destruct (curr_reply_req p1) as [r'|] eqn:Hcur.
    - intros [= <-]. apply Hinv1. assumption.
    - apply find_sent_elem. }
  destruct (match curr_reply_req p1 with
            | Some r => Some r
            | None => find_sent p1 (sent_reqs p1)
            end) as [r|]; [|apply Hdis].
  specialize (Hfound r eq_refl).
  set (p2 := set_curr_reply_req (Some r) p1).
  assert (Hinv2 : engine_inv N p2).
  { destruct Hinv1 as (Hnr & Hperm & _). split; [|split]; try assumption.
    simpl. intros r' [= <-]. exact Hfound. }
  assert (Hw2 : writer_inv p -> writer_inv p2) by (unfold writer_inv; simpl; tauto).
  destruct (nreq_type (nreq (slot p2 r)) =? TAPDISK_NBD_CMD_READ).
  - destruct (tdnbd_read_some E (body (slot p2 r)) w1) as [[rc2 b] w2].
    set (p3 := update_slot r (set_body b) p2).
    assert (Hinv3 : engine_inv N p3)
      by (eapply engine_inv_frame; [..|exact Hinv2]; reflexivity).
    assert (Hw3 : writer_inv p -> writer_inv p3)
      by (unfold writer_inv; simpl; tauto).
    destruct (rc2 <? 0).
    { split; [apply engine_inv_disable; assumption|].
      intros Hw. apply writer_inv_disable. auto. }
    destruct (rc2 >? 0); [simpl; auto|].
    destruct (reader_remove_state_inv r p3
                (emit (EvComplete (treq (slot p3 r)) 0) w2) Hinv3 Hfound).
    auto.
  - destruct (nreq_type (nreq (slot p2 r)) =? TAPDISK_NBD_CMD_WRITE).
    + destruct (reader_remove_state_inv r p2
                  (emit (EvComplete (treq (slot p2 r)) 0) w1) Hinv2 Hfound).
      auto.
    + simpl. auto.
Qed.

(** One operation of the engine keeps the accounting, and never takes
    the head of an empty free list. *)
Lemma engine_step_inv op p w :
  engine_inv N p ->
  exists p' w',
    engine_step E op p w = Some (p', w') /\ engine_inv N p' /\
    ((forall k, 0 <= env_register E k) -> writer_inv p -> writer_inv p').
Proof.
  intros Hinv. destruct op as [type offset buf length tr fk| |]; simpl.
  - destruct (tdnbd_queue_request_inv p type offset buf length tr fk w Hinv)
      as (rc & p' & w' & -> & Hinv' & Hw').
    eauto.
  - destruct (tdnbd_writer_cb_inv p w Hinv) as [Hinv' Hw'].
    destruct (tdnbd_writer_cb E p w) as [p' w']. eauto.
  - destruct (tdnbd_reader_cb_inv p w Hinv) as [Hinv' Hw'].
    destruct (tdnbd_reader_cb E p w) as [p' w']. eauto.
Qed.

Lemma engine_run_inv ops : forall p w,
  engine_inv N p ->
  exists p' w',
    engine_run E ops p w = Some (p', w') /\ engine_inv N p' /\
    ((forall k, 0 <= env_register E k) -> writer_inv p -> writer_inv p').
Proof.
  induction ops as [|op rest IH]; intros p w Hinv; simpl.
  - eauto.
  - destruct (engine_step_inv op p w Hinv) as (p1 & w1 & -> & Hinv1 & Hw1).
    destruct (IH p1 w1 Hinv1) as (p' & w' & Hrun & Hinv' & Hw').
    eauto 8.
Qed.

End EngineInvariants.

(** ** The state after open *)

Lemma open_link_slots_lists n : forall i p,
  free_reqs (open_link_slots n i p) = rev (seq i n) ++ free_reqs p /\
  pending_reqs (open_link_slots n i p) = pending_reqs p /\
  sent_reqs (open_link_slots n i p) = sent_reqs p /\
  curr_reply_req (open_link_slots n i p) = curr_reply_req p /\
  writer_event_id (open_link_slots n i p) = writer_event_id p.
Proof.
  induction n as [|n IH]; intros i p; simpl.
  - auto.
  - destruct (IH (S i)
                (set_lists (sent_reqs p) (pending_reqs p) (i :: free_reqs p)
                   (update_slot i (set_timeout_event (-1)) p)))
      as (Hf & Hp & Hs & Hc & Hw).
    rewrite Hf, Hp, Hs, Hc, Hw. simpl. rewrite <- app_assoc. auto.
Qed.

Lemma open_engine_state_inv N :
  engine_inv N (open_engine_state N) /\ writer_inv (open_engine_state N).
Proof.
  unfold open_engine_state.
  match goal with
  | |- context [open_link_slots N 0 ?p] =>
    destruct (open_link_slots_lists N 0 p) as (Hf & Hp & Hs & Hc & Hw);
    set (p2 := open_link_slots N 0 p) in *
  end.
  simpl in Hf, Hp, Hs, Hc, Hw. rewrite app_nil_r in Hf.
  split.
  - split; [|split]; simpl.
    + rewrite Hf, List.length_rev, length_seq. reflexivity.
    + unfold all_reqs. simpl. rewrite Hf, Hp, Hs, app_nil_r.
      symmetry. apply Permutation_rev.
    + rewrite Hc. discriminate.
  - unfold writer_inv. simpl. rewrite Hw, Hp. split; [lia|congruence].
Qed.

Lemma tdnbd_open_inv E fuel N sock fl drv0 w0 p0 drv w1 :
  tdnbd_open E fuel N sock fl drv0 w0 = Some (0, p0, drv, w1) ->
  engine_inv N p0 /\ writer_inv p0 /\ closed p0 = 0.
Proof.
  unfold tdnbd_open.
  destruct (tdnbd_nbd_negotiate E fuel _ _ w0) as [[[rc drv1] w']|];
    [|discriminate].
  destruct (negb (rc =? 0)); [discriminate|].
  simpl. intros [= <- <- <-].
  destruct (open_engine_state_inv N) as [Hinv Hw].
  split; [|split; [|reflexivity]].
  - eapply engine_inv_frame; [..|exact Hinv]; reflexivity.
  - unfold writer_inv in *. simpl. exact Hw.
Qed.

(** C2: in every state that a sequence of engine operations reaches from
    a successful open of a connection with [N] request slots, the
    operations all being defined, [nr_free_count] is the length of the
    free list, the counter and the lengths of the pending and sent lists
    add up to [N], and every slot is on exactly one of the three lists,
    once. *)
Theorem engine_lists_accounting (E : env) (fuel N : nat) (sock fl : Z)
  (drv0 drv : td_disk_info) (w0 w1 : world) (p0 : tdnbd_data)
  (ops : list engine_op) :
  tdnbd_open E fuel N sock fl drv0 w0 = Some (0, p0, drv, w1) ->
  exists p w,
    engine_run E ops p0 w1 = Some (p, w) /\
    nr_free_count p = Z.of_nat (length (free_reqs p)) /\
    nr_free_count p + Z.of_nat (length (pending_reqs p))
      + Z.of_nat (length (sent_reqs p)) = Z.of_nat N /\
    free_reqs p ++ pending_reqs p ++ sent_reqs p ≡ₚ seq 0 N /\
    forall i, (i < N)%nat ->
      (i ∈ free_reqs p /\ (i ∉ pending_reqs p) /\ (i ∉ sent_reqs p)) \/
      ((i ∉ free_reqs p) /\ i ∈ pending_reqs p /\ (i ∉ sent_reqs p)) \/
      ((i ∉ free_reqs p) /\ (i ∉ pending_reqs p) /\ i ∈ sent_reqs p).
Proof.
  intros Hopen. apply tdnbd_open_inv in Hopen as (Hinv0 & _ & _).
  destruct (engine_run_inv E N ops p0 w1 Hinv0) as (p & w & Hrun & Hinv & _).
  exists p, w. split; [assumption|].
  pose proof (engine_inv_nodup _ _ Hinv) as Hnd.
  destruct Hinv as (Hnr & Hperm & _).
  split; [assumption|]. split; [|split; [exact Hperm|]].
  - apply Permutation_length in Hperm. unfold all_reqs in Hperm.
    rewrite !length_app, length_seq in Hperm. lia.
  - intros i Hi.
    assert (Hin : i ∈ all_reqs p) by (rewrite Hperm; apply elem_of_seq; lia).
    destruct (all_reqs_disjoint p Hnd) as (_ & Hf & Hp & Hs).
    unfold all_reqs in Hin. rewrite !elem_of_app in Hin.
    destruct Hin as [Hin|[Hin|Hin]].
    + left. split; [assumption|]. apply Hf. assumption.
    + right. left. destruct (Hp i Hin). auto.
    + right. right. destruct (Hs i Hin). auto.
Qed.

(** C7, as stated, fails: a scheduler that refuses the registration of
    the writer answers with a negative id, which [enable_write_queue]
    stores; [tdnbd_queue_request] has queued the request by then and does
    not look at the answer.  The request is pending and no writer event
    is registered. *)
Lemma writer_registration_refused :
  let E := env_register_fails in
  tdnbd_open E 124 2 3 0 (mk_info 0 0 0) world0 =
    Some (0, fst (opened E 2), mk_info 16777216 512 0, snd (opened E 2)) /\
  match engine_run E
          [QueueRequest TAPDISK_NBD_CMD_READ 0 (replicate 512 NUL) 512
             (mk_treq 0 1 7) 0]
          (fst (opened E 2)) (snd (opened E 2)) with
  | None => False
  | Some (p, w) =>
    pending_reqs p = [1%nat] /\ writer_event_id p = -12 /\
    ~ (0 <= writer_event_id p <-> pending_reqs p <> [])
  end.
Proof.
  split; [vm_compute; reflexivity|].
  vm_compute. split; [reflexivity|]. split; [reflexivity|].
  intros [_ H]. apply H; [discriminate|reflexivity].
Qed.

(** C7, amended: provided the scheduler answers a registration with a
    non-negative id, after every operation of a sequence run from a
    successful open the writer's event id is non-negative exactly when
    the pending list is not empty. *)
Theorem writer_registered_iff_pending (E : env) (fuel N : nat) (sock fl : Z)
  (drv0 drv : td_disk_info) (w0 w1 : world) (p0 : tdnbd_data)
  (ops : list engine_op) :
  (forall k, 0 <= env_register E k) ->
  tdnbd_open E fuel N sock fl drv0 w0 = Some (0, p0, drv, w1) ->
  exists p w,
    engine_run E ops p0 w1 = Some (p, w) /\
    (0 <= writer_event_id p <-> pending_reqs p <> []).
Proof.
  intros Hreg Hopen. apply tdnbd_open_inv in Hopen as (Hinv0 & Hw0 & _).
  destruct (engine_run_inv E N ops p0 w1 Hinv0) as (p & w & Hrun & _ & Hw).
  exists p, w. split; [assumption|]. apply Hw; assumption.
Qed.

(** ** A session with a server *)

Lemma engine_lists_accounting_witness :
  let p0 := fst (opened env_two_replies 2) in
  let w1 := snd (opened env_two_replies 2) in
  exists p w,
    engine_run env_two_replies session_ops p0 w1 = Some (p, w) /\
    nr_free_count p = Z.of_nat (length (free_reqs p)) /\
    nr_free_count p + Z.of_nat (length (pending_reqs p))
      + Z.of_nat (length (sent_reqs p)) = Z.of_nat 2 /\
    free_reqs p ++ pending_reqs p ++ sent_reqs p ≡ₚ seq 0 2 /\
    forall i, (i < 2)%nat ->
      (i ∈ free_reqs p /\ (i ∉ pending_reqs p) /\ (i ∉ sent_reqs p)) \/
      ((i ∉ free_reqs p) /\ i ∈ pending_reqs p /\ (i ∉ sent_reqs p)) \/
      ((i ∉ free_reqs p) /\ (i ∉ pending_reqs p) /\ i ∈ sent_reqs p).
Proof.
  intros p0 w1.
  apply (engine_lists_accounting env_two_replies 124 2 3 0 (mk_info 0 0 0)
           (mk_info 16777216 512 0) world0 w1 p0 session_ops).
  vm_compute. reflexivity.
Defined.

Lemma writer_registered_iff_pending_witness :
  let p0 := fst (opened env_two_replies 2) in
  let w1 := snd (opened env_two_replies 2) in
  exists p w,
    engine_run env_two_replies session_ops p0 w1 = Some (p, w) /\
    (0 <= writer_event_id p <-> pending_reqs p <> []).
Proof.
  intros p0 w1.
  apply (writer_registered_iff_pending env_two_replies 124 2 3 0 (mk_info 0 0 0)
           (mk_info 16777216 512 0) world0 w1 p0 session_ops).
  - intros k. unfold env_two_replies, env_session. cbn [env_register]. lia.
  - vm_compute. reflexivity.
Defined.

(** ** A reply to a request that is neither a read nor a write *)


(** ** The handle *)

Lemma hex_digits_step fuel v acc :
  hex_digits (S fuel) v acc =
  if v / 16 =? 0 then hex_digit (v mod 16) :: acc
  else hex_digits fuel (v / 16) (hex_digit (v mod 16) :: acc).
Proof. reflexivity. Qed.

Lemma fmt_05x_hex5 v : 0 <= v < 2 ^ 20 -> fmt_05x v = hex5 v.
Proof.
  intros Hv. unfold fmt_05x, hex5, to_uint32.
  rewrite Z.mod_small by lia.
  replace (v / 16 ^ 2) with (v / 16 / 16) by (rewrite Z.div_div by lia; reflexivity).
  replace (v / 16 ^ 3) with (v / 16 / 16 / 16)
    by (rewrite !Z.div_div by lia; reflexivity).
  replace (v / 16 ^ 4) with (v / 16 / 16 / 16 / 16)
    by (rewrite !Z.div_div by lia; reflexivity).
  assert (H5 : v / 16 / 16 / 16 / 16 / 16 = 0).
  { rewrite !Z.div_div by lia. apply Z.div_small. lia. }
  remember (v / 16) as v1 eqn:E1.
  remember (v1 / 16) as v2 eqn:E2.
  remember (v2 / 16) as v3 eqn:E3.
  remember (v3 / 16) as v4 eqn:E4.
  rewrite !hex_digits_step, <- E1, <- E2, <- E3, <- E4, H5.
  change (0 =? 0) with true. cbv iota.
  destruct (v1 =? 0) eqn:T1; [apply Z.eqb_eq in T1; subst v1|].
  { rewrite T1 in *. change (0 / 16) with 0 in *. subst. reflexivity. }
  destruct (v2 =? 0) eqn:T2; [apply Z.eqb_eq in T2; subst v2|].
  { rewrite T2 in *. change (0 / 16) with 0 in *. subst. reflexivity. }
  destruct (v3 =? 0) eqn:T3; [apply Z.eqb_eq in T3; subst v3|].
  { rewrite T3 in *. change (0 / 16) with 0 in *. subst. reflexivity. }
  destruct (v4 =? 0) eqn:T4; [apply Z.eqb_eq in T4; subst v4|].
  { rewrite T4 in *. reflexivity. }
  reflexivity.
Qed.

Lemma snprintf_handle_hex5 v :
  0 <= v < 2 ^ 20 -> snprintf_handle v = cstring "td" ++ hex5 v ++ [NUL].
Proof.
  intros Hv. unfold snprintf_handle. rewrite fmt_05x_hex5 by assumption.
  reflexivity.
Qed.

(** C5, as stated, fails: the counter is reduced modulo 65535, not modulo
    2^20.  At the counter value 65535 the handle is "td00000" again, where
    five digits of the value modulo 2^20 would read "td0ffff". *)
Lemma handle_repeats_at_65535 :
  let E := env_one_reply in
  let w := set_global_id 65535 (snd (opened E 2)) in
  match tdnbd_queue_request E (fst (opened E 2)) TAPDISK_NBD_CMD_READ 0
          (replicate 512 NUL) 512 (mk_treq 0 1 7) 0 w with
  | None => False
  | Some (rc, p, w') =>
    rc = 0 /\ pending_reqs p = [1%nat] /\
    nreq_handle (nreq (slot p 1)) = cstring "td00000" ++ [NUL] /\
    cstring "td" ++ hex5 (65535 mod 2 ^ 20) ++ [NUL] = cstring "td0ffff" ++ [NUL] /\
    nreq_handle (nreq (slot p 1)) <> cstring "td" ++ hex5 (65535 mod 2 ^ 20) ++ [NUL] /\
    global_id w' = 65536
  end.
Proof.
  vm_compute. repeat split. discriminate.
Qed.

(** C5, amended: a call of [tdnbd_queue_request] that fills a slot (a
    slot is free and the connection is not dead) writes into it the
    8-byte handle made of "td", the five hexadecimal digits of the
    counter's value modulo 65535 (0xffff) and the terminating NUL, and
    increments the counter by one. *)
Theorem queue_request_handle (E : env) (p : tdnbd_data) (type offset : Z)
  (buf : list ascii) (length : Z) (tr : td_request_t) (fk : Z) (w : world)
  (req : nat) (rest : list nat) :
  nr_free_count p <> 0 -> closed p <> 3 ->
  free_reqs p = req :: rest -> (req < List.length (requests p))%nat ->
  0 <= global_id w < 2 ^ 31 - 1 ->
  exists p' w',
    tdnbd_queue_request E p type offset buf length tr fk w = Some (0, p', w') /\
    nreq_handle (nreq (slot p' req)) =
      cstring "td" ++ hex5 (global_id w mod 65535) ++ [NUL] /\
    List.length (nreq_handle (nreq (slot p' req))) = 8%nat /\
    global_id w' = global_id w + 1.
Proof.
  intros Hnr Hcl Hfree Hreq Hid. unfold tdnbd_queue_request.
  apply Z.eqb_neq in Hnr, Hcl. rewrite Hnr, Hcl, Hfree. cbv zeta.
  rewrite Z.rem_mod_nonneg by lia.
  assert (Hv : 0 <= global_id w mod 65535 < 2 ^ 20).
  { pose proof (Z.mod_pos_bound (global_id w) 65535). lia. }
  rewrite snprintf_handle_hex5 by exact Hv.
  assert (Hinc : to_int (global_id w + 1) = global_id w + 1).
  { unfold to_int. rewrite Z.mod_small by lia. lia. }
  rewrite Hinc.
  match goal with
  | |- context [update_slot req (fun _ => ?r) p] =>
    set (r0 := r); set (p1 := update_slot req (fun _ => r0) p)
  end.
  assert (Hslot : slot p1 req = r0).
  { unfold p1. rewrite slot_update_slot. rewrite decide_True by reflexivity.
    destruct (requests p !! req) eqn:Hl; [reflexivity|].
    apply lookup_ge_None in Hl. lia. }
  match goal with
  | |- context [enable_write_queue E ?p3 ?w1] =>
    set (pp := p3); set (ww := w1);
    assert (Hs3 : slot pp req = r0) by exact Hslot;
    assert (Hg : global_id ww = global_id w + 1) by reflexivity;
    destruct (writer_event_id pp <? 0)
  end.
  - unfold enable_write_queue.
    destruct (writer_event_id pp >=? 0).
    + eexists _, _. split; [reflexivity|]. rewrite Hs3. auto.
    + eexists _, _. split; [reflexivity|].
      change (slot (set_writer_event_id _ pp) req) with (slot pp req).
      rewrite Hs3. auto.
  - eexists _, _. split; [reflexivity|]. rewrite Hs3. auto.
Qed.

Lemma queue_request_handle_witness :
  let E := env_one_reply in
  let w := set_global_id 70000 (snd (opened E 2)) in
  exists p' w',
    tdnbd_queue_request E (fst (opened E 2)) TAPDISK_NBD_CMD_READ 0
      (replicate 512 NUL) 512 (mk_treq 0 1 7) 0 w = Some (0, p', w') /\
    nreq_handle (nreq (slot p' 1)) =
      cstring "td" ++ hex5 (global_id w mod 65535) ++ [NUL] /\
    List.length (nreq_handle (nreq (slot p' 1))) = 8%nat /\
    global_id w' = global_id w + 1.
Proof.
  intros E w.
  apply (queue_request_handle E (fst (opened E 2)) TAPDISK_NBD_CMD_READ 0
           (replicate 512 NUL) 512 (mk_treq 0 1 7) 0 w 1%nat [0%nat]).
  - vm_compute. discriminate.
  - vm_compute. discriminate.
  - vm_compute. reflexivity.
  - vm_compute. lia.
  - vm_compute. split; [discriminate|reflexivity].
Defined.

(** ** Handshake *)

Lemma length_encode_be n v : length (encode_be n v) = n.
Proof.
  revert v. induction n as [|n IH]; intros v; simpl; [reflexivity|].
  rewrite length_app, IH. simpl. lia.
Qed.

Lemma decode_be_snoc bs b : decode_be (bs ++ [b]) = decode_be bs * 256 + code b.
Proof. unfold decode_be. rewrite List.fold_left_app. reflexivity. Qed.

Lemma decode_encode_be n : forall v,
  decode_be (encode_be n v) = v mod 256 ^ Z.of_nat n.
Proof.
  induction n as [|n IH]; intros v.
  - simpl. rewrite Z.mod_1_r. reflexivity.
  - cbn [encode_be]. rewrite decode_be_snoc, IH.
    unfold code. rewrite nat_ascii_embedding.
    + rewrite Z2Nat.id by (apply Z.mod_pos_bound; lia).
      rewrite Nat2Z.inj_succ, Z.pow_succ_r by lia.
      rewrite (Z.rem_mul_r v 256 (256 ^ Z.of_nat n))
        by first [lia | apply Z.pow_pos_nonneg; lia].
      ring.
    + pose proof (Z.mod_pos_bound v 256). lia.
Qed.

Section HandshakeFacts.

Variable E : env.

(** A successful [tdnbd_wait_recv] hands over what [recv] delivered. *)
Lemma tdnbd_wait_recv_data length w rc got w1 bytes :
  tdnbd_wait_recv E length w = (rc, got, w1) -> 0 <= rc ->
  env_recv E (n_recv w) = RecvData bytes ->
  got = take (Z.to_nat length) bytes /\ rc = Z.of_nat (List.length got) /\
  n_recv w1 = S (n_recv w).
Proof.
  unfold tdnbd_wait_recv, sys_recv.
  destruct (env_select E (n_select w)); simpl.
  - intros [= <- <- <-]. lia.
  - intros [= <- <- <-]. unfold ETIMEDOUT. lia.
  - intros H Hrc Hb. rewrite Hb in H. simpl in H.
    destruct (Z.of_nat _ <? 0) eqn:Hneg; [apply Z.ltb_lt in Hneg; lia|].
    injection H as <- <- <-. auto.
Qed.

(** A failing [tdnbd_wait_recv] returns a negative number. *)
Lemma tdnbd_wait_recv_rc length w :
  0 < length ->
  let '(rc, got, w1) := tdnbd_wait_recv E length w in
  (n_recv w <= n_recv w1 <= S (n_recv w))%nat /\
  (rc < 0 \/
   (rc = Z.of_nat (List.length got) /\ rc <= length /\
    n_recv w1 = S (n_recv w) /\
    exists bytes, env_recv E (n_recv w) = RecvData bytes /\
                  got = take (Z.to_nat length) bytes)).
Proof.
  intros Hl. unfold tdnbd_wait_recv, sys_recv.
  destruct (env_select E (n_select w)); simpl.
  - split; [lia|]. left. lia.
  - split; [lia|]. left. unfold ETIMEDOUT. lia.
  - destruct (env_recv E (n_recv w)) as [e|bytes] eqn:Hr; simpl.
    + split; [lia|]. left. lia.
    + destruct (Z.of_nat _ <? 0) eqn:Hneg; [apply Z.ltb_lt in Hneg; lia|]. simpl.
      split; [lia|]. right. rewrite length_take. repeat split; try lia.
      exists bytes. auto.
Qed.

Lemma errout_not_ok {A} sock (a a' : A) w w' : errout sock a w <> (0, a', w').
Proof. unfold errout. intros [=]. Qed.

Lemma negotiate_old_size fuel p drv w S rest drv' w' :
  0 <= S < 2 ^ 64 ->
  env_recv E (n_recv w) = RecvData (encode_be 8 S ++ rest) ->
  tdnbd_nbd_negotiate_old E fuel p drv w = Some (0, drv', w') ->
  info_size drv' = Z.shiftr S 9 /\ info_sector_size drv' = 512.
Proof.
  intros HS Hrecv. unfold tdnbd_nbd_negotiate_old.
  destruct (tdnbd_wait_recv E 8 w) as [[rc size] w1] eqn:Hwr.
  destruct (rc <? 0) eqn:Hneg; [intros [= H]; discriminate|].
  destruct (to_size_t rc <? 8); [intros [= H]; discriminate|].
  apply Z.ltb_ge in Hneg.
  destruct (tdnbd_wait_recv_data 8 w rc size w1 _ Hwr Hneg Hrecv) as (Hsize & _).
  change (Z.to_nat 8) with 8%nat in Hsize.
  rewrite take_app_length' in Hsize by (rewrite length_encode_be; reflexivity).
  assert (Hdec : decode_be (local_after_recv E 8 size) = S).
  { unfold local_after_recv. subst size.
    rewrite take_app_length' by (rewrite length_encode_be; reflexivity).
    rewrite decode_encode_be. apply Z.mod_small. simpl. lia. }
  rewrite Hdec.
  destruct (tdnbd_wait_recv E 4 w1) as [[rc2 fl] w2].
  destruct (rc2 <? 0); [intros [= H]; discriminate|].
  destruct (to_size_t rc2 <? 4); [intros [= H]; discriminate|].
  destruct (drain_pad E fuel 124 w2) as [[[|] w3]|];
    [|intros [= H]; discriminate|discriminate].
  destruct (sys_fcntl E w3) as [rc3 w4].
  destruct (negb (rc3 =? 0)); [intros [= H]; discriminate|].
  intros [= <- <-]. split; reflexivity.
Qed.

Lemma negotiate_newstyle_size sock drv w S rest drv' w' :
  0 <= S < 2 ^ 64 ->
  env_recv E (n_recv w) = RecvData (encode_be 8 S ++ rest) ->
  negotiate_client_newstyle_options E sock drv w = (0, drv', w') ->
  info_size drv' = Z.shiftr S 9 /\ info_sector_size drv' = 512.
Proof.
  intros HS Hrecv. unfold negotiate_client_newstyle_options.
  unfold send_fully_or_fail.
  destruct (env_send_fully E (n_send_fully w) <? 0);
    [intros H; apply errout_not_ok in H; contradiction|].
  destruct (env_send_fully E _ <? 0);
    [intros H; apply errout_not_ok in H; contradiction|].
  match goal with
  | |- context [tdnbd_wait_recv E 10 ?w2] =>
    destruct (tdnbd_wait_recv E 10 w2) as [[rc got] w3] eqn:Hwr
  end.
  destruct (rc <? 0) eqn:Hneg;
    [intros H; apply errout_not_ok in H; contradiction|].
  apply Z.ltb_ge in Hneg.
  destruct (tdnbd_wait_recv_data 10 _ rc got w3 _ Hwr Hneg Hrecv) as (Hgot & _).
  change (Z.to_nat 10) with 10%nat in Hgot.
  assert (Hdec : decode_be (take 8 (local_after_recv E 10 got)) = S).
  { unfold local_after_recv. rewrite take_take. change (8 `min` 10)%nat with 8%nat.
    subst got. rewrite (take_app_add' _ _ 8 2) by (rewrite length_encode_be; reflexivity).
    rewrite <- app_assoc.
    rewrite take_app_length' by (rewrite length_encode_be; reflexivity).
    rewrite decode_encode_be. apply Z.mod_small. simpl. lia. }
  rewrite Hdec.
  destruct (sys_fcntl E w3) as [rc3 w4].
  destruct (negb (rc3 =? 0));
    [intros H; apply errout_not_ok in H; contradiction|].
  intros [= <- <-]. split; reflexivity.
Qed.

Lemma drain_pad_step fuel padbytes w :
  0 < padbytes ->
  drain_pad E (S fuel) padbytes w =
  let '(rc, _, w1) := tdnbd_wait_recv E padbytes w in
  if rc <? 0 then Some (false, w1) else drain_pad E fuel (padbytes - rc) w1.
Proof.
  intros Hp. simpl. destruct (padbytes >? 0) eqn:Hgt; [reflexivity|lia].
Qed.

Lemma drain_pad_peer_closed fuel : forall padbytes w,
  0 < padbytes ->
  (forall k, env_select E k = SelectReady) ->
  (forall k, (n_recv w <= k)%nat -> env_recv E k = RecvData []) ->
  drain_pad E fuel padbytes w = None.
Proof.
  induction fuel as [|fuel IH]; intros padbytes w Hp Hsel Hrecv.
  - simpl. destruct (padbytes >? 0) eqn:Hgt; [reflexivity|lia].
  - rewrite drain_pad_step by assumption.
    unfold tdnbd_wait_recv, sys_recv. rewrite Hsel.
    change (n_recv (did_select w)) with (n_recv w).
    rewrite (Hrecv (n_recv w)) by lia. rewrite take_nil. simpl.
    rewrite Z.sub_0_r. apply IH; try assumption.
    intros k Hk. apply Hrecv. simpl in Hk. lia.
Qed.

Lemma drain_pad_ends fuel : forall padbytes w,
  (forall k, (n_recv w <= k)%nat -> env_recv E k <> RecvData []) ->
  padbytes <= Z.of_nat fuel ->
  exists r, drain_pad E fuel padbytes w = Some r.
Proof.
  induction fuel as [|fuel IH]; intros padbytes w Hrecv Hfuel.
  - simpl. destruct (padbytes >? 0) eqn:Hgt; [lia|eauto].
  - destruct (Z_lt_le_dec 0 padbytes) as [Hp|Hp].
    + rewrite drain_pad_step by assumption.
      pose proof (tdnbd_wait_recv_rc padbytes w Hp) as Hw.
      destruct (tdnbd_wait_recv E padbytes w) as [[rc got] w1].
      destruct Hw as (Hn & [Hneg|(Hrc & Hle & Hn1 & bytes & Hb & Hgot)]).
      * destruct (rc <? 0) eqn:Ht; [eauto|lia].
      * destruct (rc <? 0); [eauto|].
        apply IH.
        -- intros k Hk. apply Hrecv. lia.
        -- assert (0 < rc); [|lia].
           destruct bytes as [|b bytes];
             [exfalso; apply (Hrecv (n_recv w)); [lia|assumption]|].
           subst got rc. destruct (Z.to_nat padbytes) eqn:Hz; [lia|].
           simpl. lia.
    + simpl. destruct (padbytes >? 0) eqn:Hgt; [lia|eauto].
Qed.

End HandshakeFacts.

(** When the receive that carries the export size delivers the eight
    big-endian bytes of [S], the OLD-style negotiation and the option
    exchange of the NEW style, if they succeed, leave [S >> 9] as the
    size in sectors and 512 as the sector size; an OLD-style server that
    announces 0x200000000 bytes gives 16777216 sectors. *)
Theorem negotiate_sets_size :
  (forall E fuel p drv w S rest drv' w',
     0 <= S < 2 ^ 64 ->
     env_recv E (n_recv w) = RecvData (encode_be 8 S ++ rest) ->
     tdnbd_nbd_negotiate_old E fuel p drv w = Some (0, drv', w') ->
     info_size drv' = Z.shiftr S 9 /\ info_sector_size drv' = 512) /\
  (forall E sock drv w S rest drv' w',
     0 <= S < 2 ^ 64 ->
     env_recv E (n_recv w) = RecvData (encode_be 8 S ++ rest) ->
     negotiate_client_newstyle_options E sock drv w = (0, drv', w') ->
     info_size drv' = Z.shiftr S 9 /\ info_sector_size drv' = 512) /\
  (forall p drv,
     exists w',
       tdnbd_nbd_negotiate (env_session (old_greeting 0x200000000) []) 124
         p drv world0 = Some (0, mk_info 16777216 512 0, w')).
Proof.
  split; [|split].
  - intros E. apply negotiate_old_size.
  - intros E. apply negotiate_newstyle_size.
  - intros p drv. eexists. vm_compute. reflexivity.
Qed.

(** C10: the loop that drains the pad bytes takes off its count what
    [tdnbd_wait_recv] returns and nothing else; a return of 0 leaves the
    count as it is and the loop goes round again, so with a peer that has
    closed the connection it never ends; when no receive of the drain
    returns 0 it ends within as many rounds as there are bytes to drain. *)
Theorem pad_drain_rounds (E : env) :
  (forall fuel padbytes w,
     0 < padbytes ->
     drain_pad E (S fuel) padbytes w =
     let '(rc, _, w1) := tdnbd_wait_recv E padbytes w in
     if rc <? 0 then Some (false, w1)
     else drain_pad E fuel (padbytes - rc) w1) /\
  (forall fuel padbytes w got w1,
     0 < padbytes ->
     tdnbd_wait_recv E padbytes w = (0, got, w1) ->
     drain_pad E (S fuel) padbytes w = drain_pad E fuel padbytes w1) /\
  (forall padbytes w,
     0 < padbytes ->
     (forall k, env_select E k = SelectReady) ->
     (forall k, (n_recv w <= k)%nat -> env_recv E k = RecvData []) ->
     forall fuel, drain_pad E fuel padbytes w = None) /\
  (forall padbytes w,
     (forall k, (n_recv w <= k)%nat -> env_recv E k <> RecvData []) ->
     forall fuel, padbytes <= Z.of_nat fuel ->
     exists r, drain_pad E fuel padbytes w = Some r).
Proof.
  split; [|split; [|split]].
  - apply drain_pad_step.
  - intros fuel padbytes w got w1 Hp Hw. rewrite drain_pad_step by assumption.
    rewrite Hw. change (0 <? 0) with false. cbv iota. rewrite Z.sub_0_r.
    reflexivity.
  - intros padbytes w Hp Hsel Hrecv fuel. apply drain_pad_peer_closed; assumption.
  - intros padbytes w Hrecv fuel Hfuel. apply drain_pad_ends; assumption.
Qed.

Lemma negotiate_sets_size_witness :
  let Eo := env_session (old_greeting 0x200000000) [] in
  let En := env_session (new_greeting 0x40000000) [] in
  let p := open_engine_state 2 in
  let ro := tdnbd_nbd_negotiate_old Eo 124 p (mk_info 0 512 0) (world_recvd 2) in
  let rn := negotiate_client_newstyle_options En 3 (mk_info 0 512 0) (world_recvd 3) in
  (info_size (info_of ro) = Z.shiftr 0x200000000 9 /\
   info_sector_size (info_of ro) = 512) /\
  (info_size (snd (fst rn)) = Z.shiftr 0x40000000 9 /\
   info_sector_size (snd (fst rn)) = 512).
Proof.
  intros Eo En p ro rn.
  destruct negotiate_sets_size as (Hold & Hnew & _).
  split.
  - apply (Hold Eo 124%nat p (mk_info 0 512 0) (world_recvd 2) 0x200000000 []
             (info_of ro) (world_of ro)).
    + lia.
    + vm_compute. reflexivity.
    + vm_compute. reflexivity.
  - apply (Hnew En 3 (mk_info 0 512 0) (world_recvd 3) 0x40000000
             (encode_be 2 1) (snd (fst rn)) (snd rn)).
    + lia.
    + vm_compute. reflexivity.
    + vm_compute. reflexivity.
Defined.

Lemma pad_drain_rounds_witness :
  let Eo := env_session (old_greeting 0x200000000) [] in
  (drain_pad Eo 1 124 (world_recvd 4) =
   let '(rc, _, w1) := tdnbd_wait_recv Eo 124 (world_recvd 4) in
   if rc <? 0 then Some (false, w1) else drain_pad Eo 0 (124 - rc) w1) /\
  drain_pad env_peer_gone 1 124 (world_recvd 4) =
    drain_pad env_peer_gone 0 124 (world_recvd 5) /\
  (forall fuel, drain_pad env_peer_gone fuel 124 (world_recvd 4) = None) /\
  (exists r, drain_pad Eo 124 124 (world_recvd 4) = Some r).
Proof.
  intros Eo.
  destruct (pad_drain_rounds Eo) as (Hstep & _ & _ & Hends).
  destruct (pad_drain_rounds env_peer_gone) as (_ & Hzero & Hnever & _).
  split; [|split; [|split]].
  - apply (Hstep 0%nat 124 (world_recvd 4)). lia.
  - apply (Hzero 0%nat 124 (world_recvd 4) []); [lia|reflexivity].
  - apply (Hnever 124 (world_recvd 4)).
    + lia.
    + intros k. reflexivity.
    + intros k Hk. do 4 (destruct k as [|k]; [simpl in Hk; lia|]).
      unfold env_peer_gone, script. cbn [env_recv].
      destruct k; reflexivity.
  - apply (Hends 124 (world_recvd 4)).
    + intros k Hk. do 4 (destruct k as [|k]; [simpl in Hk; lia|]).
      destruct k as [|k]; [discriminate|].
      unfold Eo, env_session, script. cbn [env_recv].
      destruct k; discriminate.
    + lia.
Defined.

(** With the peer gone after the flags, the OLD-style negotiation is
    still in the drain loop after any number of rounds. *)
Lemma negotiate_old_peer_gone_never_returns fuel p drv :
  tdnbd_nbd_negotiate env_peer_gone fuel p drv world0 = None.
Proof.
  unfold tdnbd_nbd_negotiate, tdnbd_nbd_negotiate_old.
  cbv -[drain_pad].
  match goal with
  | |- context [drain_pad ?e fuel ?n ?w] =>
    rewrite (drain_pad_peer_closed e fuel n w)
  end.
  - reflexivity.
  - reflexivity.
  - intros k. reflexivity.
  - intros k Hk. cbv in Hk. do 4 (destruct k as [|k]; [lia|]).
    destruct k; reflexivity.
Qed.

(** The complete NEW-style handshake with an export of 0x40000000 bytes
    gives 2097152 sectors. *)
Lemma negotiate_new_example p drv :
  exists w',
    tdnbd_nbd_negotiate (env_session (new_greeting 0x40000000) []) 124
      p drv world0 = Some (0, mk_info 2097152 512 0, w').
Proof. eexists. vm_compute. reflexivity. Qed.

(** The NEW path does not look at how many bytes of the reply arrived:
    with four of them the negotiation still returns 0, and the size is
    computed from what the local held. *)
Lemma negotiate_new_short_reply p drv :
  exists w',
    tdnbd_nbd_negotiate env_short_reply 124 p drv world0 =
      Some (0, mk_info (Z.shiftr 0x00000000ffffffff 9) 512 0, w').
Proof. eexists. vm_compute. reflexivity. Qed.

(** C8, as the code runs: a NEW-style server exports 0x40000000 bytes,
    and of its ten-byte reply to the export name the receive delivers the
    first four.  [negotiate_client_newstyle_options] tests the result of
    that receive for an error only, where the OLD path and the reads
    before it test for a short read: the handshake returns 0,
    [tdnbd_open] succeeds, and the size is 8388607 sectors, computed from
    the four bytes that arrived and what the local held, where the export
    has 2097152.  With the reply in one piece the same server gives
    2097152. *)
Lemma negotiate_new_short_read_wrong_size :
  let p := set_socket_flags 3 0 (open_engine_state 2) in
  let drv := mk_info 0 512 0 in
  (exists w',
     tdnbd_nbd_negotiate env_short_reply 124 p drv world0 =
       Some (0, mk_info 8388607 512 0, w')) /\
  (exists p' w',
     tdnbd_open env_short_reply 124 2 3 0 (mk_info 0 0 0) world0 =
       Some (0, p', mk_info 8388607 512 0, w')) /\
  Z.shiftr 0x40000000 9 = 2097152 /\
  8388607 <> Z.shiftr 0x40000000 9 /\
  (exists w',
     tdnbd_nbd_negotiate (env_session (new_greeting 0x40000000) []) 124
       p drv world0 = Some (0, mk_info 2097152 512 0, w')).
Proof.
  intros p drv. split; [|split; [|split; [|split]]].
  - eexists. vm_compute. reflexivity.
  - eexists _, _. vm_compute. reflexivity.
  - reflexivity.
  - discriminate.
  - eexists. vm_compute. reflexivity.
Qed.

(** * Further properties *)

(** ** FD stash: storing and taking out *)

Lemma strncmp_refl s n : strncmp s s n = 0.
Proof.
  revert s. induction n as [|n IH]; intros [|c s]; simpl; try reflexivity.
  rewrite Z.eqb_refl. apply IH.
Qed.

(** [strncmp] looks at no more than the first [n] characters. *)
Lemma strncmp_take_l a b n : strncmp (take n a) b n = strncmp a b n.
Proof.
  revert a b. induction n as [|n IH]; intros [|x a] [|y b]; simpl; try reflexivity.
  destruct (code x =? code y); [apply IH|reflexivity].
Qed.

Lemma strncmp_take_r a b n : strncmp a (take n b) n = strncmp a b n.
Proof.
  revert a b. induction n as [|n IH]; intros [|x a] [|y b]; simpl; try reflexivity.
  destruct (code x =? code y); [apply IH|reflexivity].
Qed.

Lemma strncmp_same_prefix a a' b n :
  take n a = take n a' -> strncmp a b n = strncmp a' b n.
Proof.
  intros H. rewrite <- (strncmp_take_l a), <- (strncmp_take_l a'), H. reflexivity.
Qed.

Lemma stash_scan_first msg tbl : forall i k e,
  tbl !! i = Some e -> stash_slot_ok msg e = true ->
  (forall j e', (j < i)%nat -> tbl !! j = Some e' -> stash_slot_ok msg e' = false) ->
  stash_scan msg tbl k = Some (k + i)%nat.
Proof.
  induction tbl as [|x tbl IH]; intros i k e Hi Hok Hbefore; [discriminate|].
  destruct i as [|i]; simpl in *.
  - injection Hi as ->. rewrite Hok. f_equal. lia.
  - rewrite (Hbefore 0%nat x) by (reflexivity || lia).
    rewrite (IH i (S k) e Hi Hok); [f_equal; lia|].
    intros j e' Hj He'. apply (Hbefore (S j)); [lia|assumption].
Qed.

Lemma retrieve_scan_first name tbl : forall i k e,
  tbl !! i = Some e -> strncmp name (pf_id e) 39 = 0 ->
  (forall j e', (j < i)%nat -> tbl !! j = Some e' ->
     strncmp name (pf_id e') 39 <> 0) ->
  retrieve_scan name tbl k = Some ((k + i)%nat, pf_fd e).
Proof.
  induction tbl as [|x tbl IH]; intros i k e Hi Hm Hbefore; [discriminate|].
  destruct i as [|i]; simpl in *.
  - injection Hi as ->. change (PASSED_FD_ID_SIZE - 1)%nat with 39%nat.
    rewrite Hm. simpl. do 2 f_equal. lia.
  - change (PASSED_FD_ID_SIZE - 1)%nat with 39%nat.
    destruct (strncmp name (pf_id x) 39 =? 0) eqn:Hx.
    + apply Z.eqb_eq in Hx. exfalso. apply (Hbefore 0%nat x); auto. lia.
    + rewrite (IH i (S k) e Hi Hm); [do 2 f_equal; lia|].
      intros j e' Hj He'. apply (Hbefore (S j)); [lia|assumption].
Qed.

Lemma retrieve_scan_some name tbl : forall k i fd,
  retrieve_scan name tbl k = Some (i, fd) ->
  (k <= i)%nat /\
  exists e, tbl !! (i - k)%nat = Some e /\ pf_fd e = fd /\
    strncmp name (pf_id e) 39 = 0 /\
    forall j e', (j < i - k)%nat -> tbl !! j = Some e' ->
      strncmp name (pf_id e') 39 <> 0.
Proof.
  induction tbl as [|x tbl IH]; intros k i fd H; simpl in H; [discriminate|].
  change (PASSED_FD_ID_SIZE - 1)%nat with 39%nat in H.
  destruct (strncmp name (pf_id x) 39 =? 0) eqn:Hx.
  - injection H as <- <-. split; [lia|]. exists x.
    replace (k - k)%nat with 0%nat by lia. apply Z.eqb_eq in Hx.
    repeat split; auto. intros; lia.
  - apply IH in H as (Hle & e & Hl & Hfd & Hm & Hbefore). split; [lia|].
    exists e. replace (i - k)%nat with (S (i - S k)) by lia.
    repeat split; auto.
    intros [|j] e' Hj He'; simpl in He'.
    + injection He' as <-. apply Z.eqb_neq. assumption.
    + apply (Hbefore j); [lia|assumption].
Qed.

Lemma stash_scan_exists msg tbl :
  (exists e, e ∈ tbl /\ stash_slot_ok msg e = true) ->
  exists i, stash_scan msg tbl 0 = Some i.
Proof.
  intros (e & Hin & Hok).
  destruct (stash_scan msg tbl 0) as [i|] eqn:Hs; [eauto|].
  rewrite (stash_scan_none _ _ _ Hs e Hin) in Hok. discriminate.
Qed.

(** What a stash that finds a slot leaves in the table. *)
Lemma stash_stores fd msg w i :
  stash_scan msg (passed_fds w) 0 = Some i ->
  exists old,
    passed_fds w !! i = Some old /\ stash_slot_ok msg old = true /\
    (forall j e, (j < i)%nat -> passed_fds w !! j = Some e ->
       stash_slot_ok msg e = false) /\
    passed_fds (tdnbd_stash_passed_fd fd msg w) =
      <[i := mk_passed_fd (take 39 msg) fd]> (passed_fds w) /\
    trace (tdnbd_stash_passed_fd fd msg w) =
      trace w ++ (if pf_fd old >? -1 then [EvClose (pf_fd old)] else []).
Proof.
  intros Hscan. unfold tdnbd_stash_passed_fd. rewrite Hscan.
  apply stash_scan_some in Hscan as (_ & old & Hl & Hok & Hbefore).
  replace (i - 0)%nat with i in * by lia.
  exists old. rewrite Hl. repeat split; auto.
  - destruct (pf_fd old >? -1); reflexivity.
  - destruct (pf_fd old >? -1); simpl; auto using app_nil_r.
Qed.

(** X1: a socket stashed under a name comes back when that name is
    retrieved, as long as the stash found a slot for it (one that is
    unused or carries the name); the slot is unused afterwards. *)
Theorem stash_then_retrieve (fd : Z) (msg : list ascii) (w : world) :
  (exists e, e ∈ passed_fds w /\ (pf_fd e = -1 \/ strncmp msg (pf_id e) 39 = 0)) ->
  let w1 := tdnbd_stash_passed_fd fd msg w in
  fst (tdnbd_retrieve_passed_fd msg w1) = fd /\
  exists i,
    stash_scan msg (passed_fds w) 0 = Some i /\
    passed_fds (snd (tdnbd_retrieve_passed_fd msg w1)) !! i =
      Some (mk_passed_fd (take 39 msg) (-1)).
Proof.
  intros (e0 & Hin & Hok0) w1.
  destruct (stash_scan_exists msg (passed_fds w)) as [i Hscan].
  { exists e0. split; [assumption|]. apply stash_slot_ok_spec. assumption. }
  destruct (stash_stores fd msg w i Hscan) as (old & Hl & Hok & Hbefore & Htbl & _).
  fold w1 in Htbl.
  assert (Hi : (i < length (passed_fds w))%nat) by (eapply lookup_lt_Some; eassumption).
  assert (Hr : retrieve_scan msg (passed_fds w1) 0 = Some (i, fd)).
  { apply (retrieve_scan_first msg (passed_fds w1) i 0
             (mk_passed_fd (take 39 msg) fd)).
    - rewrite Htbl. apply list_lookup_insert_eq. assumption.
    - simpl. rewrite strncmp_take_r. apply strncmp_refl.
    - intros j e' Hj He'. rewrite Htbl in He'.
      rewrite list_lookup_insert_ne in He' by lia.
      specialize (Hbefore j e' Hj He'). intros Hc.
      assert (stash_slot_ok msg e' = true) by (apply stash_slot_ok_spec; auto).
      congruence. }
  unfold tdnbd_retrieve_passed_fd. rewrite Hr. simpl. split; [reflexivity|].
  exists i. split; [exact Hscan|].
  rewrite list_lookup_alter_eq, Htbl, list_lookup_insert_eq by assumption.
  reflexivity.
Qed.

Lemma stash_then_retrieve_witness :
  let w := stash_example_world in
  let w1 := tdnbd_stash_passed_fd 9 (cstring "bar") w in
  fst (tdnbd_retrieve_passed_fd (cstring "bar") w1) = 9 /\
  exists i,
    stash_scan (cstring "bar") (passed_fds w) 0 = Some i /\
    passed_fds (snd (tdnbd_retrieve_passed_fd (cstring "bar") w1)) !! i =
      Some (mk_passed_fd (take 39 (cstring "bar")) (-1)).
Proof.
  intros w w1.
  apply (stash_then_retrieve 9 (cstring "bar") w).
  exists (mk_passed_fd (cstring "a") (-1)). split.
  - apply list_elem_of_lookup. exists 0%nat. reflexivity.
  - left. reflexivity.
Defined.

(** X2: retrieving takes the socket out of the table: whatever the first
    retrieval of a name returned, the next one returns -1. *)
Theorem retrieve_twice (name : list ascii) (w : world) :
  fst (tdnbd_retrieve_passed_fd name
         (snd (tdnbd_retrieve_passed_fd name w))) = -1.
Proof.
  unfold tdnbd_retrieve_passed_fd at 2.
  destruct (retrieve_scan name (passed_fds w) 0) as [[i fd]|] eqn:Hr; simpl.
  - apply retrieve_scan_some in Hr as (_ & e & Hl & Hfd & Hm & Hbefore).
    replace (i - 0)%nat with i in * by lia.
    unfold tdnbd_retrieve_passed_fd. simpl.
    rewrite (retrieve_scan_first name _ i 0 (mk_passed_fd (pf_id e) (-1))).
    + reflexivity.
    + rewrite list_lookup_alter_eq, Hl. reflexivity.
    + exact Hm.
    + intros j e' Hj He'. rewrite list_lookup_alter_ne in He' by lia. eauto.
  - unfold tdnbd_retrieve_passed_fd. rewrite Hr. reflexivity.
Qed.

(** X3: names that agree on their first 39 bytes are one name to the
    stash.  A second stash under such a name goes to the slot of the
    first: the socket stored there is closed when it is an open one
    (fd > -1), and the name retrieves the second socket. *)
Theorem stash_replaces_same_name (fd1 fd2 : Z) (n1 n2 : list ascii) (w : world) :
  take 39 n1 = take 39 n2 ->
  (exists e, e ∈ passed_fds w /\ (pf_fd e = -1 \/ strncmp n1 (pf_id e) 39 = 0)) ->
  let w1 := tdnbd_stash_passed_fd fd1 n1 w in
  let w2 := tdnbd_stash_passed_fd fd2 n2 w1 in
  trace w2 = trace w1 ++ (if fd1 >? -1 then [EvClose fd1] else []) /\
  length (passed_fds w2) = length (passed_fds w) /\
  fst (tdnbd_retrieve_passed_fd n1 w2) = fd2.
Proof.
  intros Hpre (e0 & Hin & Hok0) w1 w2.
  destruct (stash_scan_exists n1 (passed_fds w)) as [i Hscan].
  { exists e0. split; [assumption|]. apply stash_slot_ok_spec. assumption. }
  destruct (stash_stores fd1 n1 w i Hscan) as (old & Hl & Hok & Hbefore & Htbl & _).
  fold w1 in Htbl.
  assert (Hi : (i < length (passed_fds w))%nat) by (eapply lookup_lt_Some; eassumption).
  assert (Hsame : forall e, stash_slot_ok n2 e = stash_slot_ok n1 e).
  { intros e. unfold stash_slot_ok. change (PASSED_FD_ID_SIZE - 1)%nat with 39%nat.
    rewrite (strncmp_same_prefix n2 n1) by congruence. reflexivity. }
  assert (Hscan2 : stash_scan n2 (passed_fds w1) 0 = Some i).
  { apply (stash_scan_first n2 (passed_fds w1) i 0 (mk_passed_fd (take 39 n1) fd1)).
    - rewrite Htbl. apply list_lookup_insert_eq. assumption.
    - unfold stash_slot_ok. simpl. change (PASSED_FD_ID_SIZE - 1)%nat with 39%nat.
      rewrite Hpre, strncmp_take_r, strncmp_refl. apply orb_true_r.
    - intros j e' Hj He'. rewrite Htbl, list_lookup_insert_ne in He' by lia.
      rewrite Hsame. eauto. }
  destruct (stash_stores fd2 n2 w1 i Hscan2) as (old2 & Hl2 & _ & Hb2 & Htbl2 & Htr2).
  fold w2 in Htbl2, Htr2.
  rewrite Htbl, list_lookup_insert_eq in Hl2 by assumption.
  injection Hl2 as <-. simpl in Htr2.
  split; [exact Htr2|]. split.
  - rewrite Htbl2, Htbl, !length_insert. reflexivity.
  - unfold tdnbd_retrieve_passed_fd.
    rewrite (retrieve_scan_first n1 (passed_fds w2) i 0 (mk_passed_fd (take 39 n2) fd2)).
    + reflexivity.
    + rewrite Htbl2. apply list_lookup_insert_eq.
      rewrite Htbl, length_insert. assumption.
    + simpl. rewrite <- Hpre, strncmp_take_r. apply strncmp_refl.
    + intros j e' Hj He'. rewrite Htbl2, list_lookup_insert_ne in He' by lia.
      specialize (Hb2 j e' Hj He'). rewrite Hsame in Hb2. intros Hc.
      assert (stash_slot_ok n1 e' = true) by (apply stash_slot_ok_spec; auto).
      congruence.
Qed.

Lemma stash_replaces_same_name_witness :
  let w := stash_example_world in
  let long := replicate 39 "n"%char in
  let w1 := tdnbd_stash_passed_fd 8 (long ++ cstring "-one") w in
  let w2 := tdnbd_stash_passed_fd 9 (long ++ cstring "-two") w1 in
  trace w2 = trace w1 ++ (if 8 >? -1 then [EvClose 8] else []) /\
  length (passed_fds w2) = length (passed_fds w) /\
  fst (tdnbd_retrieve_passed_fd (long ++ cstring "-one") w2) = 9.
Proof.
  intros w long w1 w2.
  apply (stash_replaces_same_name 8 9 (long ++ cstring "-one")
           (long ++ cstring "-two") w).
  - reflexivity.
  - exists (mk_passed_fd (cstring "a") (-1)). split.
    + apply list_elem_of_lookup. exists 0%nat. reflexivity.
    + left. reflexivity.
Defined.

(** ** Socket transport: what stays untouched *)

Section TransportFrame.

Variable E : env.

Lemma write_some_loop_trace fuel : forall left data w,
  trace (snd (write_some_loop E fuel left data w)) = trace w.
Proof.
  induction fuel as [|fuel IH]; intros left data w; simpl.
  - destruct (left >? 0); reflexivity.
  - destruct (left >? 0) eqn:Hgt; [|reflexivity].
    pose proof (sys_send_rc E left w ltac:(lia)) as Hs.
    destruct (sys_send E left w) as [[rc errno] w1]. destruct Hs as [-> _].
    destruct (rc =? -1).
    { destruct ((errno =? EAGAIN) || (errno =? EWOULDBLOCK)); reflexivity. }
    destruct (rc =? 0); [reflexivity|]. rewrite IH. reflexivity.
Qed.

Lemma read_some_loop_trace fuel : forall left data w,
  trace (snd (read_some_loop E fuel left data w)) = trace w.
Proof.
  induction fuel as [|fuel IH]; intros left data w; simpl.
  - destruct (left >? 0); reflexivity.
  - destruct (left >? 0) eqn:Hgt; [|reflexivity].
    pose proof (sys_recv_rc E left w ltac:(lia)) as Hs.
    destruct (sys_recv E left w) as [[[rc errno] got] w1]. destruct Hs as [-> _].
    destruct (rc =? -1).
    { destruct ((errno =? EAGAIN) || (errno =? EWOULDBLOCK)); reflexivity. }
    destruct (rc =? 0); [reflexivity|]. rewrite IH. reflexivity.
Qed.

Lemma tdnbd_write_some_trace data w :
  trace (snd (tdnbd_write_some E data w)) = trace w.
Proof. apply write_some_loop_trace. Qed.

Lemma tdnbd_read_some_trace data w :
  trace (snd (tdnbd_read_some E data w)) = trace w.
Proof. apply read_some_loop_trace. Qed.

Lemma store_at_window q bytes :
  0 <= so_far q ->
  (Z.to_nat (so_far q) + length bytes <= length (buffer q))%nat ->
  length (buffer (store_at q bytes)) = length (buffer q) /\
  take (Z.to_nat (so_far q)) (buffer (store_at q bytes)) =
    take (Z.to_nat (so_far q)) (buffer q) /\
  drop (Z.to_nat (so_far q) + length bytes) (buffer (store_at q bytes)) =
    drop (Z.to_nat (so_far q) + length bytes) (buffer q).
Proof.
  intros H0 Hfit. unfold store_at. simpl.
  set (off := Z.to_nat (so_far q)) in *.
  assert (Hoff : length (take off (buffer q)) = off)
    by (rewrite length_take; lia).
  repeat split.
  - rewrite !length_app, Hoff, length_drop. lia.
  - rewrite take_app_length' by (symmetry; exact Hoff). reflexivity.
  - rewrite app_assoc. rewrite drop_app_length'; [reflexivity|].
    rewrite length_app, Hoff. reflexivity.
Qed.

Lemma read_some_loop_window fuel : forall left data w,
  left = len data - so_far data -> 0 <= so_far data -> 0 <= left ->
  len data <= Z.of_nat (length (buffer data)) ->
  let '(r, d', w') := read_some_loop E fuel left data w in
  so_far data <= so_far d' <= len data /\
  length (buffer d') = length (buffer data) /\
  take (Z.to_nat (so_far data)) (buffer d') =
    take (Z.to_nat (so_far data)) (buffer data) /\
  drop (Z.to_nat (so_far d')) (buffer d') =
    drop (Z.to_nat (so_far d')) (buffer data).
Proof.
  induction fuel as [|fuel IH]; intros left data w Hleft Hsf Hpos Hbuf.
  - simpl. destruct (left >? 0); repeat split; lia.
  - simpl. destruct (left >? 0) eqn:Hgt; [|repeat split; lia].
    pose proof (sys_recv_rc E left w ltac:(lia)) as Hs.
    destruct (sys_recv E left w) as [[[rc errno] got] w1].
    destruct Hs as [_ Hrc].
    destruct (rc =? -1) eqn:Hm.
    { destruct ((errno =? EAGAIN) || (errno =? EWOULDBLOCK)); repeat split; lia. }
    destruct (rc =? 0) eqn:Hz; [repeat split; lia|].
    destruct Hrc as [[Hrc _]|(Hrange & _ & Hlen)]; [lia|].
    assert (Hfit : (Z.to_nat (so_far data) + length got <= length (buffer data))%nat)
      by lia.
    destruct (store_at_window data got Hsf Hfit) as (Hl1 & Ht1 & Hd1).
    specialize (IH (left - rc) (advance rc (store_at data got)) w1).
    destruct (read_some_loop E fuel (left - rc) (advance rc (store_at data got)) w1)
      as [[r d'] w'].
    change (so_far (advance rc (store_at data got))) with (so_far data + rc) in IH.
    change (len (advance rc (store_at data got))) with (len data) in IH.
    change (buffer (advance rc (store_at data got)))
      with (buffer (store_at data got)) in IH.
    rewrite Hl1 in IH.
    destruct IH as (Hr & Hl & Ht & Hd); [lia..|].
    replace (Z.to_nat (so_far data + rc))
      with (Z.to_nat (so_far data) + length got)%nat in Ht by lia.
    split; [lia|]. split; [exact Hl|]. split.
    + assert (Hmin : Z.to_nat (so_far data) =
                     (Z.to_nat (so_far data) `min`
                        (Z.to_nat (so_far data) + length got))%nat) by lia.
      rewrite Hmin at 1. rewrite <- take_take, Ht, take_take, <- Hmin.
      exact Ht1.
    + rewrite Hd.
      set (a := (Z.to_nat (so_far data) + length got)%nat) in *.
      replace (Z.to_nat (so_far d')) with (a + (Z.to_nat (so_far d') - a))%nat
        by lia.
      rewrite <- (drop_drop (buffer (store_at data got))),
              <- (drop_drop (buffer data)), Hd1.
      reflexivity.
Qed.

End TransportFrame.

(** X4: [tdnbd_read_some] writes only between the cursor it starts with
    and the cursor it ends with: for a buffer that holds [len] bytes the
    length of the buffer, the bytes before the old cursor and the bytes
    from the new cursor on are as they were, and the cursor stays within
    [len].  [tdnbd_write_some] does not change the buffer at all. *)
Theorem transport_buffer_window (E : env) (data : nbd_queued_io) (w : world) :
  0 <= so_far data <= len data ->
  len data <= Z.of_nat (length (buffer data)) ->
  (let '(r, d', w') := tdnbd_read_some E data w in
   so_far data <= so_far d' <= len data /\
   length (buffer d') = length (buffer data) /\
   take (Z.to_nat (so_far data)) (buffer d') =
     take (Z.to_nat (so_far data)) (buffer data) /\
   drop (Z.to_nat (so_far d')) (buffer d') =
     drop (Z.to_nat (so_far d')) (buffer data)) /\
  (let '(r, d', w') := tdnbd_write_some E data w in
   so_far data <= so_far d' <= len data /\ buffer d' = buffer data).
Proof.
  intros Hsf Hbuf. split.
  - unfold tdnbd_read_some.
    apply read_some_loop_window; lia.
  - unfold tdnbd_write_some.
    pose proof (write_some_loop_result E (Z.to_nat (len data - so_far data))
                  (len data - so_far data) data w eq_refl) as H.
    destruct (write_some_loop E _ _ data w) as [[r d'] w'].
    destruct H as (_ & Hb & _ & Hr & _); [lia..|]. auto.
Qed.

Lemma transport_buffer_window_witness :
  let data := mk_qio (cstring "0123456789abcdef") 12 4 in
  (let '(r, d', w') := tdnbd_read_some env_transport data (world_at 0) in
   so_far data <= so_far d' <= len data /\
   length (buffer d') = length (buffer data) /\
   take (Z.to_nat (so_far data)) (buffer d') =
     take (Z.to_nat (so_far data)) (buffer data) /\
   drop (Z.to_nat (so_far d')) (buffer d') =
     drop (Z.to_nat (so_far d')) (buffer data)) /\
  (let '(r, d', w') := tdnbd_write_some env_transport data (world_at 0) in
   so_far data <= so_far d' <= len data /\ buffer d' = buffer data).
Proof.
  intros data.
  apply (transport_buffer_window env_transport data (world_at 0)).
  - simpl. lia.
  - simpl. lia.
Defined.

(** ** Handles of different requests *)

Lemma hex_digit_inj x y :
  0 <= x < 16 -> 0 <= y < 16 -> hex_digit x = hex_digit y -> x = y.
Proof.
  intros Hx Hy.
  assert (Ex : x = 0 \/ x = 1 \/ x = 2 \/ x = 3 \/ x = 4 \/ x = 5 \/ x = 6 \/
               x = 7 \/ x = 8 \/ x = 9 \/ x = 10 \/ x = 11 \/ x = 12 \/
               x = 13 \/ x = 14 \/ x = 15) by lia.
  assert (Ey : y = 0 \/ y = 1 \/ y = 2 \/ y = 3 \/ y = 4 \/ y = 5 \/ y = 6 \/
               y = 7 \/ y = 8 \/ y = 9 \/ y = 10 \/ y = 11 \/ y = 12 \/
               y = 13 \/ y = 14 \/ y = 15) by lia.
  clear Hx Hy.
  repeat (destruct Ex as [->|Ex]); try subst x;
    repeat (destruct Ey as [->|Ey]); try subst y;
    first [reflexivity | intros H; discriminate H].
Qed.

Lemma hex5_inj a b :
  0 <= a < 2 ^ 20 -> 0 <= b < 2 ^ 20 -> hex5 a = hex5 b -> a = b.
Proof.
  intros Ha Hb. unfold hex5.
  replace (a / 16 ^ 2) with (a / 16 / 16) by (rewrite Z.div_div by lia; reflexivity).
  replace (a / 16 ^ 3) with (a / 16 / 16 / 16)
    by (rewrite !Z.div_div by lia; reflexivity).
  replace (a / 16 ^ 4) with (a / 16 / 16 / 16 / 16)
    by (rewrite !Z.div_div by lia; reflexivity).
  replace (b / 16 ^ 2) with (b / 16 / 16) by (rewrite Z.div_div by lia; reflexivity).
  replace (b / 16 ^ 3) with (b / 16 / 16 / 16)
    by (rewrite !Z.div_div by lia; reflexivity).
  replace (b / 16 ^ 4) with (b / 16 / 16 / 16 / 16)
    by (rewrite !Z.div_div by lia; reflexivity).
  intros [= H4 H3 H2 H1 H0].
  apply hex_digit_inj in H0, H1, H2, H3, H4;
    try (apply Z.mod_pos_bound; lia).
  assert (a / 16 / 16 / 16 / 16 / 16 = 0)
    by (rewrite !Z.div_div by lia; apply Z.div_small; lia).
  assert (b / 16 / 16 / 16 / 16 / 16 = 0)
    by (rewrite !Z.div_div by lia; apply Z.div_small; lia).
  pose proof (Z.div_mod a 16 ltac:(lia)).
  pose proof (Z.div_mod (a / 16) 16 ltac:(lia)).
  pose proof (Z.div_mod (a / 16 / 16) 16 ltac:(lia)).
  pose proof (Z.div_mod (a / 16 / 16 / 16) 16 ltac:(lia)).
  pose proof (Z.div_mod (a / 16 / 16 / 16 / 16) 16 ltac:(lia)).
  pose proof (Z.div_mod b 16 ltac:(lia)).
  pose proof (Z.div_mod (b / 16) 16 ltac:(lia)).
  pose proof (Z.div_mod (b / 16 / 16) 16 ltac:(lia)).
  pose proof (Z.div_mod (b / 16 / 16 / 16) 16 ltac:(lia)).
  pose proof (Z.div_mod (b / 16 / 16 / 16 / 16) 16 ltac:(lia)).
  lia.
Qed.

(** X5: the handles that [tdnbd_queue_request] writes for two values of
    the counter that are less than 65535 apart are different; 65535
    apart they are the same. *)
Theorem handles_differ_within_65535 :
  (forall a b,
     0 <= a -> a < b -> b - a < 65535 ->
     snprintf_handle (Z.rem a 0xffff) <> snprintf_handle (Z.rem b 0xffff)) /\
  (forall a,
     0 <= a ->
     snprintf_handle (Z.rem a 0xffff) = snprintf_handle (Z.rem (a + 65535) 0xffff)).
Proof.
  split.
  - intros a b Ha Hab Hd.
    rewrite !Z.rem_mod_nonneg by lia.
    pose proof (Z.mod_pos_bound a 65535 ltac:(lia)) as Hma.
    pose proof (Z.mod_pos_bound b 65535 ltac:(lia)) as Hmb.
    rewrite !snprintf_handle_hex5 by lia.
    intros Heq. apply app_inv_head, app_inv_tail in Heq.
    apply hex5_inj in Heq; [|lia..].
    pose proof (Z.div_mod a 65535 ltac:(lia)).
    pose proof (Z.div_mod b 65535 ltac:(lia)).
    assert (b / 65535 = a / 65535 \/ b / 65535 <> a / 65535) as [|] by lia; nia.
  - intros a Ha. rewrite !Z.rem_mod_nonneg by lia.
    replace (a + 65535) with (a + 1 * 65535) by lia.
    rewrite Z.mod_add by lia. reflexivity.
Qed.

Lemma handles_differ_within_65535_witness :
  snprintf_handle (Z.rem 4466 0xffff) <> snprintf_handle (Z.rem 70000 0xffff) /\
  snprintf_handle (Z.rem 4465 0xffff) = snprintf_handle (Z.rem (4465 + 65535) 0xffff).
Proof.
  destruct handles_differ_within_65535 as [Hd Hs].
  split.
  - apply (Hd 4466 70000); lia.
  - apply (Hs 4465). lia.
Defined.

(** ** Handshake: how it ends and what it reads *)

Lemma code_bound b : 0 <= code b < 256.
Proof.
  unfold code. pose proof (nat_ascii_bounded b). lia.
Qed.

Lemma encode_decode_be n : forall bs,
  length bs = n -> encode_be n (decode_be bs) = bs.
Proof.
  induction n as [|n IH]; intros bs Hlen.
  - destruct bs; [reflexivity|discriminate].
  - destruct bs as [|b bs' _] using rev_ind; [discriminate|].
    rewrite length_app in Hlen. simpl in Hlen.
    rewrite decode_be_snoc. cbn [encode_be].
    pose proof (code_bound b) as Hb.
    rewrite Z.div_add_l, Z.div_small, Z.add_0_r by lia.
    rewrite IH by lia. f_equal.
    rewrite Z.add_comm, Z.mod_add, Z.mod_small by lia.
    unfold code. rewrite Nat2Z.id, ascii_nat_embedding. reflexivity.
Qed.

Section HandshakeOutcome.

Variable E : env.

Lemma tdnbd_wait_recv_frame length w :
  0 < length ->
  let '(rc, got, w1) := tdnbd_wait_recv E length w in
  trace w1 = trace w /\ n_send w1 = n_send w /\
  (0 <= rc ->
   rc <= length /\ bytes_in w1 = bytes_in w + rc /\
   n_recv w1 = S (n_recv w) /\ rc = Z.of_nat (List.length got) /\
   exists bytes, env_recv E (n_recv w) = RecvData bytes /\
                 got = take (Z.to_nat length) bytes).
Proof.
  intros Hl. unfold tdnbd_wait_recv, sys_recv.
  destruct (env_select E (n_select w)); simpl.
  - repeat split; lia.
  - repeat split; unfold ETIMEDOUT in *; lia.
  - destruct (env_recv E (n_recv w)) as [e|bytes] eqn:Hr; simpl.
    + repeat split; lia.
    + destruct (Z.of_nat _ <? 0) eqn:Hneg; [apply Z.ltb_lt in Hneg; lia|].
      simpl. split; [reflexivity|]. split; [reflexivity|]. intros _.
      rewrite length_take. repeat split; try lia. eauto.
Qed.


Lemma drain_pad_frame fuel : forall padbytes w ok w',
  0 <= padbytes ->
  drain_pad E fuel padbytes w = Some (ok, w') ->
  trace w' = trace w /\ n_send w' = n_send w /\
  (ok = true -> bytes_in w' = bytes_in w + padbytes).
Proof.
  induction fuel as [|fuel IH]; intros padbytes w ok w' Hp; simpl.
  - destruct (padbytes >? 0) eqn:Hgt; [discriminate|].
    intros [= <- <-]. repeat split. lia.
  - destruct (padbytes >? 0) eqn:Hgt.
    + pose proof (tdnbd_wait_recv_frame padbytes w ltac:(lia)) as Hw.
      destruct (tdnbd_wait_recv E padbytes w) as [[rc got] w1].
      destruct Hw as (Ht & Hs & Hrc).
      destruct (rc <? 0) eqn:Hneg.
      * intros [= <- <-]. repeat split; try assumption. discriminate.
      * apply Z.ltb_ge in Hneg. destruct (Hrc Hneg) as (Hle & Hb & _).
        intros Hd. apply IH in Hd as (Ht' & Hs' & Hb'); [|lia].
        repeat split; try congruence. intros Hok. rewrite Hb' by assumption. lia.
    + intros [= <- <-]. repeat split. lia.
Qed.




(** A receive of eight bytes that passed the short-read test delivered
    the eight bytes that the local decodes to. *)
Lemma wait_recv_eight w rc got w1 v :
  tdnbd_wait_recv E 8 w = (rc, got, w1) ->
  (rc <? 0) = false -> (to_size_t rc <? 8) = false ->
  decode_be (local_after_recv E 8 got) = v ->
  n_recv w1 = S (n_recv w) /\ trace w1 = trace w /\
  exists bytes, env_recv E (n_recv w) = RecvData bytes /\
                take 8 bytes = encode_be 8 v.
Proof.
  intros Hw Hneg Hsz Hdec.
  pose proof (tdnbd_wait_recv_frame 8 w ltac:(lia)) as Hf. rewrite Hw in Hf.
  destruct Hf as (Ht & _ & Hrc).
  apply Z.ltb_ge in Hneg, Hsz.
  destruct (Hrc Hneg) as (Hle & _ & Hn & Hlen & bytes & Hb & Hgot).
  unfold to_size_t in Hsz. rewrite Z.mod_small in Hsz by lia.
  split; [assumption|]. split; [assumption|]. exists bytes. split; [assumption|].
  change (Z.to_nat 8) with 8%nat in Hgot. rewrite <- Hgot.
  assert (Hl8 : List.length got = 8%nat) by lia.
  unfold local_after_recv in Hdec.
  rewrite take_app_length' in Hdec by (symmetry; exact Hl8).
  rewrite <- Hdec. symmetry. apply encode_decode_be. exact Hl8.
Qed.

End HandshakeOutcome.



(** X7: an OLD-style negotiation that succeeds has read exactly the 136
    bytes that follow the two magics (size, flags, pad) and has sent
    nothing: what the server sends next is left for the reader. *)
Theorem negotiate_old_reads_greeting (E : env) (fuel : nat) (p : tdnbd_data)
  (drv drv' : td_disk_info) (w w' : world) :
  tdnbd_nbd_negotiate_old E fuel p drv w = Some (0, drv', w') ->
  bytes_in w' = bytes_in w + 136 /\ n_send w' = n_send w.
Proof.
  unfold tdnbd_nbd_negotiate_old.
  pose proof (tdnbd_wait_recv_frame E 8 w ltac:(lia)) as Hw.
  destruct (tdnbd_wait_recv E 8 w) as [[rc size] w1].
  destruct Hw as (_ & Hs1 & Hrc1).
  destruct (rc <? 0) eqn:Hneg; [intros [= H]; discriminate|].
  destruct (to_size_t rc <? 8) eqn:Hsz; [intros [= H]; discriminate|].
  apply Z.ltb_ge in Hneg, Hsz. destruct (Hrc1 Hneg) as (Hle1 & Hb1 & _).
  unfold to_size_t in Hsz. rewrite Z.mod_small in Hsz by lia.
  pose proof (tdnbd_wait_recv_frame E 4 w1 ltac:(lia)) as Hw.
  destruct (tdnbd_wait_recv E 4 w1) as [[rc2 fl] w2].
  destruct Hw as (_ & Hs2 & Hrc2).
  destruct (rc2 <? 0) eqn:Hneg2; [intros [= H]; discriminate|].
  destruct (to_size_t rc2 <? 4) eqn:Hsz2; [intros [= H]; discriminate|].
  apply Z.ltb_ge in Hneg2, Hsz2. destruct (Hrc2 Hneg2) as (Hle2 & Hb2 & _).
  unfold to_size_t in Hsz2. rewrite Z.mod_small in Hsz2 by lia.
  destruct (drain_pad E fuel 124 w2) as [[ok w3]|] eqn:Hd; [|discriminate].
  apply drain_pad_frame in Hd as (_ & Hs3 & Hb3); [|lia].
  destruct ok; [|intros [= H]; discriminate].
  unfold sys_fcntl.
  destruct (negb (env_fcntl E (n_fcntl w3) =? 0)); [intros [= H]; discriminate|].
  intros [= _ <-]. simpl. rewrite Hb3 by reflexivity. split; [lia|congruence].
Qed.

(** X8: a negotiation succeeds only if the first receive delivered the
    eight bytes of NBDMAGIC and the second the eight bytes of the OLD
    version magic or of IHAVEOPT. *)
Theorem negotiate_requires_magics (E : env) (fuel : nat) (p : tdnbd_data)
  (drv drv' : td_disk_info) (w w' : world) :
  tdnbd_nbd_negotiate E fuel p drv w = Some (0, drv', w') ->
  exists b1 b2,
    env_recv E (n_recv w) = RecvData b1 /\
    take 8 b1 = encode_be 8 NBD_MAGIC /\
    env_recv E (S (n_recv w)) = RecvData b2 /\
    (take 8 b2 = encode_be 8 NBD_OLD_VERSION \/
     take 8 b2 = encode_be 8 NBD_OPT_MAGIC).
Proof.
  unfold tdnbd_nbd_negotiate.
  destruct (tdnbd_wait_recv E 8 w) as [[rc magic] w1] eqn:Hw1.
  destruct (rc <? 0) eqn:Hn1; [intros [= H]; discriminate|].
  destruct (to_size_t rc <? 8) eqn:Hs1; [intros [= H]; discriminate|].
  destruct (decode_be (local_after_recv E 8 magic) =? NBD_MAGIC) eqn:Hm1;
    [|intros [= H]; discriminate].
  apply Z.eqb_eq in Hm1.
  destruct (wait_recv_eight E w rc magic w1 _ Hw1 Hn1 Hs1 Hm1)
    as (Hnr & _ & b1 & Hb1 & Ht1).
  simpl.
  destruct (tdnbd_wait_recv E 8 w1) as [[rc2 magic2] w2] eqn:Hw2.
  destruct (rc2 <? 0) eqn:Hn2; [intros [= H]; discriminate|].
  destruct (to_size_t rc2 <? 8) eqn:Hs2; [intros [= H]; discriminate|].
  intros Hres. exists b1.
  destruct (decode_be (local_after_recv E 8 magic2) =? NBD_OLD_VERSION) eqn:Ho.
  - apply Z.eqb_eq in Ho.
    destruct (wait_recv_eight E w1 rc2 magic2 w2 _ Hw2 Hn2 Hs2 Ho)
      as (_ & _ & b2 & Hb2 & Ht2).
    rewrite Hnr in Hb2. eauto 8.
  - destruct (decode_be (local_after_recv E 8 magic2) =? NBD_OPT_MAGIC) eqn:Hopt.
    + apply Z.eqb_eq in Hopt.
      destruct (wait_recv_eight E w1 rc2 magic2 w2 _ Hw2 Hn2 Hs2 Hopt)
        as (_ & _ & b2 & Hb2 & Ht2).
      rewrite Hnr in Hb2. eauto 8.
    + injection Hres as H. discriminate.
Qed.


Lemma negotiate_old_reads_greeting_witness :
  let E := env_session (old_greeting 0x200000000) [] in
  let r := tdnbd_nbd_negotiate_old E 124 (open_engine_state 2)
             (mk_info 0 512 0) (world_recvd 2) in
  bytes_in (world_of r) = bytes_in (world_recvd 2) + 136 /\
  n_send (world_of r) = n_send (world_recvd 2).
Proof.
  intros E r.
  apply (negotiate_old_reads_greeting E 124 (open_engine_state 2)
           (mk_info 0 512 0) (info_of r)).
  vm_compute. reflexivity.
Defined.

Lemma negotiate_requires_magics_witness :
  let E := env_session (old_greeting 0x200000000) [] in
  exists b1 b2,
    env_recv E (n_recv world0) = RecvData b1 /\
    take 8 b1 = encode_be 8 NBD_MAGIC /\
    env_recv E (S (n_recv world0)) = RecvData b2 /\
    (take 8 b2 = encode_be 8 NBD_OLD_VERSION \/
     take 8 b2 = encode_be 8 NBD_OPT_MAGIC).
Proof.
  intros E.
  pose (r := tdnbd_nbd_negotiate E 124 (open_engine_state 2) (mk_info 0 512 0)
               world0).
  apply (negotiate_requires_magics E 124 (open_engine_state 2)
           (mk_info 0 512 0) (info_of r) world0 (world_of r)).
  vm_compute. reflexivity.
Defined.

(** ** Request engine: every accepted request is completed once *)

Lemma same_reqs_refl p : same_reqs p p.
Proof. intros i. auto. Qed.

Lemma same_reqs_trans p1 p2 p3 :
  same_reqs p1 p2 -> same_reqs p2 p3 -> same_reqs p1 p3.
Proof.
  intros H1 H2 i. destruct (H1 i) as [<- <-]. apply H2.
Qed.

Lemma same_reqs_update_slot pos f p :
  (forall r, treq (f r) = treq r /\ nreq (f r) = nreq r) ->
  same_reqs p (update_slot pos f p).
Proof.
  intros Hf i. rewrite slot_update_slot.
  destruct (decide (i = pos)); [|auto].
  unfold slot. destruct (requests p !! i); simpl; auto.
Qed.

Lemma slots_kept_refl p : slots_kept p p.
Proof. split; [apply same_reqs_refl|]. auto. Qed.

Lemma slots_kept_trans p1 p2 p3 :
  slots_kept p1 p2 -> slots_kept p2 p3 -> slots_kept p1 p3.
Proof.
  intros (Hs1 & Hl1 & Hm1) (Hs2 & Hl2 & Hm2).
  split; [eapply same_reqs_trans; eassumption|].
  split; [congruence|auto].
Qed.

(** A change that touches neither the lists nor the requests. *)
Lemma slots_kept_frame p p' :
  same_reqs p p' -> length (requests p') = length (requests p) ->
  pending_reqs p' = pending_reqs p -> sent_reqs p' = sent_reqs p ->
  slots_kept p p'.
Proof.
  intros Hs Hl Hp Hse. split; [assumption|]. split; [assumption|].
  intros i. rewrite Hp, Hse. auto.
Qed.

Lemma outstanding_eq p p' :
  same_reqs p p' -> pending_reqs p' = pending_reqs p ->
  sent_reqs p' = sent_reqs p -> outstanding p' = outstanding p.
Proof.
  intros Hs Hp Hse. unfold outstanding. rewrite Hp, Hse.
  apply List.map_ext. intros i. apply Hs.
Qed.

Lemma outstanding_perm p p' :
  same_reqs p p' ->
  pending_reqs p' ++ sent_reqs p' ≡ₚ pending_reqs p ++ sent_reqs p ->
  outstanding p' ≡ₚ outstanding p.
Proof.
  intros Hs Hp. unfold outstanding.
  etransitivity; [apply Permutation_map; exact Hp|].
  erewrite List.map_ext; [reflexivity|]. intros i. apply Hs.
Qed.

Lemma types_rw_kept p p' : slots_kept p p' -> types_rw p -> types_rw p'.
Proof.
  intros (Hs & _ & Hm) Hrw i Hi. destruct (Hs i) as [_ ->]. auto.
Qed.

Lemma ledger_step_none p w p' w' :
  closed p' = 0 -> outstanding p' = outstanding p ->
  completions (trace w') = completions (trace w) ->
  ledger_step [] p w p' w'.
Proof.
  intros Hc Ho Ht. exists []. rewrite app_nil_r. split; [assumption|].
  left. split; [assumption|]. split; [constructor|].
  simpl. rewrite Ho, app_nil_r. reflexivity.
Qed.

Lemma ledger_step_from p0 w0 p w p' w' acc :
  outstanding p = outstanding p0 ->
  completions (trace w) = completions (trace w0) ->
  ledger_step acc p w p' w' -> ledger_step acc p0 w0 p' w'.
Proof.
  intros Ho Ht (done & Hd & H). exists done. rewrite <- Ho, <- Ht. auto.
Qed.

Lemma cancel_each_reqs l e : forall p w,
  same_reqs p (fst (cancel_each l e p w)) /\
  length (requests (fst (cancel_each l e p w))) = length (requests p).
Proof.
  induction l as [|pos rest IH]; intros p w; simpl.
  - split; [apply same_reqs_refl|reflexivity].
  - unfold __cancel_req.
    destruct (timeout_event (slot p pos) >=? 0).
    + match goal with
      | |- context [cancel_each rest e ?p1 ?w1] =>
        destruct (IH p1 w1) as [Hs Hl]
      end.
      split.
      * eapply same_reqs_trans; [|exact Hs].
        apply same_reqs_update_slot. intros r. split; reflexivity.
      * rewrite Hl. unfold update_slot. simpl. apply length_alter.
    + apply IH.
Qed.

Lemma Forall_snd_map {A B} (f : A -> B) (e : Z) (l : list A) :
  Forall (fun c : B * Z => snd c = e) (map (fun i => (f i, e)) l).
Proof. induction l; simpl; constructor; auto. Qed.

(** [tdnbd_disable] completes everything that is outstanding, with its
    error, and leaves the connection dead. *)
Lemma tdnbd_disable_ledger p w :
  let '(p', w') := tdnbd_disable p EIO w in
  slots_kept p p' /\ closed p' = 3 /\ ledger_step [] p w p' w'.
Proof.
  unfold tdnbd_disable.
  match goal with
  | |- context [cancel_each (sent_reqs p) EIO p ?w2] =>
    pose proof (cancel_each_effect (sent_reqs p) EIO p w2) as H1;
    pose proof (cancel_each_reqs (sent_reqs p) EIO p w2) as R1;
    destruct (cancel_each (sent_reqs p) EIO p w2) as [p1 w3]
  end.
  destruct H1 as (C1 & calls1 & Ht1 & Hc1). destruct R1 as [Rs1 Rl1].
  simpl in Rs1, Rl1, Ht1.
  pose proof (cancel_each_effect (pending_reqs p1) EIO p1 w3) as H2.
  pose proof (cancel_each_reqs (pending_reqs p1) EIO p1 w3) as R2.
  destruct (cancel_each (pending_reqs p1) EIO p1 w3) as [p2 w4].
  destruct H2 as (C2 & calls2 & Ht2 & Hc2). destruct R2 as [Rs2 Rl2].
  simpl in Rs2, Rl2.
  destruct C1 as (Hse1 & Hpe1 & _). destruct C2 as (Hse2 & Hpe2 & _).
  assert (Hs : same_reqs p p2) by (eapply same_reqs_trans; eassumption).
  split; [|split; [reflexivity|]].
  - apply slots_kept_frame; simpl; try congruence.
    intros i. apply Hs.
  - exists (map (fun i => (treq (slot p i), EIO))
              (sent_reqs p ++ pending_reqs p)).
    split.
    + rewrite Ht2, Ht1, !completions_app, Hc1, Hc2. simpl.
      rewrite !app_nil_r, map_app, Hpe1, <- app_assoc. do 2 f_equal.
      apply List.map_ext. intros i. f_equal. apply Rs1.
    + right. split; [reflexivity|]. split; [apply Forall_snd_map|].
      rewrite List.map_map. simpl. rewrite app_nil_r. unfold outstanding.
      apply Permutation_map. apply Permutation_app_comm.
Qed.

Section Ledger.

Variable E : env.
Variable N : nat.

(** The writer's loop over reads and writes completes nothing and moves
    entries from the pending to the sent list only. *)
Lemma writer_loop_ledger entries : forall p w,
  engine_inv N p -> types_rw p -> pending_reqs p = entries ->
  let '(_, p', w') := writer_loop E entries p w in
  same_reqs p p' /\ length (requests p') = length (requests p) /\
  closed p' = closed p /\ trace w' = trace w /\
  pending_reqs p' ++ sent_reqs p' ≡ₚ pending_reqs p ++ sent_reqs p.
Proof.
  induction entries as [|pos rest IH]; intros p w Hinv Hrw Hpend; simpl.
  - split; [apply same_reqs_refl|]. auto.
  - pose proof (tdnbd_write_some_trace E (header (slot p pos)) w) as Ht1.
    destruct (tdnbd_write_some E (header (slot p pos)) w) as [[rc h] w1].
    simpl in Ht1.
    set (p1 := update_slot pos (set_header h) p).
    assert (Hs1 : same_reqs p p1)
      by (apply same_reqs_update_slot; intros r; split; reflexivity).
    assert (Hl1 : length (requests p1) = length (requests p))
      by (unfold p1, update_slot; simpl; apply length_alter).
    assert (Hinv1 : engine_inv N p1)
      by (eapply engine_inv_frame; [..|exact Hinv]; reflexivity).
    destruct (rc >? 0); [auto 6|].
    set (type := nreq_type (nreq (slot p1 pos))).
    assert (Hin : pos ∈ pending_reqs p)
      by (rewrite Hpend; apply elem_of_cons; auto).
    assert (Hty : type = TAPDISK_NBD_CMD_READ \/ type = TAPDISK_NBD_CMD_WRITE).
    { unfold type. destruct (Hs1 pos) as [_ ->]. apply Hrw.
      apply elem_of_app. auto. }
    assert (Hd : (type =? TAPDISK_NBD_CMD_DISC) = false)
      by (destruct Hty as [-> | ->]; reflexivity).
    assert (Hbody : exists again p2 w2,
      (if type =? TAPDISK_NBD_CMD_WRITE
       then let '(rc2, b, w2) := tdnbd_write_some E (body (slot p1 pos)) w1 in
            (rc2 >? 0, update_slot pos (set_body b) p1, w2)
       else (false, p1, w1)) = (again, p2, w2) /\
      engine_inv N p2 /\ pending_reqs p2 = pending_reqs p /\
      sent_reqs p2 = sent_reqs p /\ same_reqs p p2 /\
      length (requests p2) = length (requests p) /\
      closed p2 = closed p /\ trace w2 = trace w).
    { destruct (type =? TAPDISK_NBD_CMD_WRITE).
      - pose proof (tdnbd_write_some_trace E (body (slot p1 pos)) w1) as Ht2.
        destruct (tdnbd_write_some E (body (slot p1 pos)) w1) as [[rc2 b] w2].
        simpl in Ht2.
        eexists _, _, _. split; [reflexivity|].
        split; [eapply engine_inv_frame; [..|exact Hinv1]; reflexivity|].
        split; [reflexivity|]. split; [reflexivity|].
        split.
        { eapply same_reqs_trans; [exact Hs1|].
          apply same_reqs_update_slot. intros r. split; reflexivity. }
        split.
        { unfold update_slot. simpl. rewrite !length_alter. reflexivity. }
        split; [reflexivity|congruence].
      - eexists _, _, _. split; [reflexivity|]. auto 8. }
    destruct Hbody as (again & p2 & w2 & -> & Hinv2 & Hpe2 & Hse2 & Hs2 & Hl2
                       & Hc2 & Ht2).
    destruct again; [rewrite Hpe2, Hse2; auto 6|].
    rewrite Hd. cbv beta iota zeta.
    assert (Hin2 : pos ∈ pending_reqs p2) by (rewrite Hpe2; exact Hin).
    pose proof (engine_inv_nodup _ _ Hinv2) as Hnd.
    destruct (all_reqs_disjoint p2 Hnd) as ((_ & Hndp & _) & _ & Hdp & _).
    assert (Hrest : list_del pos (pending_reqs p2) = rest).
    { rewrite Hpe2, Hpend. apply list_del_head.
      rewrite Hpe2, Hpend in Hndp. apply NoDup_cons in Hndp. tauto. }
    assert (Hsent : list_del pos (sent_reqs p2) = sent_reqs p2)
      by (apply list_del_notin; apply (Hdp pos Hin2)).
    set (p3 := list_move pos SentReqs p2).
    change (set_lists _ _ _ p2) with p3.
    assert (Hperm3 : pending_reqs p3 ++ sent_reqs p3 ≡ₚ
                     pending_reqs p ++ sent_reqs p).
    { simpl. rewrite Hrest, Hsent, Hse2, Hpend. simpl.
      symmetry. apply Permutation_middle. }
    assert (Hs3 : same_reqs p p3) by exact Hs2.
    assert (Hrw3 : types_rw p3).
    { intros i Hi. destruct (Hs3 i) as [_ ->]. apply Hrw.
      rewrite <- Hperm3. exact Hi. }
    specialize (IH p3 w2 (engine_inv_pending_to_sent N p2 pos Hinv2 Hin2)
                  Hrw3 Hrest).
    destruct (writer_loop E rest p3 w2) as [[ret p'] w'].
    destruct IH as (Hs' & Hl' & Hc' & Ht' & Hperm').
    split; [eapply same_reqs_trans; eassumption|].
    split; [rewrite Hl'; exact Hl2|].
    split; [rewrite Hc'; exact Hc2|].
    split; [congruence|].
    rewrite Hperm'. exact Hperm3.
Qed.

Lemma tdnbd_writer_cb_ledger p w :
  engine_inv N p -> types_rw p -> closed p = 0 \/ closed p = 3 ->
  let '(p', w') := tdnbd_writer_cb E p w in
  slots_kept p p' /\ closed p' = closed p /\
  completions (trace w') = completions (trace w) /\
  outstanding p' ≡ₚ outstanding p.
Proof.
  intros Hinv Hrw Hcl. unfold tdnbd_writer_cb.
  pose proof (writer_loop_ledger (pending_reqs p) p w Hinv Hrw eq_refl) as H.
  destruct (writer_loop E (pending_reqs p) p w) as [[returned p1] w1].
  destruct H as (Hs & Hl & Hc & Ht & Hperm).
  assert (Hk : slots_kept p p1).
  { split; [assumption|]. split; [assumption|].
    intros i. rewrite Hperm. auto. }
  assert (Ho : outstanding p1 ≡ₚ outstanding p)
    by (apply outstanding_perm; assumption).
  destruct returned.
  { split; [assumption|]. split; [assumption|]. split; [congruence|assumption]. }
  assert (Hq : let '(p2, w2) := disable_write_queue p1 w1 in
               slots_kept p p2 /\ closed p2 = closed p /\
               completions (trace w2) = completions (trace w) /\
               outstanding p2 ≡ₚ outstanding p).
  { unfold disable_write_queue. destruct (writer_event_id p1 <? 0).
    - split; [assumption|]. split; [assumption|]. split; [congruence|assumption].
    - split; [exact Hk|]. split; [exact Hc|]. split; [|exact Ho].
      simpl. rewrite completions_app, Ht. simpl. apply app_nil_r. }
  destruct (disable_write_queue p1 w1) as [p2 w2].
  destruct Hq as (Hk2 & Hc2 & Ht2 & Ho2).
  assert (Hne : (closed p2 =? 2) = false)
    by (rewrite Hc2; destruct Hcl as [-> | ->]; reflexivity).
  rewrite Hne. auto.
Qed.

(** Completing the request in slot [r] and taking it off the sent list. *)
Lemma reader_remove_state_ledger r p w :
  engine_inv N p -> r ∈ sent_reqs p ->
  let '(p', w') :=
    reader_remove_state r false p (emit (EvComplete (treq (slot p r)) 0) w) in
  slots_kept p p' /\ closed p' = closed p /\
  (closed p = 0 -> ledger_step [] p w p' w').
Proof.
  intros Hinv Hin.
  pose proof (engine_inv_nodup _ _ Hinv) as Hnd.
  destruct (all_reqs_disjoint p Hnd) as ((_ & _ & Hnds) & _ & _ & Hds).
  assert (Hpe : list_del r (pending_reqs p) = pending_reqs p)
    by (apply list_del_notin; apply (Hds r Hin)).
  pose proof (list_del_perm r (sent_reqs p) Hnds Hin) as Hperm.
  set (res := reader_remove_state r false p
                (emit (EvComplete (treq (slot p r)) 0) w)).
  assert (Hs : same_reqs p (fst res)) by (intros i; split; reflexivity).
  assert (Hl : length (requests (fst res)) = length (requests p))
    by reflexivity.
  assert (Hcl : closed (fst res) = closed p) by reflexivity.
  assert (Hpe' : pending_reqs (fst res) = pending_reqs p) by exact Hpe.
  assert (Hse' : sent_reqs (fst res) = list_del r (sent_reqs p))
    by reflexivity.
  assert (Ht : completions (trace (snd res)) =
               completions (trace w) ++ [(treq (slot p r), 0)]).
  { unfold res, reader_remove_state. cbv beta iota zeta.
    destruct (timeout_event _ >=? 0); simpl;
      rewrite !completions_app; simpl; rewrite ?app_nil_r; reflexivity. }
  clearbody res. destruct res as [p' w']. simpl in Hs, Hl, Hcl, Hpe', Hse', Ht.
  split; [|split; [exact Hcl|]].
  - split; [exact Hs|]. split; [exact Hl|].
    intros i. rewrite Hpe', Hse', !elem_of_app. intros [Hi|Hi]; [auto|].
    right. apply list_elem_of_filter in Hi. tauto.
  - intros Hc. exists [(treq (slot p r), 0)]. split; [exact Ht|].
    left. split; [congruence|]. split; [repeat constructor|].
    simpl. unfold outstanding. rewrite Hpe', Hse'.
    erewrite List.map_ext; [|intros i; apply Hs].
    change (treq (slot p r) :: map (fun i => treq (slot p i))
              (pending_reqs p ++ list_del r (sent_reqs p)))
      with (map (fun i => treq (slot p i))
              (r :: pending_reqs p ++ list_del r (sent_reqs p))).
    rewrite app_nil_r. apply Permutation_map.
    rewrite <- Hperm at 2. apply Permutation_middle.
Qed.

Lemma tdnbd_reader_cb_ledger p w :
  engine_inv N p -> types_rw p ->
  let '(p', w') := tdnbd_reader_cb E p w in
  slots_kept p p' /\ (closed p' = closed p \/ closed p' = 3) /\
  (closed p = 0 -> ledger_step [] p w p' w').
Proof.
  intros Hinv Hrw. unfold tdnbd_reader_cb.
  pose proof (tdnbd_read_some_trace E (cur_reply_qio p) w) as Ht1.
  destruct (tdnbd_read_some E (cur_reply_qio p) w) as [[rc q] w1].
  simpl in Ht1.
  set (p1 := set_cur_reply_qio q p).
  assert (Hdis : forall p2 w2,
    same_reqs p p2 -> length (requests p2) = length (requests p) ->
    pending_reqs p2 = pending_reqs p -> sent_reqs p2 = sent_reqs p ->
    trace w2 = trace w ->
    let '(p', w') := tdnbd_disable p2 EIO w2 in
    slots_kept p p' /\ (closed p' = closed p \/ closed p' = 3) /\
    (closed p = 0 -> ledger_step [] p w p' w')).
  { intros p2 w2 Hs Hl Hpe Hse Ht.
    pose proof (tdnbd_disable_ledger p2 w2) as H.
    destruct (tdnbd_disable p2 EIO w2) as [p' w'].
    destruct H as (Hk & Hc & Hled).
    split; [|split; [auto|]].
    - eapply slots_kept_trans; [|exact Hk]. apply slots_kept_frame; assumption.
    - intros _. eapply ledger_step_from; [| |exact Hled].
      + apply outstanding_eq; assumption.
      + congruence. }
  assert (Hidle : forall p2 w2,
    same_reqs p p2 -> length (requests p2) = length (requests p) ->
    pending_reqs p2 = pending_reqs p -> sent_reqs p2 = sent_reqs p ->
    closed p2 = closed p -> trace w2 = trace w ->
    slots_kept p p2 /\ (closed p2 = closed p \/ closed p2 = 3) /\
    (closed p = 0 -> ledger_step [] p w p2 w2)).
  { intros p2 w2 Hs Hl Hpe Hse Hc Ht.
    split; [apply slots_kept_frame; assumption|]. split; [auto|].
    intros Hc0. apply ledger_step_none; [congruence| |congruence].
    apply outstanding_eq; assumption. }
  assert (Hdone : forall r p2 w2,
    r ∈ sent_reqs p2 -> engine_inv N p2 ->
    same_reqs p p2 -> length (requests p2) = length (requests p) ->
    pending_reqs p2 = pending_reqs p -> sent_reqs p2 = sent_reqs p ->
    closed p2 = closed p -> trace w2 = trace w ->
    let '(p', w') :=
      reader_remove_state r false p2
        (emit (EvComplete (treq (slot p2 r)) 0) w2) in
    slots_kept p p' /\ (closed p' = closed p \/ closed p' = 3) /\
    (closed p = 0 -> ledger_step [] p w p' w')).
  { intros r p2 w2 Hin Hinv2 Hs Hl Hpe Hse Hc Ht.
    pose proof (reader_remove_state_ledger r p2 w2 Hinv2 Hin) as H.
    destruct (reader_remove_state r false p2 _) as [p' w'].
    destruct H as (Hk & Hc' & Hled).
    split; [|split; [left; congruence|]].
    - eapply slots_kept_trans; [|exact Hk]. apply slots_kept_frame; assumption.
    - intros Hc0. eapply ledger_step_from; [| |apply Hled; congruence].
      + apply outstanding_eq; assumption.
      + congruence. }
  assert (Hs1 : same_reqs p p1) by (intros i; split; reflexivity).
  assert (Hinv1 : engine_inv N p1)
    by (eapply engine_inv_frame; [..|exact Hinv]; reflexivity).
  destruct (rc <? 0); [apply Hdis; auto|].
  destruct (rc >? 0); [apply Hidle; auto|].
  destruct (negb (current_reply_error p1 =? 0)); [apply Hdis; auto|].
  assert (Hfound : forall r,
    match curr_reply_req p1 with
    | Some r => Some r
    | None => find_sent p1 (sent_reqs p1)
    end = Some r -> r ∈ sent_reqs p1).
  { intros r. destruct (curr_reply_req p1) as [r'|] eqn:Hcur.
    - intros [= <-]. apply Hinv1. assumption.
    - apply find_sent_elem. }
  destruct (match curr_reply_req p1 with
            | Some r => Some r
            | None => find_sent p1 (sent_reqs p1)
            end) as [r|]; [|apply Hdis; auto].
  specialize (Hfound r eq_refl).
  set (p2 := set_curr_reply_req (Some r) p1).
  assert (Hinv2 : engine_inv N p2).
  { destruct Hinv1 as (Hnr & Hperm & _). split; [|split]; try assumption.
    simpl. intros r' [= <-]. exact Hfound. }
  assert (Hty : nreq_type (nreq (slot p2 r)) = TAPDISK_NBD_CMD_READ \/
                nreq_type (nreq (slot p2 r)) = TAPDISK_NBD_CMD_WRITE).
  { apply (Hrw r). apply elem_of_app. right. exact Hfound. }
  destruct Hty as [Hty|Hty]; rewrite Hty.
  - change (TAPDISK_NBD_CMD_READ =? TAPDISK_NBD_CMD_READ) with true.
    cbv beta iota.
    pose proof (tdnbd_read_some_trace E (body (slot p2 r)) w1) as Ht2.
    destruct (tdnbd_read_some E (body (slot p2 r)) w1) as [[rc2 b] w2].
    simpl in Ht2.
    set (p3 := update_slot r (set_body b) p2).
    assert (Hs3 : same_reqs p p3).
    { eapply same_reqs_trans; [exact Hs1|].
      apply (same_reqs_update_slot r (set_body b) p2).
      intros x. split; reflexivity. }
    assert (Hl3 : length (requests p3) = length (requests p))
      by (unfold p3, update_slot; simpl; apply length_alter).
    assert (Hinv3 : engine_inv N p3)
      by (eapply engine_inv_frame; [..|exact Hinv2]; reflexivity).
    destruct (rc2 <? 0); [apply Hdis; auto; congruence|].
    destruct (rc2 >? 0); [apply Hidle; auto; congruence|].
    apply Hdone; auto; congruence.
  - change (TAPDISK_NBD_CMD_WRITE =? TAPDISK_NBD_CMD_READ) with false.
    change (TAPDISK_NBD_CMD_WRITE =? TAPDISK_NBD_CMD_WRITE) with true.
    cbv beta iota.
    apply Hdone; auto.
Qed.

(** An enqueue of a read or a write. *)
Lemma tdnbd_queue_request_ledger p type offset buf length tr fk w rc p' w' :
  live_inv N p ->
  type = TAPDISK_NBD_CMD_READ \/ type = TAPDISK_NBD_CMD_WRITE ->
  tdnbd_queue_request E p type offset buf length tr fk w = Some (rc, p', w') ->
  List.length (requests p') = List.length (requests p) /\ types_rw p' /\
  closed p' = closed p /\
  (closed p = 0 -> ledger_step (if rc =? 0 then [tr] else []) p w p' w').
Proof.
  intros (Hinv & Hlen & Hrw & Hcl) Hty. unfold tdnbd_queue_request.
  destruct (nr_free_count p =? 0).
  { intros [= <- <- <-]. repeat split; try assumption.
    intros Hc. apply ledger_step_none; auto. }
  destruct (closed p =? 3) eqn:Hc3.
  { intros [= <- <- <-]. repeat split; try assumption.
    intros Hc. rewrite Hc in Hc3. discriminate. }
  destruct (free_reqs p) as [|req rest] eqn:Hfree; [discriminate|].
  match goal with
  | |- context [update_slot req (fun _ => ?r0) p] =>
    set (r := r0); set (p1 := update_slot req (fun _ => r) p)
  end.
  set (p3 := set_nr_free_count
               (nr_free_count (list_move_tail req PendingReqs p1) - 1)
               (list_move_tail req PendingReqs p1)).
  pose proof (engine_inv_nodup _ _ Hinv) as Hnd.
  destruct (all_reqs_disjoint p Hnd) as (_ & Hdf & _).
  assert (Hinf : req ∈ free_reqs p) by (rewrite Hfree; apply elem_of_cons; auto).
  destruct (Hdf req Hinf) as [Hnp Hns].
  assert (Hlt : (req < List.length (requests p))%nat).
  { rewrite Hlen. destruct Hinv as (_ & Hperm & _).
    assert (Hin : req ∈ seq 0 N).
    { rewrite <- Hperm. unfold all_reqs. apply elem_of_app. auto. }
    apply elem_of_seq in Hin. lia. }
  assert (Hslot : forall i,
    slot p3 i = if decide (i = req) then r else slot p i).
  { intros i. change (slot p3 i) with (slot p1 i). unfold p1.
    rewrite slot_update_slot. destruct (decide (i = req)) as [->|]; [|reflexivity].
    destruct (lookup_lt_is_Some_2 (requests p) req Hlt) as [x ->]. reflexivity. }
  assert (Hpe3 : pending_reqs p3 = pending_reqs p ++ [req]).
  { simpl. rewrite list_del_notin by assumption. reflexivity. }
  assert (Hse3 : sent_reqs p3 = sent_reqs p).
  { simpl. apply list_del_notin. assumption. }
  assert (Hl3 : List.length (requests p3) = List.length (requests p))
    by (unfold p3, p1, update_slot; simpl; apply length_alter).
  assert (Hrw3 : types_rw p3).
  { intros i. rewrite Hpe3, Hse3, Hslot. intros Hi.
    destruct (decide (i = req)) as [->|Hne].
    - unfold r. simpl. destruct Hty as [-> | ->]; [left|right]; reflexivity.
    - apply Hrw. rewrite !elem_of_app in *.
      destruct Hi as [[Hi|Hi]|Hi]; auto.
      apply list_elem_of_singleton in Hi. contradiction. }
  assert (Ho3 : outstanding p3 ≡ₚ outstanding p ++ [tr]).
  { unfold outstanding. rewrite Hpe3, Hse3.
    assert (Hext : forall l, req ∉ l ->
      map (fun i => treq (slot p3 i)) l = map (fun i => treq (slot p i)) l).
    { intros l Hnl. apply List.map_ext_in. intros i Hi.
      apply list_elem_of_In in Hi. rewrite Hslot.
      destruct (decide (i = req)) as [->|]; [contradiction|reflexivity]. }
    rewrite !map_app, (Hext _ Hnp), (Hext _ Hns). simpl.
    rewrite Hslot. destruct (decide (req = req)); [|congruence].
    change (treq r) with tr.
    rewrite <- !app_assoc. apply Permutation_app_head.
    apply (Permutation_app_comm [tr]). }
  assert (Hfin : forall p4 w4,
    same_reqs p3 p4 -> List.length (requests p4) = List.length (requests p3) ->
    pending_reqs p4 = pending_reqs p3 -> sent_reqs p4 = sent_reqs p3 ->
    closed p4 = closed p -> completions (trace w4) = completions (trace w) ->
    List.length (requests p4) = List.length (requests p) /\ types_rw p4 /\
    closed p4 = closed p /\ (closed p = 0 -> ledger_step [tr] p w p4 w4)).
  { intros p4 w4 Hs4 Hl4 Hpe4 Hse4 Hc4 Ht4.
    split; [congruence|]. split.
    { eapply types_rw_kept; [|exact Hrw3]. apply slots_kept_frame; assumption. }
    split; [assumption|]. intros Hc. exists []. rewrite app_nil_r.
    split; [assumption|]. left. split; [congruence|]. split; [constructor|].
    simpl. rewrite (outstanding_eq p3 p4) by assumption. exact Ho3. }
  destruct (writer_event_id p3 <? 0).
  - unfold enable_write_queue. destruct (writer_event_id p3 >=? 0).
    + intros [= <- <- <-]. apply Hfin; try reflexivity. apply same_reqs_refl.
    + cbn [register_event]. intros [= <- <- <-].
      apply Hfin; try reflexivity.
      * intros i. split; reflexivity.
      * simpl. rewrite completions_app. simpl. apply app_nil_r.
  - intros [= <- <- <-]. apply Hfin; try reflexivity. apply same_reqs_refl.
Qed.

(** One operation: the invariant, the dead state is final, the ledger. *)
Lemma engine_step_ledger op p w p' w' :
  live_inv N p -> read_or_write op ->
  engine_step E op p w = Some (p', w') ->
  live_inv N p' /\ (closed p = 3 -> closed p' = 3) /\
  (closed p = 0 -> ledger_step (accepted_by E op p w) p w p' w').
Proof.
  intros Hlive Hop Hstep.
  pose proof Hlive as (Hinv & Hlen & Hrw & Hcl).
  destruct (engine_step_inv E N op p w Hinv) as (p'' & w'' & Hstep' & Hinv' & _).
  rewrite Hstep in Hstep'. injection Hstep' as <- <-.
  destruct op as [type offset buf length tr fk| |]; simpl in *.
  - destruct (tdnbd_queue_request E p type offset buf length tr fk w)
      as [[[rc p1] w1]|] eqn:Hq; [|discriminate].
    injection Hstep as <- <-.
    destruct (tdnbd_queue_request_ledger _ _ _ _ _ _ _ _ _ _ _ Hlive Hop Hq)
      as (Hl' & Hrw' & Hc' & Hled).
    split; [|split; [congruence|assumption]].
    split; [assumption|]. split; [congruence|]. split; [assumption|].
    rewrite Hc'. assumption.
  - injection Hstep as Hstep.
    pose proof (tdnbd_writer_cb_ledger p w Hinv Hrw Hcl) as H.
    rewrite Hstep in H. destruct H as (Hk & Hc' & Ht & Ho).
    split; [|split; [congruence|]].
    + split; [assumption|]. split; [destruct Hk as (_ & -> & _); assumption|].
      split; [eapply types_rw_kept; eassumption|]. rewrite Hc'. assumption.
    + intros Hc. exists []. rewrite app_nil_r. split; [assumption|].
      left. split; [congruence|]. split; [constructor|].
      simpl. rewrite app_nil_r. exact Ho.
  - injection Hstep as Hstep.
    pose proof (tdnbd_reader_cb_ledger p w Hinv Hrw) as H.
    rewrite Hstep in H. destruct H as (Hk & Hc' & Hled).
    split; [|split; [|assumption]].
    + split; [assumption|]. split; [destruct Hk as (_ & -> & _); assumption|].
      split; [eapply types_rw_kept; eassumption|].
      destruct Hc' as [-> | ->]; auto.
    + intros Hc. destruct Hc' as [Hc'|Hc']; congruence.
Qed.

Lemma engine_run_live ops : forall p w p' w',
  live_inv N p -> Forall read_or_write ops ->
  engine_run E ops p w = Some (p', w') ->
  live_inv N p' /\ (closed p = 3 -> closed p' = 3).
Proof.
  induction ops as [|op rest IH]; intros p w p' w' Hlive Hops; simpl.
  - intros [= <- <-]. auto.
  - apply Forall_cons in Hops as [Hop Hrest].
    destruct (engine_step E op p w) as [[p1 w1]|] eqn:Hstep; [|discriminate].
    intros Hrun.
    destruct (engine_step_ledger op p w p1 w1 Hlive Hop Hstep) as (Hl1 & Hd1 & _).
    destruct (IH p1 w1 p' w' Hl1 Hrest Hrun) as (Hl' & Hd').
    auto.
Qed.

(** A run that leaves the connection open. *)
Lemma engine_run_ledger ops : forall p w p' w',
  live_inv N p -> closed p = 0 -> Forall read_or_write ops ->
  engine_run E ops p w = Some (p', w') -> closed p' = 0 ->
  exists done,
    completions (trace w') = completions (trace w) ++ done /\
    Forall (fun c => snd c = 0) done /\
    map fst done ++ outstanding p' ≡ₚ outstanding p ++ engine_accepted E ops p w.
Proof.
  induction ops as [|op rest IH]; intros p w p' w' Hlive Hc Hops; simpl.
  - intros [= <- <-] _. exists []. rewrite !app_nil_r. auto.
  - apply Forall_cons in Hops as [Hop Hrest].
    destruct (engine_step E op p w) as [[p1 w1]|] eqn:Hstep; [|discriminate].
    intros Hrun Hc'.
    destruct (engine_step_ledger op p w p1 w1 Hlive Hop Hstep)
      as (Hl1 & _ & Hled).
    destruct (engine_run_live rest p1 w1 p' w' Hl1 Hrest Hrun) as (_ & Hdead).
    destruct (Hled Hc) as (done1 & Ht1 & [(Hc1 & Hok1 & Hp1)|(Hc1 & _)]);
      [|specialize (Hdead Hc1); lia].
    destruct (IH p1 w1 p' w' Hl1 Hc1 Hrest Hrun Hc')
      as (done2 & Ht2 & Hok2 & Hp2).
    exists (done1 ++ done2). split; [|split].
    + rewrite Ht2, Ht1, app_assoc. reflexivity.
    + apply Forall_app. auto.
    + rewrite map_app, <- app_assoc, Hp2, !app_assoc, Hp1. reflexivity.
Qed.

End Ledger.

Lemma tdnbd_open_live E fuel N sock fl drv0 w0 p0 drv w1 :
  tdnbd_open E fuel N sock fl drv0 w0 = Some (0, p0, drv, w1) ->
  live_inv N p0 /\ closed p0 = 0 /\ outstanding p0 = [].
Proof.
  intros Hopen.
  destruct (tdnbd_open_inv _ _ _ _ _ _ _ _ _ _ Hopen) as (Hinv & _ & Hc).
  revert Hopen. unfold tdnbd_open.
  destruct (tdnbd_nbd_negotiate E fuel _ _ w0) as [[[rc drv1] w']|];
    [|discriminate].
  destruct (negb (rc =? 0)); [discriminate|].
  simpl. intros [= <- <- <-].
  unfold open_engine_state in *.
  match goal with
  | |- context [open_link_slots N 0 ?p] =>
    destruct (open_link_slots_lists N 0 p) as (_ & Hp & Hs & _);
    assert (Hl : forall n i q,
      length (requests (open_link_slots n i q)) = length (requests q))
  end.
  { induction n as [|n IH]; intros i q; simpl; [reflexivity|].
    rewrite IH. simpl. apply length_alter. }
  simpl in Hp, Hs.
  assert (Hnone : forall A (f : nat -> A) q,
    pending_reqs q = [] -> sent_reqs q = [] ->
    map f (pending_reqs q ++ sent_reqs q) = []).
  { intros A f q -> ->. reflexivity. }
  split; [|split; [reflexivity|]].
  - split; [exact Hinv|]. split.
    + simpl. rewrite Hl. simpl. apply length_replicate.
    + split; [|auto]. intros i. simpl. rewrite Hp, Hs. simpl.
      intros Hi. apply elem_of_nil in Hi. contradiction.
  - unfold outstanding. simpl. rewrite Hp, Hs. reflexivity.
Qed.

(** X9: on a connection that was opened and is still open, with reads
    and writes queued through it, every request that was accepted is
    either completed, once and without error, or still queued or sent,
    once: none is lost and none is completed twice. *)
Theorem accepted_requests_accounted (E : env) (fuel N : nat) (sock fl : Z)
  (drv0 drv : td_disk_info) (w0 w1 w : world) (p0 p : tdnbd_data)
  (ops : list engine_op) :
  tdnbd_open E fuel N sock fl drv0 w0 = Some (0, p0, drv, w1) ->
  Forall read_or_write ops ->
  engine_run E ops p0 w1 = Some (p, w) ->
  closed p = 0 ->
  exists done,
    completions (trace w) = completions (trace w1) ++ done /\
    Forall (fun c => snd c = 0) done /\
    map fst done ++ outstanding p ≡ₚ engine_accepted E ops p0 w1.
Proof.
  intros Hopen Hops Hrun Hc.
  destruct (tdnbd_open_live _ _ _ _ _ _ _ _ _ _ Hopen) as (Hlive & Hc0 & Ho).
  destruct (engine_run_ledger E N ops p0 w1 p w Hlive Hc0 Hops Hrun Hc)
    as (done & Ht & Hok & Hp).
  rewrite Ho in Hp. eauto.
Qed.

Lemma accepted_requests_accounted_witness :
  let E := env_two_replies in
  let p0 := fst (opened E 2) in
  let w1 := snd (opened E 2) in
  let r := state_of (engine_run E session_ops p0 w1) in
  exists done,
    completions (trace (snd r)) = completions (trace w1) ++ done /\
    Forall (fun c => snd c = 0) done /\
    map fst done ++ outstanding (fst r) ≡ₚ engine_accepted E session_ops p0 w1.
Proof.
  intros E p0 w1 r.
  apply (accepted_requests_accounted E 124 2 3 0 (mk_info 0 0 0)
           (mk_info 16777216 512 0) world0 w1 (snd r) p0 (fst r) session_ops).
  - vm_compute. reflexivity.
  - unfold session_ops.
    repeat match goal with |- Forall _ _ => constructor end; simpl; auto.
  - vm_compute. reflexivity.
  - vm_compute. reflexivity.
Defined.

(** X10: when a callback finds the connection broken and disables it,
    every request that was accepted since the open has been completed
    exactly once: those that were answered with 0, all the others with
    EIO. *)
Theorem connection_death_completes_all (E : env) (fuel N : nat) (sock fl : Z)
  (drv0 drv : td_disk_info) (w0 w1 wm w : world) (p0 pm p : tdnbd_data)
  (ops : list engine_op) (op : engine_op) :
  tdnbd_open E fuel N sock fl drv0 w0 = Some (0, p0, drv, w1) ->
  Forall read_or_write ops ->
  engine_run E ops p0 w1 = Some (pm, wm) ->
  closed pm = 0 ->
  read_or_write op ->
  engine_step E op pm wm = Some (p, w) ->
  closed p <> 0 ->
  exists done failed,
    completions (trace w) = completions (trace w1) ++ done ++ failed /\
    Forall (fun c => snd c = 0) done /\
    Forall (fun c => snd c = EIO) failed /\
    map fst (done ++ failed) ≡ₚ engine_accepted E ops p0 w1.
Proof.
  intros Hopen Hops Hrun Hcm Hop Hstep Hc.
  destruct (tdnbd_open_live _ _ _ _ _ _ _ _ _ _ Hopen) as (Hlive & Hc0 & Ho).
  destruct (engine_run_ledger E N ops p0 w1 pm wm Hlive Hc0 Hops Hrun Hcm)
    as (done & Ht & Hok & Hp).
  destruct (engine_run_live E N ops p0 w1 pm wm Hlive Hops Hrun) as (Hlm & _).
  destruct (engine_step_ledger E N op pm wm p w Hlm Hop Hstep) as (_ & _ & Hled).
  destruct (Hled Hcm) as (failed & Ht' & [(Hc' & _)|(_ & Hf & Hpf)]);
    [contradiction|].
  assert (Hacc : accepted_by E op pm wm = []).
  { destruct op as [type offset buf length tr fk| |]; try reflexivity.
    simpl in *.
    destruct (tdnbd_queue_request E pm type offset buf length tr fk wm)
      as [[[rc p1] w2]|] eqn:Hq; [|reflexivity].
    injection Hstep as <- <-.
    destruct (tdnbd_queue_request_ledger E N _ _ _ _ _ _ _ _ _ _ _ Hlm Hop Hq)
      as (_ & _ & Hc' & _).
    congruence. }
  rewrite Hacc, app_nil_r in Hpf. rewrite Ho in Hp. simpl in Hp.
  exists done, failed. split; [|split; [|split]]; try assumption.
  - rewrite Ht', Ht, app_assoc. reflexivity.
  - rewrite map_app, Hpf. exact Hp.
Qed.

Lemma connection_death_completes_all_witness :
  let E := env_peer_closes in
  let p0 := fst (opened E 2) in
  let w1 := snd (opened E 2) in
  let ops :=
    [QueueRequest TAPDISK_NBD_CMD_READ 0 (replicate 512 NUL) 512
       (mk_treq 0 1 7) 0;
     QueueRequest TAPDISK_NBD_CMD_READ 512 (replicate 512 NUL) 512
       (mk_treq 1 1 8) 0;
     WriterCb] in
  let m := state_of (engine_run E ops p0 w1) in
  let r := state_of (engine_step E ReaderCb (fst m) (snd m)) in
  exists done failed,
    completions (trace (snd r)) = completions (trace w1) ++ done ++ failed /\
    Forall (fun c => snd c = 0) done /\
    Forall (fun c => snd c = EIO) failed /\
    map fst (done ++ failed) ≡ₚ engine_accepted E ops p0 w1.
Proof.
  intros E p0 w1 ops m r.
  apply (connection_death_completes_all E 124 2 3 0 (mk_info 0 0 0)
           (mk_info 16777216 512 0) world0 w1 (snd m) (snd r) p0 (fst m)
           (fst r) ops ReaderCb).
  - vm_compute. reflexivity.
  - unfold ops.
    repeat match goal with |- Forall _ _ => constructor end; simpl; auto.
  - vm_compute. reflexivity.
  - vm_compute. reflexivity.
  - exact I.
  - vm_compute. reflexivity.
  - vm_compute. discriminate.
Defined.

(** ** Close *)

Lemma tdnbd_write_some_all E q w n :
  env_send E (n_send w) = SendTakes n ->
  0 < len q - so_far q <= Z.of_nat n ->
  tdnbd_write_some E q w =
    (0, advance (len q - so_far q) q, did_send (len q - so_far q) w).
Proof.
  intros Hs Hl. unfold tdnbd_write_some.
  destruct (Z.to_nat (len q - so_far q)) as [|fuel] eqn:Hf; [lia|].
  cbn [write_some_loop]. unfold sys_send. rewrite Hs.
  destruct (len q - so_far q >? 0) eqn:Hgt; [|lia].
  rewrite Z.min_r by lia.
  destruct (len q - so_far q =? -1) eqn:H1; [lia|].
  destruct (len q - so_far q =? 0) eqn:H0; [lia|].
  rewrite Z.sub_diag. destruct fuel; reflexivity.
Qed.

Lemma cancel_each_bytes l e : forall p w,
  bytes_out (snd (cancel_each l e p w)) = bytes_out w.
Proof.
  induction l as [|pos rest IH]; intros p w; simpl; [reflexivity|].
  unfold __cancel_req. destruct (timeout_event (slot p pos) >=? 0);
    rewrite IH; reflexivity.
Qed.

Lemma cancel_each_socket l e : forall p w,
  socket (fst (cancel_each l e p w)) = socket p /\
  flags (fst (cancel_each l e p w)) = flags p.
Proof.
  induction l as [|pos rest IH]; intros p w; simpl; [auto|].
  unfold __cancel_req. destruct (timeout_event (slot p pos) >=? 0);
    match goal with
    | |- context [cancel_each rest e ?p1 ?w1] =>
      destruct (IH p1 w1) as [-> ->]
    end; auto.
Qed.

Lemma tdnbd_disable_socket p e w :
  socket (fst (tdnbd_disable p e w)) = socket p /\
  flags (fst (tdnbd_disable p e w)) = flags p.
Proof.
  unfold tdnbd_disable.
  match goal with
  | |- context [cancel_each (sent_reqs p) e p ?w2] =>
    pose proof (cancel_each_socket (sent_reqs p) e p w2) as H1;
    destruct (cancel_each (sent_reqs p) e p w2) as [p1 w3]
  end.
  pose proof (cancel_each_socket (pending_reqs p1) e p1 w3) as H2.
  destruct (cancel_each (pending_reqs p1) e p1 w3) as [p2 w4].
  simpl in *. destruct H1 as [<- <-]. exact H2.
Qed.

Lemma tdnbd_disable_bytes p e w :
  bytes_out (snd (tdnbd_disable p e w)) = bytes_out w.
Proof.
  unfold tdnbd_disable.
  match goal with
  | |- context [cancel_each (sent_reqs p) e p ?w2] =>
    pose proof (cancel_each_bytes (sent_reqs p) e p w2) as H1;
    destruct (cancel_each (sent_reqs p) e p w2) as [p1 w3]
  end.
  pose proof (cancel_each_bytes (pending_reqs p1) e p1 w3) as H2.
  destruct (cancel_each (pending_reqs p1) e p1 w3) as [p2 w4].
  simpl in *. congruence.
Qed.

(** X11: closing a connection that is already dead closes the socket if
    it is still open, never puts it back into the stash, sends nothing
    and completes nothing; a second close does nothing at all. *)
Theorem close_dead_connection (E : env) (name : option (list ascii))
  (p : tdnbd_data) (w : world) :
  closed p = 3 ->
  exists p' w',
    tdnbd_close E name p w = Some (0, p', w') /\
    socket p' = -1 /\
    trace w' = trace w ++ (if socket p >=? 0 then [EvClose (socket p)] else []) /\
    passed_fds w' = passed_fds w /\ bytes_out w' = bytes_out w /\
    tdnbd_close E name p' w' = Some (0, p', w').
Proof.
  intros Hc. unfold tdnbd_close. rewrite Hc.
  change (3 =? 3) with true. cbv beta iota.
  eexists _, _. split; [reflexivity|].
  split; [reflexivity|].
  split; [destruct (socket p >=? 0); simpl; auto using app_nil_r|].
  split; [destruct (socket p >=? 0); reflexivity|].
  split; [destruct (socket p >=? 0); reflexivity|].
  simpl. rewrite Hc. reflexivity.
Qed.

Lemma close_dead_connection_witness :
  exists p' w',
    tdnbd_close env_idle (Some (cstring "a")) dead_connection world0
      = Some (0, p', w') /\
    socket p' = -1 /\
    trace w' = trace world0 ++
      (if socket dead_connection >=? 0
       then [EvClose (socket dead_connection)] else []) /\
    passed_fds w' = passed_fds world0 /\ bytes_out w' = bytes_out world0 /\
    tdnbd_close env_idle (Some (cstring "a")) p' w' = Some (0, p', w').
Proof.
  apply (close_dead_connection env_idle (Some (cstring "a")) dead_connection
           world0).
  reflexivity.
Defined.

Section CloseFacts.

Variable E : env.
Variable N : nat.

(** The writer's loop over a single disconnect request whose header the
    socket takes at once. *)
Lemma writer_loop_disc p w req r hb n :
  requests p !! req = Some r ->
  nreq_type (nreq r) = TAPDISK_NBD_CMD_DISC ->
  header r = mk_qio hb SIZEOF_NBD_REQUEST 0 ->
  env_send E (n_send w) = SendTakes n -> (28 <= n)%nat ->
  writer_loop E [req] p w =
    (false,
     set_closed 2
       (set_nr_free_count (nr_free_count p + 1)
          (list_move req FreeReqs
             (update_slot req (set_header (advance 28 (header r))) p))),
     did_send 28 w).
Proof.
  intros Hr Hty Hh Hs Hn. cbn [writer_loop].
  assert (Hslot : slot p req = r) by (unfold slot; rewrite Hr; reflexivity).
  rewrite Hslot.
  rewrite (tdnbd_write_some_all E (header r) w n Hs)
    by (rewrite Hh; unfold SIZEOF_NBD_REQUEST; simpl; lia).
  replace (len (header r) - so_far (header r)) with 28
    by (rewrite Hh; reflexivity).
  change (0 >? 0) with false. cbv beta iota.
  rewrite slot_update_slot. destruct (decide (req = req)); [|congruence].
  rewrite Hr. change (nreq (set_header _ r)) with (nreq r). rewrite Hty.
  reflexivity.
Qed.

(** X12: closing an open connection on which nothing waits to be
    written, which has a free slot and whose socket takes the 28 bytes of
    a request header at once: the disconnect request goes out, every
    request that is still unanswered is completed once with EIO, the
    connection is dead, and then the socket goes to the stash under the
    connection's name, or is closed if it has none. *)
Theorem close_sends_disconnect (name : option (list ascii)) (p : tdnbd_data)
  (w : world) (n : nat) :
  live_inv N p -> closed p = 0 -> pending_reqs p = [] ->
  nr_free_count p <> 0 ->
  env_send E (n_send w) = SendTakes n -> (28 <= n)%nat ->
  exists p' w4 w' failed,
    tdnbd_close E name p w = Some (0, p', w') /\
    closed p' = 3 /\ nr_free_count p' = nr_free_count p /\
    bytes_out w4 = bytes_out w + 28 /\
    completions (trace w4) = completions (trace w) ++ failed /\
    Forall (fun c => snd c = EIO) failed /\
    map fst failed ≡ₚ outstanding p /\
    match name with
    | Some nm =>
      socket p' = socket p /\ w' = tdnbd_stash_passed_fd (socket p) nm w4
    | None =>
      socket p' = -1 /\
      w' = if socket p >=? 0 then emit (EvClose (socket p)) w4 else w4
    end.
Proof.
  intros (Hinv & Hlen & Hrw & _) Hc Hpend Hnr Hs Hn.
  unfold tdnbd_close. rewrite Hc. change (0 =? 3) with false. cbv beta iota.
  unfold tdnbd_queue_request.
  destruct (nr_free_count p =? 0) eqn:Hnr0; [lia|].
  rewrite Hc. change (0 =? 3) with false. cbv beta iota.
  destruct (free_reqs p) as [|req rest] eqn:Hfree.
  { destruct Hinv as (Hcnt & _). rewrite Hfree in Hcnt. simpl in Hcnt. lia. }
  match goal with
  | |- context [update_slot req (fun _ => ?r0) p] =>
    set (r := r0); set (p1 := update_slot req (fun _ => r) p)
  end.
  set (p3 := set_nr_free_count
               (nr_free_count (list_move_tail req PendingReqs p1) - 1)
               (list_move_tail req PendingReqs p1)).
  pose proof (engine_inv_nodup _ _ Hinv) as Hnd.
  destruct (all_reqs_disjoint p Hnd) as ((Hndf & _) & Hdf & _).
  assert (Hinf : req ∈ free_reqs p) by (rewrite Hfree; apply elem_of_cons; auto).
  destruct (Hdf req Hinf) as [_ Hns].
  assert (Hlt : (req < List.length (requests p))%nat).
  { rewrite Hlen. destruct Hinv as (_ & Hperm & _).
    assert (Hin : req ∈ seq 0 N).
    { rewrite <- Hperm. unfold all_reqs. apply elem_of_app. auto. }
    apply elem_of_seq in Hin. lia. }
  assert (Hr3 : requests p3 !! req = Some r).
  { change (requests p3) with (alter (fun _ => r) req (requests p)).
    rewrite list_lookup_alter_eq.
    destruct (lookup_lt_is_Some_2 (requests p) req Hlt) as [x ->]. reflexivity. }
  assert (Hs3 : forall i, i <> req -> slot p3 i = slot p i).
  { intros i Hne. change (slot p3 i) with (slot p1 i). unfold p1.
    rewrite slot_update_slot. destruct (decide (i = req)); [contradiction|].
    reflexivity. }
  assert (Hpe3 : pending_reqs p3 = [req])
    by (simpl; rewrite Hpend; reflexivity).
  assert (Hse3 : sent_reqs p3 = sent_reqs p)
    by (simpl; apply list_del_notin; assumption).
  assert (Hfr3 : free_reqs p3 = rest).
  { simpl. rewrite Hfree. apply list_del_head.
    rewrite Hfree in Hndf. apply NoDup_cons in Hndf. tauto. }
  assert (Hq : exists x p4 w2,
    (if writer_event_id p3 <? 0
     then enable_write_queue E p3 (set_global_id (to_int (global_id w + 1)) w)
     else (0, p3, set_global_id (to_int (global_id w + 1)) w)) = (x, p4, w2) /\
    requests p4 = requests p3 /\ pending_reqs p4 = pending_reqs p3 /\
    sent_reqs p4 = sent_reqs p3 /\ free_reqs p4 = free_reqs p3 /\
    nr_free_count p4 = nr_free_count p3 /\ socket p4 = socket p /\
    closed p4 = 0 /\ n_send w2 = n_send w /\ bytes_out w2 = bytes_out w /\
    completions (trace w2) = completions (trace w)).
  { destruct (writer_event_id p3 <? 0).
    - unfold enable_write_queue. destruct (writer_event_id p3 >=? 0).
      + eexists _, _, _. split; [reflexivity|]. auto 12.
      + cbn [register_event]. eexists _, _, _. split; [reflexivity|].
        repeat split; try assumption.
        simpl. rewrite completions_app. simpl. apply app_nil_r.
    - eexists _, _, _. split; [reflexivity|]. auto 12. }
  destruct Hq as (x & p4 & w2 & -> & Hrq4 & Hpe4 & Hse4 & Hfr4 & Hnr4 & Hso4
                  & Hc4 & Hns2 & Hbo2 & Ht2).
  unfold sys_fcntl. cbv beta iota.
  set (w3 := did_fcntl (did_fcntl w2)).
  unfold tdnbd_writer_cb. rewrite Hpe4, Hpe3.
  rewrite (writer_loop_disc p4 w3 req r (encode_nreq (nreq r)) n);
    [|rewrite Hrq4; exact Hr3|reflexivity|reflexivity
     |simpl; rewrite Hns2; exact Hs|exact Hn].
  cbv beta iota.
  match goal with
  | |- context [disable_write_queue ?pp ?ww] =>
    set (p5 := pp); set (w5 := ww)
  end.
  assert (Hq5 : exists p6 w6,
    disable_write_queue p5 w5 = (p6, w6) /\
    requests p6 = requests p5 /\ pending_reqs p6 = pending_reqs p5 /\
    sent_reqs p6 = sent_reqs p5 /\ nr_free_count p6 = nr_free_count p5 /\
    socket p6 = socket p /\ closed p6 = 2 /\
    bytes_out w6 = bytes_out w5 /\
    completions (trace w6) = completions (trace w5)).
  { unfold disable_write_queue. destruct (writer_event_id p5 <? 0).
    - eexists _, _. split; [reflexivity|]. auto 12.
    - eexists _, _. split; [reflexivity|]. repeat split; try assumption.
      simpl. rewrite completions_app. simpl. apply app_nil_r. }
  destruct Hq5 as (p6 & w6 & -> & Hrq6 & Hpe6 & Hse6 & Hnr6 & Hso6 & Hc6
                   & Hbo6 & Ht6).
  rewrite Hc6. change (2 =? 2) with true. cbv beta iota.
  pose proof (tdnbd_disable_ledger p6 w6) as Hled.
  pose proof (tdnbd_disable_frame p6 EIO w6) as Hfr.
  pose proof (tdnbd_disable_bytes p6 EIO w6) as Hby.
  destruct (tdnbd_disable_socket p6 EIO w6) as [Hsock Hflags].
  destruct (tdnbd_disable p6 EIO w6) as [p7 w7].
  simpl in Hby, Hsock, Hflags.
  destruct Hled as (_ & _ & failed & Ht7 & Hcase).
  destruct Hfr as (_ & _ & _ & Hnr7 & _ & _ & Hc7).
  destruct Hcase as [(Hbad & _)|(_ & Hfail & Hperm)]; [congruence|].
  assert (Hout : outstanding p6 = outstanding p).
  { unfold outstanding. rewrite Hpe6, Hse6. simpl.
    rewrite Hpe4, Hse4, Hpe3, Hse3. simpl.
    rewrite (list_del_head req []) by apply not_elem_of_nil.
    rewrite Hpend. simpl.
    rewrite (list_del_notin req (sent_reqs p)) by assumption.
    apply List.map_ext_in. intros i Hi. apply list_elem_of_In in Hi.
    unfold slot. rewrite Hrq6. simpl. rewrite Hrq4.
    assert (Hne : i <> req) by (intros ->; contradiction).
    rewrite list_lookup_alter_ne by auto.
    change (default zero_request (requests p3 !! i)) with (slot p3 i).
    rewrite Hs3 by assumption. reflexivity. }
  assert (Hb7 : bytes_out w7 = bytes_out w + 28).
  { rewrite Hby, Hbo6. simpl. rewrite Hbo2. reflexivity. }
  assert (Hn7 : nr_free_count p7 = nr_free_count p).
  { rewrite Hnr7, Hnr6. simpl. rewrite Hnr4. simpl. lia. }
  assert (Ht7' : completions (trace w7) = completions (trace w) ++ failed).
  { rewrite Ht7, Ht6. simpl. rewrite Ht2. reflexivity. }
  rewrite app_nil_r, Hout in Hperm.
  assert (Hso7 : socket p7 = socket p) by congruence.
  destruct name as [nm|].
  - exists p7, w7, (tdnbd_stash_passed_fd (socket p7) nm w7), failed.
    rewrite Hso7. auto 12.
  - eexists _, w7, _, failed. split; [reflexivity|].
    rewrite Hso7. simpl. auto 12.
Qed.

End CloseFacts.

Lemma close_sends_disconnect_witness :
  let E := env_one_reply in
  let ops :=
    [QueueRequest TAPDISK_NBD_CMD_READ 0 (replicate 512 NUL) 512
       (mk_treq 0 1 7) 0;
     WriterCb] in
  let m := state_of (engine_run E ops (fst (opened E 2)) (snd (opened E 2))) in
  exists p' w4 w' failed,
    tdnbd_close E None (fst m) (snd m) = Some (0, p', w') /\
    closed p' = 3 /\ nr_free_count p' = nr_free_count (fst m) /\
    bytes_out w4 = bytes_out (snd m) + 28 /\
    completions (trace w4) = completions (trace (snd m)) ++ failed /\
    Forall (fun c => snd c = EIO) failed /\
    map fst failed ≡ₚ outstanding (fst m) /\
    socket p' = -1 /\
    w' = if socket (fst m) >=? 0 then emit (EvClose (socket (fst m))) w4 else w4.
Proof.
  intros E ops m.
  assert (Hopen : tdnbd_open E 124 2 3 0 (mk_info 0 0 0) world0 =
                  Some (0, fst (opened E 2), mk_info 16777216 512 0,
                        snd (opened E 2)))
    by (vm_compute; reflexivity).
  assert (Hrun : engine_run E ops (fst (opened E 2)) (snd (opened E 2)) =
                 Some (fst m, snd m))
    by (vm_compute; reflexivity).
  assert (Hops : Forall read_or_write ops).
  { unfold ops.
    repeat match goal with |- Forall _ _ => constructor end; simpl; auto. }
  destruct (tdnbd_open_live _ _ _ _ _ _ _ _ _ _ Hopen) as (Hl0 & _).
  destruct (engine_run_live E 2 ops _ _ _ _ Hl0 Hops Hrun) as [Hlm _].
  apply (close_sends_disconnect E 2 None (fst m) (snd m) 4096 Hlm).
  - vm_compute. reflexivity.
  - vm_compute. reflexivity.
  - vm_compute. discriminate.
  - vm_compute. reflexivity.
  - lia.
Defined.

(** ** The queueing entry points *)

Section QueueFacts.

Variable E : env.
Variable N : nat.

(** An enqueue on a connection that is not dead and has a free slot. *)
Lemma tdnbd_queue_request_accept p type offset buf length tr fk w :
  engine_inv N p -> List.length (requests p) = N ->
  nr_free_count p <> 0 -> closed p <> 3 ->
  exists req p' w',
    tdnbd_queue_request E p type offset buf length tr fk w = Some (0, p', w') /\
    free_reqs p = req :: free_reqs p' /\
    pending_reqs p' = pending_reqs p ++ [req] /\
    sent_reqs p' = sent_reqs p /\
    nr_free_count p' = nr_free_count p - 1 /\
    closed p' = closed p /\
    slot p' req =
      mk_req tr
        (mk_nreq NBD_REQUEST_MAGIC (to_uint32 type)
           (snprintf_handle (Z.rem (global_id w) 0xffff))
           (to_size_t offset) (to_uint32 length))
        (-1) fk
        (mk_qio
           (encode_nreq
              (mk_nreq NBD_REQUEST_MAGIC (to_uint32 type)
                 (snprintf_handle (Z.rem (global_id w) 0xffff))
                 (to_size_t offset) (to_uint32 length)))
           SIZEOF_NBD_REQUEST 0)
        (mk_qio buf (to_int (to_uint32 length)) 0) /\
    (forall i, i <> req -> slot p' i = slot p i) /\
    completions (trace w') = completions (trace w) /\
    bytes_out w' = bytes_out w.
Proof.
  intros Hinv Hlen Hnr Hc. unfold tdnbd_queue_request.
  destruct (nr_free_count p =? 0) eqn:Hnr0; [lia|].
  destruct (closed p =? 3) eqn:Hc3; [lia|].
  destruct (free_reqs p) as [|req rest] eqn:Hfree.
  { destruct Hinv as (Hcnt & _). rewrite Hfree in Hcnt. simpl in Hcnt. lia. }
  match goal with
  | |- context [update_slot req (fun _ => ?r0) p] =>
    set (r := r0); set (p1 := update_slot req (fun _ => r) p)
  end.
  set (p3 := set_nr_free_count
               (nr_free_count (list_move_tail req PendingReqs p1) - 1)
               (list_move_tail req PendingReqs p1)).
  pose proof (engine_inv_nodup _ _ Hinv) as Hnd.
  destruct (all_reqs_disjoint p Hnd) as ((Hndf & _) & Hdf & _).
  assert (Hinf : req ∈ free_reqs p) by (rewrite Hfree; apply elem_of_cons; auto).
  destruct (Hdf req Hinf) as [Hnp Hns].
  assert (Hlt : (req < List.length (requests p))%nat).
  { rewrite Hlen. destruct Hinv as (_ & Hperm & _).
    assert (Hin : req ∈ seq 0 N).
    { rewrite <- Hperm. unfold all_reqs. apply elem_of_app. auto. }
    apply elem_of_seq in Hin. lia. }
  assert (Hslot : forall i,
    slot p3 i = if decide (i = req) then r else slot p i).
  { intros i. change (slot p3 i) with (slot p1 i). unfold p1.
    rewrite slot_update_slot. destruct (decide (i = req)) as [->|]; [|reflexivity].
    destruct (lookup_lt_is_Some_2 (requests p) req Hlt) as [x ->]. reflexivity. }
  assert (Hpe3 : pending_reqs p3 = pending_reqs p ++ [req])
    by (simpl; rewrite list_del_notin by assumption; reflexivity).
  assert (Hse3 : sent_reqs p3 = sent_reqs p)
    by (simpl; apply list_del_notin; assumption).
  assert (Hfr3 : free_reqs p3 = rest).
  { simpl. rewrite Hfree. apply list_del_head.
    rewrite Hfree in Hndf. apply NoDup_cons in Hndf. tauto. }
  assert (Hfin : forall p4 w4,
    (forall i, slot p4 i = slot p3 i) -> free_reqs p4 = free_reqs p3 ->
    pending_reqs p4 = pending_reqs p3 -> sent_reqs p4 = sent_reqs p3 ->
    nr_free_count p4 = nr_free_count p3 -> closed p4 = closed p ->
    completions (trace w4) = completions (trace w) ->
    bytes_out w4 = bytes_out w ->
    exists req0 p' w',
      Some (0, p4, w4) = Some (0, p', w') /\
      req :: rest = req0 :: free_reqs p' /\
      pending_reqs p' = pending_reqs p ++ [req0] /\
      sent_reqs p' = sent_reqs p /\
      nr_free_count p' = nr_free_count p - 1 /\
      closed p' = closed p /\ slot p' req0 = r /\
      (forall i, i <> req0 -> slot p' i = slot p i) /\
      completions (trace w') = completions (trace w) /\
      bytes_out w' = bytes_out w).
  { intros p4 w4 Hs4 Hf4 Hp4 Hse4 Hn4 Hc4 Ht4 Hb4.
    exists req, p4, w4. split; [reflexivity|].
    split; [congruence|]. split; [congruence|]. split; [congruence|].
    split; [rewrite Hn4; reflexivity|]. split; [assumption|].
    split; [rewrite Hs4, Hslot, decide_True by reflexivity; reflexivity|].
    split; [|auto].
    intros i Hne. rewrite Hs4, Hslot, decide_False by assumption. reflexivity. }
  destruct (writer_event_id p3 <? 0).
  - unfold enable_write_queue. destruct (writer_event_id p3 >=? 0).
    + apply Hfin; reflexivity.
    + cbn [register_event]. apply Hfin; try reflexivity.
      simpl. rewrite completions_app. simpl. apply app_nil_r.
  - apply Hfin; reflexivity.
Qed.

(** X13: a write handed to [tdnbd_queue_write] on a connection that is
    not dead takes the slot at the head of the free list and goes to the
    tail of the pending list, with a header for a WRITE at byte offset
    [sec * sector_size] of [secs * sector_size] bytes; when no slot is
    free the write is dropped: it is neither queued nor completed. *)
Theorem queue_write_outcome (sector_size : Z) (p : tdnbd_data)
  (tr : td_request_t) (buf : list ascii) (w : world) :
  engine_inv N p -> List.length (requests p) = N ->
  (nr_free_count p = 0 ->
   tdnbd_queue_write E sector_size p tr buf w = Some (p, w)) /\
  (nr_free_count p <> 0 -> closed p <> 3 ->
   exists req p' w',
     tdnbd_queue_write E sector_size p tr buf w = Some (p', w') /\
     free_reqs p = req :: free_reqs p' /\
     pending_reqs p' = pending_reqs p ++ [req] /\
     sent_reqs p' = sent_reqs p /\
     treq (slot p' req) = tr /\
     nreq_type (nreq (slot p' req)) = TAPDISK_NBD_CMD_WRITE /\
     nreq_from (nreq (slot p' req)) = (treq_sec tr * sector_size) mod 2 ^ 64 /\
     (0 <= treq_secs tr * sector_size < 2 ^ 31 ->
      nreq_len (nreq (slot p' req)) = treq_secs tr * sector_size /\
      len (body (slot p' req)) = treq_secs tr * sector_size) /\
     buffer (body (slot p' req)) = buf /\
     completions (trace w') = completions (trace w)).
Proof.
  intros Hinv Hlen. split.
  - intros Hnr. unfold tdnbd_queue_write, tdnbd_queue_request.
    rewrite Hnr. reflexivity.
  - intros Hnr Hc. unfold tdnbd_queue_write.
    destruct (tdnbd_queue_request_accept p TAPDISK_NBD_CMD_WRITE
                (to_size_t (treq_sec tr * sector_size)) buf
                (to_int (treq_secs tr * sector_size)) tr 0 w Hinv Hlen Hnr Hc)
      as (req & p' & w' & -> & Hf & Hpe & Hse & _ & _ & Hslot & _ & Ht & _).
    exists req, p', w'. rewrite Hslot. simpl.
    repeat split; try assumption.
    + unfold to_size_t. rewrite Z.mod_mod by lia. reflexivity.
    + unfold to_uint32, to_int.
      rewrite (Z.mod_small (_ + 2 ^ 31)) by lia.
      rewrite Z.mod_small by lia. lia.
    + unfold to_uint32, to_int.
      rewrite (Z.mod_small (treq_secs tr * sector_size + 2 ^ 31)) by lia.
      replace (treq_secs tr * sector_size + 2 ^ 31 - 2 ^ 31)
        with (treq_secs tr * sector_size) by lia.
      rewrite (Z.mod_small (treq_secs tr * sector_size)) by lia.
      rewrite Z.mod_small by lia. lia.
Qed.

End QueueFacts.

Lemma queue_write_outcome_witness :
  let E := env_one_reply in
  let p := fst (opened E 2) in
  let w := snd (opened E 2) in
  let tr := mk_treq 8 2 7 in
  exists req p' w',
    tdnbd_queue_write E 512 p tr (replicate 1024 "y"%char) w = Some (p', w') /\
    free_reqs p = req :: free_reqs p' /\
    pending_reqs p' = pending_reqs p ++ [req] /\
    sent_reqs p' = sent_reqs p /\
    treq (slot p' req) = tr /\
    nreq_type (nreq (slot p' req)) = TAPDISK_NBD_CMD_WRITE /\
    nreq_from (nreq (slot p' req)) = (treq_sec tr * 512) mod 2 ^ 64 /\
    (0 <= treq_secs tr * 512 < 2 ^ 31 ->
     nreq_len (nreq (slot p' req)) = treq_secs tr * 512 /\
     len (body (slot p' req)) = treq_secs tr * 512) /\
    buffer (body (slot p' req)) = replicate 1024 "y"%char /\
    completions (trace w') = completions (trace w).
Proof.
  intros E p w tr.
  assert (Hopen : tdnbd_open E 124 2 3 0 (mk_info 0 0 0) world0 =
                  Some (0, p, mk_info 16777216 512 0, w))
    by (vm_compute; reflexivity).
  destruct (tdnbd_open_live _ _ _ _ _ _ _ _ _ _ Hopen)
    as ((Hinv & Hlen & _) & _).
  apply (queue_write_outcome E 2 512 p tr (replicate 1024 "y"%char) w Hinv Hlen).
  - vm_compute. discriminate.
  - vm_compute. discriminate.
Defined.

(** ** FD stash: no descriptor is lost *)

Lemma closed_fds_app t1 t2 : closed_fds (t1 ++ t2) = closed_fds t1 ++ closed_fds t2.
Proof.
  induction t1 as [|e t1 IH]; simpl; [reflexivity|].
  destruct e; simpl; rewrite IH; reflexivity.
Qed.

Lemma held_insert tbl i old new :
  tbl !! i = Some old ->
  exists h1 h2,
    filter (fun fd => -1 < fd) (map pf_fd tbl) =
      h1 ++ (if decide (-1 < pf_fd old) then [pf_fd old] else []) ++ h2 /\
    filter (fun fd => -1 < fd) (map pf_fd (<[i := new]> tbl)) =
      h1 ++ (if decide (-1 < pf_fd new) then [pf_fd new] else []) ++ h2.
Proof.
  revert i. induction tbl as [|e rest IH]; intros i Hl; [discriminate|].
  destruct i as [|i]; simpl in Hl.
  - injection Hl as ->. exists [], (filter (fun fd => -1 < fd) (map pf_fd rest)).
    simpl. rewrite !filter_cons.
    destruct (decide (-1 < pf_fd old)), (decide (-1 < pf_fd new)); auto.
  - destruct (IH i Hl) as (h1 & h2 & H1 & H2). simpl.
    rewrite !filter_cons, H1, H2.
    destruct (decide (-1 < pf_fd e)); [exists (pf_fd e :: h1), h2|exists h1, h2];
      auto.
Qed.

(** X14: the stash never loses a descriptor.  A descriptor handed to
    [tdnbd_stash_passed_fd] is held in the table or was closed, a
    descriptor that it replaces was closed, and a descriptor that
    [tdnbd_retrieve_passed_fd] hands out has left the table. *)
Theorem stash_never_leaks (fd : Z) (msg : list ascii) (w : world) :
  -1 < fd ->
  (let w1 := tdnbd_stash_passed_fd fd msg w in
   held_fds w1 ++ closed_fds (trace w1) ≡ₚ
   fd :: held_fds w ++ closed_fds (trace w)) /\
  (let '(got, w1) := tdnbd_retrieve_passed_fd msg w in
   trace w1 = trace w /\
   if decide (-1 < got) then held_fds w ≡ₚ got :: held_fds w1
   else held_fds w1 = held_fds w).
Proof.
  intros Hfd. split.
  - cbv zeta. destruct (stash_scan msg (passed_fds w) 0) as [i|] eqn:Hscan.
    + destruct (stash_stores fd msg w i Hscan) as (old & Hl & _ & _ & Htbl & Ht).
      unfold held_fds. rewrite Htbl, Ht, closed_fds_app.
      destruct (held_insert (passed_fds w) i old
                  (mk_passed_fd (take 39 msg) fd) Hl) as (h1 & h2 & -> & ->).
      simpl. rewrite decide_True by assumption.
      destruct (pf_fd old >? -1) eqn:Hold.
      * rewrite decide_True by lia. simpl.
        rewrite <- !app_assoc. simpl.
        rewrite <- (Permutation_middle h1 _ fd).
        apply Permutation_skip, Permutation_app_head.
        rewrite app_assoc. symmetry. apply Permutation_cons_append.
      * rewrite decide_False by lia. simpl. rewrite app_nil_r.
        rewrite <- !app_assoc. simpl.
        symmetry. apply Permutation_middle.
    + unfold tdnbd_stash_passed_fd. rewrite Hscan. unfold held_fds. simpl.
      rewrite closed_fds_app. simpl.
      rewrite app_assoc. symmetry. apply Permutation_cons_append.
  - unfold tdnbd_retrieve_passed_fd.
    destruct (retrieve_scan msg (passed_fds w) 0) as [[i got]|] eqn:Hscan.
    + split; [reflexivity|].
      destruct (retrieve_scan_some _ _ _ _ _ Hscan) as (_ & old & Hl & Hgot & _).
      replace (i - 0)%nat with i in Hl by lia.
      unfold held_fds. simpl.
      assert (Halter : alter (fun e => mk_passed_fd (pf_id e) (-1)) i (passed_fds w)
                       = <[i := mk_passed_fd (pf_id old) (-1)]> (passed_fds w)).
      { apply list_eq. intros j. destruct (decide (j = i)) as [->|Hne].
        - rewrite list_lookup_alter_eq, Hl.
          rewrite list_lookup_insert_eq by (eapply lookup_lt_Some; eassumption).
          reflexivity.
        - rewrite list_lookup_alter_ne, list_lookup_insert_ne by auto.
          reflexivity. }
      rewrite Halter.
      destruct (held_insert (passed_fds w) i old
                  (mk_passed_fd (pf_id old) (-1)) Hl) as (h1 & h2 & -> & ->).
      simpl. subst got.
      destruct (decide (-1 < pf_fd old)); simpl.
      * symmetry. apply Permutation_middle.
      * reflexivity.
    + split; [reflexivity|]. rewrite decide_False by lia. reflexivity.
Qed.

Lemma stash_never_leaks_witness :
  (let w1 := tdnbd_stash_passed_fd 6 (cstring "foo") stash_example_world in
   held_fds w1 ++ closed_fds (trace w1) ≡ₚ
   6 :: held_fds stash_example_world ++ closed_fds (trace stash_example_world)) /\
  (let '(got, w1) :=
     tdnbd_retrieve_passed_fd (cstring "foo") stash_example_world in
   trace w1 = trace stash_example_world /\
   if decide (-1 < got) then held_fds stash_example_world ≡ₚ got :: held_fds w1
   else held_fds w1 = held_fds stash_example_world).
Proof.
  apply (stash_never_leaks 6 (cstring "foo") stash_example_world). lia.
Defined.

(** X15: once [tdnbd_fdreceiver_start] has run, no name retrieves a
    descriptor, and the first descriptor that is stashed goes into the
    first slot of the table without anything being closed. *)
Theorem fdreceiver_start_empties_stash (name : list ascii) (fd : Z) (w : world) :
  let w0 := tdnbd_fdreceiver_start w in
  fst (tdnbd_retrieve_passed_fd name w0) = -1 /\
  held_fds w0 = [] /\
  (passed_fds w <> [] ->
   trace (tdnbd_stash_passed_fd fd name w0) = trace w /\
   passed_fds (tdnbd_stash_passed_fd fd name w0) !! 0%nat =
     Some (mk_passed_fd (take 39 name) fd)).
Proof.
  cbv zeta. unfold tdnbd_fdreceiver_start, tdnbd_retrieve_passed_fd, held_fds.
  simpl. split; [|split].
  - assert (H : forall tbl i,
      match retrieve_scan name (map (fun e => mk_passed_fd (pf_id e) (-1)) tbl) i
      with Some (_, got) => got = -1 | None => True end).
    { induction tbl as [|e rest IH]; intros i; simpl; [exact I|].
      destruct (strncmp _ _ _ =? 0); [reflexivity|apply IH]. }
    specialize (H (passed_fds w) 0%nat).
    destruct (retrieve_scan name _ 0) as [[i got]|]; [exact H|reflexivity].
  - induction (passed_fds w) as [|e rest IH]; [reflexivity|].
    simpl. rewrite filter_cons_False by (simpl; lia). exact IH.
  - intros Hne. unfold tdnbd_stash_passed_fd. simpl.
    destruct (passed_fds w) as [|e rest]; [contradiction|].
    simpl. unfold stash_slot_ok. simpl. auto.
Qed.

Lemma fdreceiver_start_empties_stash_witness :
  let w0 := tdnbd_fdreceiver_start stash_example_world in
  fst (tdnbd_retrieve_passed_fd (cstring "foo") w0) = -1 /\
  held_fds w0 = [] /\
  trace (tdnbd_stash_passed_fd 9 (cstring "foo") w0) = trace stash_example_world /\
  passed_fds (tdnbd_stash_passed_fd 9 (cstring "foo") w0) !! 0%nat =
    Some (mk_passed_fd (take 39 (cstring "foo")) 9).
Proof.
  destruct (fdreceiver_start_empties_stash (cstring "foo") 9 stash_example_world)
    as (H1 & H2 & H3).
  split; [exact H1|]. split; [exact H2|].
  apply H3. vm_compute. discriminate.
Defined.

(** ** Reader: which request a reply belongs to *)

Lemma code_inj a b : code a = code b -> a = b.
Proof.
  unfold code. intros H. apply Nat2Z.inj in H.
  rewrite <- (ascii_nat_embedding a), <- (ascii_nat_embedding b), H.
  reflexivity.
Qed.

Lemma memcmp_eq n : forall a b,
  length a = n -> length b = n -> (memcmp a b n = 0 <-> a = b).
Proof.
  induction n as [|n IH]; intros a b Ha Hb.
  - destruct a, b; try discriminate. simpl. tauto.
  - destruct a as [|x a], b as [|y b]; try discriminate.
    simpl in Ha, Hb. cbn [memcmp].
    destruct (code x =? code y) eqn:Hxy.
    + apply Z.eqb_eq, code_inj in Hxy. subst y.
      rewrite (IH a b) by lia. split; [intros ->; reflexivity|].
      intros [= ->]. reflexivity.
    + apply Z.eqb_neq in Hxy. split; [lia|]. intros [= -> _]. contradiction.
Qed.

(** X16: the reader gives a reply to the first request on the sent list
    whose eight handle bytes are those of the reply; when no sent
    request carries them, it finds none. *)
Theorem find_sent_first_match (p : tdnbd_data) (entries : list nat) :
  (forall x, x ∈ entries ->
     length (nreq_handle (nreq (slot p x))) = 8%nat) ->
  length (current_reply_handle p) = 8%nat ->
  match find_sent p entries with
  | Some r =>
    exists l1 l2, entries = l1 ++ r :: l2 /\ handle_matches p r /\
      forall x, x ∈ l1 -> ~ handle_matches p x
  | None => forall x, x ∈ entries -> ~ handle_matches p x
  end.
Proof.
  intros Hlen Hrep. induction entries as [|pos rest IH]; simpl.
  - intros x Hx. apply elem_of_nil in Hx. contradiction.
  - assert (Hpos : length (nreq_handle (nreq (slot p pos))) = 8%nat)
      by (apply Hlen, elem_of_cons; auto).
    pose proof (memcmp_eq 8 _ _ Hpos Hrep) as Hm.
    destruct (memcmp _ _ 8 =? 0) eqn:Hc.
    + apply Z.eqb_eq in Hc. exists [], rest. split; [reflexivity|].
      split; [apply Hm; exact Hc|].
      intros x Hx. apply elem_of_nil in Hx. contradiction.
    + apply Z.eqb_neq in Hc.
      assert (Hn : ~ handle_matches p pos) by (intros H; apply Hc, Hm, H).
      specialize (IH ltac:(intros x Hx; apply Hlen, elem_of_cons; auto)).
      destruct (find_sent p rest) as [r|].
      * destruct IH as (l1 & l2 & -> & Hr & Hbefore).
        exists (pos :: l1), l2. split; [reflexivity|]. split; [assumption|].
        intros x Hx. apply elem_of_cons in Hx as [->|Hx]; auto.
      * intros x Hx. apply elem_of_cons in Hx as [->|Hx]; auto.
Qed.

Lemma find_sent_first_match_witness :
  let E := env_one_reply in
  let ops :=
    [QueueRequest TAPDISK_NBD_CMD_READ 0 (replicate 512 NUL) 512
       (mk_treq 0 1 7) 0;
     QueueRequest TAPDISK_NBD_CMD_WRITE 512 (replicate 512 "y"%char) 512
       (mk_treq 1 1 8) 0;
     WriterCb] in
  let m := fst (state_of (engine_run E ops (fst (opened E 2)) (snd (opened E 2)))) in
  let p := set_cur_reply_qio (mk_qio (reply_ok "td00001") 16 16) m in
  match find_sent p (sent_reqs p) with
  | Some r =>
    exists l1 l2, sent_reqs p = l1 ++ r :: l2 /\ handle_matches p r /\
      forall x, x ∈ l1 -> ~ handle_matches p x
  | None => forall x, x ∈ sent_reqs p -> ~ handle_matches p x
  end.
Proof.
  intros E ops m p.
  apply (find_sent_first_match p (sent_reqs p)).
  - intros x Hx.
    assert (Hs : sent_reqs p = [0%nat; 1%nat]) by (vm_compute; reflexivity).
    rewrite Hs in Hx.
    apply elem_of_cons in Hx as [->|Hx]; [vm_compute; reflexivity|].
    apply list_elem_of_singleton in Hx. subst x. vm_compute. reflexivity.
  - vm_compute. reflexivity.
Defined.

(** ** Open *)






(** ** Reader: when a request is completed *)

Lemma tdnbd_read_some_zero E d w d' w' :
  tdnbd_read_some E d w = (0, d', w') -> so_far d' = len d'.
Proof.
  intros H. destruct (Z_le_gt_dec (so_far d) (len d)) as [Hle|Hgt].
  - destruct (tdnbd_read_some_contract E) as (_ & _ & _ & Hc & _).
    specialize (Hc d w Hle). rewrite H in Hc.
    destruct Hc as (Hl & _ & Hz & _). rewrite Hl. apply Hz. reflexivity.
  - unfold tdnbd_read_some in H.
    destruct (Z.to_nat (len d - so_far d)); simpl in H;
      (destruct (len d - so_far d >? 0) eqn:Hpos; [lia|]);
      injection H as H _ _; lia.
Qed.

Section ReaderFacts.

Variable E : env.
Variable N : nat.

Lemma tdnbd_reader_cb_completes p w :
  live_inv N p ->
  let '(p', w') := tdnbd_reader_cb E p w in
  closed p = 0 -> closed p' = 0 -> nr_free_count p' <> nr_free_count p ->
  exists r q w1,
    tdnbd_read_some E (cur_reply_qio p) w = (0, q, w1) /\
    so_far q = len q /\
    decode_be (take 4 (drop 4 (buffer q))) = 0 /\
    r ∈ sent_reqs p /\
    (curr_reply_req p = Some r \/
     curr_reply_req p = None /\
     memcmp (nreq_handle (nreq (slot p r))) (take 8 (drop 8 (buffer q))) 8 = 0) /\
    free_reqs p' = r :: free_reqs p /\
    sent_reqs p' = list_del r (sent_reqs p) /\
    nr_free_count p' = nr_free_count p + 1 /\
    completions (trace w') = completions (trace w) ++ [(treq (slot p r), 0)] /\
    (nreq_type (nreq (slot p r)) = TAPDISK_NBD_CMD_READ ->
     so_far (body (slot p' r)) = len (body (slot p' r))) /\
    so_far (cur_reply_qio p') = 0 /\ curr_reply_req p' = None.
Proof.
  intros (Hinv & Hlen & Hrw & _). unfold tdnbd_reader_cb.
  pose proof (tdnbd_read_some_trace E (cur_reply_qio p) w) as Ht1.
  destruct (tdnbd_read_some E (cur_reply_qio p) w) as [[rc q] w1] eqn:Hrd.
  simpl in Ht1.
  set (p1 := set_cur_reply_qio q p).
  assert (Hdis : forall p2 w2 (P : tdnbd_data -> world -> Prop),
    let '(p', w') := tdnbd_disable p2 EIO w2 in
    closed p = 0 -> closed p' = 0 -> nr_free_count p' <> nr_free_count p ->
    P p' w').
  { intros p2 w2 P. pose proof (tdnbd_disable_frame p2 EIO w2) as H.
    destruct (tdnbd_disable p2 EIO w2) as [p' w'].
    destruct H as (_ & _ & _ & _ & _ & _ & Hc). intros _ Hc0. lia. }
  destruct (rc <? 0) eqn:Hneg.
  { apply (Hdis p1 w1 (fun p' w' => exists r q0 w0, _)). }
  destruct (rc >? 0) eqn:Hpos; [intros _ _ Hn; simpl in Hn; congruence|].
  assert (Hrc : rc = 0) by lia. subst rc.
  pose proof (tdnbd_read_some_zero E _ _ _ _ Hrd) as Hfull.
  destruct (negb (current_reply_error p1 =? 0)) eqn:Herr.
  { apply (Hdis p1 w1 (fun p' w' => exists r q0 w0, _)). }
  apply negb_false_iff, Z.eqb_eq in Herr.
  assert (Hinv1 : engine_inv N p1)
    by (eapply engine_inv_frame; [..|exact Hinv]; reflexivity).
  assert (Hfound : forall r,
    match curr_reply_req p1 with
    | Some r => Some r
    | None => find_sent p1 (sent_reqs p1)
    end = Some r ->
    r ∈ sent_reqs p /\
    (curr_reply_req p = Some r \/
     curr_reply_req p = None /\
     memcmp (nreq_handle (nreq (slot p r))) (take 8 (drop 8 (buffer q))) 8 = 0)).
  { intros r. change (curr_reply_req p1) with (curr_reply_req p).
    destruct (curr_reply_req p) as [r'|] eqn:Hcur.
    - intros [= <-]. split; [apply Hinv; assumption|auto].
    - intros Hf. split; [apply (find_sent_elem p1 _ _ Hf)|]. right.
      split; [reflexivity|].
      revert Hf. generalize (sent_reqs p1).
      induction l as [|pos rest IH]; simpl; [discriminate|].
      destruct (memcmp _ _ 8 =? 0) eqn:Hm; [|exact IH].
      intros [= <-]. apply Z.eqb_eq in Hm. exact Hm. }
  destruct (match curr_reply_req p1 with
            | Some r => Some r
            | None => find_sent p1 (sent_reqs p1)
            end) as [r|];
    [|apply (Hdis p1 w1 (fun p' w' => exists r q0 w0, _))].
  destruct (Hfound r eq_refl) as [Hin Hwhy].
  set (p2 := set_curr_reply_req (Some r) p1).
  pose proof (engine_inv_nodup _ _ Hinv) as Hnd.
  destruct (all_reqs_disjoint p Hnd) as (_ & _ & _ & Hds).
  destruct (Hds r Hin) as [Hnf _].
  assert (Hlt : (r < length (requests p))%nat).
  { rewrite Hlen. destruct Hinv as (_ & Hperm & _).
    assert (Hin' : r ∈ seq 0 N).
    { rewrite <- Hperm. unfold all_reqs. rewrite !elem_of_app. auto. }
    apply elem_of_seq in Hin'. lia. }
  destruct (lookup_lt_is_Some_2 (requests p) r Hlt) as [x Hx].
  assert (Hdone : forall p3 w3 b,
    free_reqs p3 = free_reqs p -> sent_reqs p3 = sent_reqs p ->
    nr_free_count p3 = nr_free_count p -> treq (slot p3 r) = treq (slot p r) ->
    trace w3 = trace w -> requests p3 !! r = Some b ->
    (nreq_type (nreq (slot p r)) = TAPDISK_NBD_CMD_READ ->
     so_far (body b) = len (body b)) ->
    let '(p', w') :=
      reader_remove_state r false p3
        (emit (EvComplete (treq (slot p3 r)) 0) w3) in
    closed p = 0 -> closed p' = 0 -> nr_free_count p' <> nr_free_count p ->
    exists r0 q0 w0,
      (0, q, w1) = (0, q0, w0) /\ so_far q0 = len q0 /\
      decode_be (take 4 (drop 4 (buffer q0))) = 0 /\
      r0 ∈ sent_reqs p /\
      (curr_reply_req p = Some r0 \/
       curr_reply_req p = None /\
       memcmp (nreq_handle (nreq (slot p r0))) (take 8 (drop 8 (buffer q0))) 8
       = 0) /\
      free_reqs p' = r0 :: free_reqs p /\
      sent_reqs p' = list_del r0 (sent_reqs p) /\
      nr_free_count p' = nr_free_count p + 1 /\
      completions (trace w') =
        completions (trace w) ++ [(treq (slot p r0), 0)] /\
      (nreq_type (nreq (slot p r0)) = TAPDISK_NBD_CMD_READ ->
       so_far (body (slot p' r0)) = len (body (slot p' r0))) /\
      so_far (cur_reply_qio p') = 0 /\ curr_reply_req p' = None).
  { intros p3 w3 b Hf3 Hs3 Hn3 Ht3 Htr3 Hb3 Hbody.
    set (res := reader_remove_state r false p3
                  (emit (EvComplete (treq (slot p3 r)) 0) w3)).
    assert (Hf : free_reqs (fst res) = r :: list_del r (free_reqs p3))
      by reflexivity.
    assert (Hse : sent_reqs (fst res) = list_del r (sent_reqs p3))
      by reflexivity.
    assert (Hn : nr_free_count (fst res) = nr_free_count p3 + 1) by reflexivity.
    assert (Hrq : requests (fst res) = requests p3) by reflexivity.
    assert (Hq0 : so_far (cur_reply_qio (fst res)) = 0) by reflexivity.
    assert (Hcr : curr_reply_req (fst res) = None) by reflexivity.
    assert (Ht : completions (trace (snd res)) =
                 completions (trace w3) ++ [(treq (slot p3 r), 0)]).
    { unfold res, reader_remove_state. cbv beta iota zeta.
      destruct (timeout_event _ >=? 0); simpl;
        rewrite !completions_app; simpl; rewrite ?app_nil_r; reflexivity. }
    clearbody res. destruct res as [p' w']. simpl in Hf, Hse, Hn, Hrq, Hq0, Hcr, Ht.
    intros _ _ _. exists r, q, w1.
    split; [reflexivity|]. split; [exact Hfull|]. split; [exact Herr|].
    split; [exact Hin|]. split; [exact Hwhy|].
    split; [rewrite Hf, Hf3, list_del_notin by assumption; reflexivity|].
    split; [congruence|]. split; [congruence|].
    split; [rewrite Ht, Htr3, Ht3; reflexivity|].
    split; [|auto].
    intros Hty. unfold slot. rewrite Hrq, Hb3. simpl. auto. }
  assert (Hty : nreq_type (nreq (slot p2 r)) = TAPDISK_NBD_CMD_READ \/
                nreq_type (nreq (slot p2 r)) = TAPDISK_NBD_CMD_WRITE).
  { apply (Hrw r). apply elem_of_app. right. exact Hin. }
  destruct Hty as [Hty|Hty]; rewrite Hty.
  - change (TAPDISK_NBD_CMD_READ =? TAPDISK_NBD_CMD_READ) with true.
    cbv beta iota.
    pose proof (tdnbd_read_some_trace E (body (slot p2 r)) w1) as Ht2.
    destruct (tdnbd_read_some E (body (slot p2 r)) w1) as [[rc2 b] w2] eqn:Hrd2.
    simpl in Ht2.
    set (p3 := update_slot r (set_body b) p2).
    destruct (rc2 <? 0) eqn:Hneg2.
    { apply (Hdis p3 w2 (fun p' w' => exists r q0 w0, _)). }
    destruct (rc2 >? 0) eqn:Hpos2; [intros _ _ Hn; simpl in Hn; congruence|].
    assert (Hrc2 : rc2 = 0) by lia. subst rc2.
    apply (Hdone p3 w2 (set_body b x)); try reflexivity.
    + unfold p3. rewrite slot_update_slot, decide_True by reflexivity.
      change (requests p2) with (requests p). rewrite Hx.
      unfold slot. change (requests p) with (requests p). rewrite Hx.
      reflexivity.
    + congruence.
    + change (requests p3) with (alter (set_body b) r (requests p)).
      rewrite list_lookup_alter_eq, Hx. reflexivity.
    + intros _. simpl. apply (tdnbd_read_some_zero E _ _ _ _ Hrd2).
  - change (TAPDISK_NBD_CMD_WRITE =? TAPDISK_NBD_CMD_READ) with false.
    change (TAPDISK_NBD_CMD_WRITE =? TAPDISK_NBD_CMD_WRITE) with true.
    cbv beta iota.
    apply (Hdone p2 w1 x); try reflexivity; try assumption.
    intros Hr. change (slot p2 r) with (slot p r) in Hty.
    rewrite Hr in Hty. discriminate.
Qed.

End ReaderFacts.

(** X18: when the reader callback frees a slot and leaves the connection
    open, it has read a complete reply header whose error field is 0,
    the request it frees is the one a reply was being read for or a sent
    request with the reply's handle, that request is completed with 0,
    once, and if it is a read all of its data has arrived. *)
Theorem reader_completes_full_replies (E : env) (N : nat)
  (p p' : tdnbd_data) (w w' : world) :
  live_inv N p -> closed p = 0 ->
  tdnbd_reader_cb E p w = (p', w') ->
  closed p' = 0 -> nr_free_count p' <> nr_free_count p ->
  exists r q w1,
    tdnbd_read_some E (cur_reply_qio p) w = (0, q, w1) /\
    so_far q = len q /\
    decode_be (take 4 (drop 4 (buffer q))) = 0 /\
    r ∈ sent_reqs p /\
    (curr_reply_req p = Some r \/
     curr_reply_req p = None /\
     memcmp (nreq_handle (nreq (slot p r))) (take 8 (drop 8 (buffer q))) 8 = 0) /\
    free_reqs p' = r :: free_reqs p /\
    sent_reqs p' = list_del r (sent_reqs p) /\
    nr_free_count p' = nr_free_count p + 1 /\
    completions (trace w') = completions (trace w) ++ [(treq (slot p r), 0)] /\
    (nreq_type (nreq (slot p r)) = TAPDISK_NBD_CMD_READ ->
     so_far (body (slot p' r)) = len (body (slot p' r))) /\
    so_far (cur_reply_qio p') = 0 /\ curr_reply_req p' = None.
Proof.
  intros Hlive Hc Hrd Hc' Hn.
  pose proof (tdnbd_reader_cb_completes E N p w Hlive) as H.
  rewrite Hrd in H. auto.
Qed.

Lemma reader_completes_full_replies_witness :
  let E := env_two_replies in
  let ops := firstn 3 session_ops in
  let m := state_of (engine_run E ops (fst (opened E 2)) (snd (opened E 2))) in
  let p := fst m in
  let w := snd m in
  let p' := fst (tdnbd_reader_cb E p w) in
  let w' := snd (tdnbd_reader_cb E p w) in
  exists r q w1,
    tdnbd_read_some E (cur_reply_qio p) w = (0, q, w1) /\
    so_far q = len q /\
    decode_be (take 4 (drop 4 (buffer q))) = 0 /\
    r ∈ sent_reqs p /\
    (curr_reply_req p = Some r \/
     curr_reply_req p = None /\
     memcmp (nreq_handle (nreq (slot p r))) (take 8 (drop 8 (buffer q))) 8 = 0) /\
    free_reqs p' = r :: free_reqs p /\
    sent_reqs p' = list_del r (sent_reqs p) /\
    nr_free_count p' = nr_free_count p + 1 /\
    completions (trace w') = completions (trace w) ++ [(treq (slot p r), 0)] /\
    (nreq_type (nreq (slot p r)) = TAPDISK_NBD_CMD_READ ->
     so_far (body (slot p' r)) = len (body (slot p' r))) /\
    so_far (cur_reply_qio p') = 0 /\ curr_reply_req p' = None.
Proof.
  intros E ops m p w p' w'.
  assert (Hopen : tdnbd_open E 124 2 3 0 (mk_info 0 0 0) world0 =
                  Some (0, fst (opened E 2), mk_info 16777216 512 0,
                        snd (opened E 2)))
    by (vm_compute; reflexivity).
  assert (Hrun : engine_run E ops (fst (opened E 2)) (snd (opened E 2)) =
                 Some (p, w))
    by (vm_compute; reflexivity).
  assert (Hops : Forall read_or_write ops).
  { unfold ops, session_ops. simpl.
    repeat match goal with |- Forall _ _ => constructor end; simpl; auto. }
  destruct (tdnbd_open_live _ _ _ _ _ _ _ _ _ _ Hopen) as (Hl0 & _).
  destruct (engine_run_live E 2 ops _ _ _ _ Hl0 Hops Hrun) as [Hlm _].
  apply (reader_completes_full_replies E 2 p p' w w' Hlm).
  - vm_compute. reflexivity.
  - vm_compute. reflexivity.
  - vm_compute. reflexivity.
  - vm_compute. discriminate.
Defined.

(** ** Writer: the count of the bytes sent *)

Lemma sum_over_ext f g l :
  (forall i, i ∈ l -> f i = g i) -> sum_over f l = sum_over g l.
Proof.
  induction l as [|x l IH]; intros H; simpl; [reflexivity|].
  rewrite (H x) by (apply elem_of_cons; auto).
  rewrite IH; [reflexivity|]. intros i Hi. apply H, elem_of_cons. auto.
Qed.

Section WriterBytes.

Variable E : env.
Variable N : nat.
Hypothesis Hsend : sends_never_fail E.

Lemma write_some_loop_nofail fuel : forall left data w,
  0 <= left -> 0 <= fst (fst (write_some_loop E fuel left data w)).
Proof.
  induction fuel as [|fuel IH]; intros left data w Hl; simpl.
  - destruct (left >? 0); simpl; lia.
  - destruct (left >? 0) eqn:Hgt; [|simpl; lia].
    unfold sys_send. pose proof (Hsend (n_send w)) as Hk.
    destruct (env_send E (n_send w)) as [e|n].
    + change (-1 =? -1) with true. cbv beta iota. rewrite Hk.
      change ((EAGAIN =? EAGAIN) || (EAGAIN =? EWOULDBLOCK)) with true.
      simpl. lia.
    + cbv zeta beta iota.
      destruct (Z.min (Z.of_nat n) left =? -1) eqn:H1; [lia|].
      destruct (Z.min (Z.of_nat n) left =? 0) eqn:H0; [lia|].
      apply IH. lia.
Qed.

(** One call of [tdnbd_write_some] on such a socket: it does not fail,
    the cursor moves by the bytes that went out and stays in the buffer,
    and the result is what is left. *)
Lemma tdnbd_write_some_bytes d w :
  so_far d <= len d ->
  let '(rc, d', w') := tdnbd_write_some E d w in
  len d' = len d /\ so_far d' <= len d' /\
  so_far d' - so_far d = bytes_out w' - bytes_out w /\
  rc = len d' - so_far d'.
Proof.
  intros Hle.
  destruct (tdnbd_write_some_contract E) as (_ & _ & _ & Hc & _).
  specialize (Hc d w Hle).
  pose proof (write_some_loop_nofail (Z.to_nat (len d - so_far d))
                (len d - so_far d) d w ltac:(lia)) as Hnf.
  change (write_some_loop E _ _ d w) with (tdnbd_write_some E d w) in Hnf.
  destruct (tdnbd_write_some E d w) as [[rc d'] w']. simpl in Hnf.
  destruct Hc as (Hl & Hb & Hz & Hp & _).
  split; [assumption|]. split; [|split; [assumption|]].
  - destruct (Z.eq_dec rc 0) as [->|]; [|rewrite Hl]; lia.
  - destruct (Z.eq_dec rc 0) as [->|]; [|rewrite Hl]; lia.
Qed.

Lemma writer_loop_bytes entries : forall p w,
  live_inv N p -> cursors_ok p -> pending_reqs p = entries ->
  let '(_, p', w') := writer_loop E entries p w in
  bytes_out w' - bytes_out w = unsent p - unsent p' /\
  closed p' = closed p /\ cursors_ok p'.
Proof.
  induction entries as [|pos rest IH]; intros p w Hlive Hcur Hpend; simpl.
  - split; [lia|auto].
  - destruct Hlive as (Hinv & Hlen & Hrw & Hcl).
    assert (Hin : pos ∈ pending_reqs p)
      by (rewrite Hpend; apply elem_of_cons; auto).
    pose proof (engine_inv_nodup _ _ Hinv) as Hnd.
    destruct (all_reqs_disjoint p Hnd) as ((_ & Hndp & _) & _ & Hdp & _).
    assert (Hnr : pos ∉ rest).
    { rewrite Hpend in Hndp. apply NoDup_cons in Hndp. tauto. }
    assert (Hlt : (pos < length (requests p))%nat).
    { rewrite Hlen. destruct Hinv as (_ & Hperm & _).
      assert (Hin' : pos ∈ seq 0 N).
      { rewrite <- Hperm. unfold all_reqs. rewrite !elem_of_app. auto. }
      apply elem_of_seq in Hin'. lia. }
    destruct (lookup_lt_is_Some_2 (requests p) pos Hlt) as [x Hx].
    assert (Hsx : slot p pos = x) by (unfold slot; rewrite Hx; reflexivity).
    destruct (Hcur pos Hin) as [Hch Hcb]. rewrite Hsx in Hch, Hcb.
    assert (Hux : unsent p = remaining_of x +
                  sum_over (fun i => remaining_of (slot p i)) rest).
    { unfold unsent. rewrite Hpend. simpl. rewrite Hsx. reflexivity. }
    assert (Hupd : forall f,
      slot (update_slot pos f p) pos = f x /\
      forall i, i <> pos -> slot (update_slot pos f p) i = slot p i).
    { intros f. split.
      - rewrite slot_update_slot, decide_True, Hx by reflexivity. reflexivity.
      - intros i Hne. rewrite slot_update_slot, decide_False by assumption.
        reflexivity. }
    assert (Hret : forall f p1 w1,
      (forall i, slot p1 i = slot (update_slot pos f p) i) ->
      pending_reqs p1 = pending_reqs p -> closed p1 = closed p ->
      so_far (header (f x)) <= len (header (f x)) ->
      so_far (body (f x)) <= len (body (f x)) ->
      bytes_out w1 - bytes_out w = remaining_of x - remaining_of (f x) ->
      bytes_out w1 - bytes_out w = unsent p - unsent p1 /\
      closed p1 = closed p /\ cursors_ok p1).
    { intros f p1 w1 Hs1 Hp1 Hc1 Hh1 Hb1 Hby.
      destruct (Hupd f) as [Hfpos Hfne].
      split; [|split; [assumption|]].
      - rewrite Hux. unfold unsent. rewrite Hp1, Hpend. simpl.
        rewrite Hs1, Hfpos.
        rewrite (sum_over_ext (fun i => remaining_of (slot p1 i))
                   (fun i => remaining_of (slot p i)) rest).
        + lia.
        + intros i Hi. rewrite Hs1, Hfne; [reflexivity|].
          intros ->. contradiction.
      - intros i. rewrite Hp1, Hs1. intros Hi.
        destruct (decide (i = pos)) as [->|Hne].
        + rewrite Hfpos. auto.
        + rewrite Hfne by assumption. apply Hcur. assumption. }
    pose proof (tdnbd_write_some_bytes (header x) w Hch) as Hw1.
    rewrite Hsx.
    destruct (tdnbd_write_some E (header x) w) as [[rc h] w1].
    destruct Hw1 as (Hl1 & Hc1 & Hb1 & Hrc1).
    set (p1 := update_slot pos (set_header h) p).
    destruct (rc >? 0) eqn:Hgt.
    { apply (Hret (set_header h) p1 w1); try reflexivity; try assumption.
      unfold remaining_of. simpl. lia. }
    assert (Hfull1 : so_far h = len h) by lia.
    destruct (Hupd (set_header h)) as [Hp1pos Hp1ne]. fold p1 in Hp1pos, Hp1ne.
    rewrite Hp1pos. change (nreq (set_header h x)) with (nreq x).
    change (body (set_header h x)) with (body x).
    assert (Hty : nreq_type (nreq x) = TAPDISK_NBD_CMD_READ \/
                  nreq_type (nreq x) = TAPDISK_NBD_CMD_WRITE).
    { rewrite <- Hsx. apply Hrw. apply elem_of_app. auto. }
    assert (Hd : (nreq_type (nreq x) =? TAPDISK_NBD_CMD_DISC) = false)
      by (destruct Hty as [-> | ->]; reflexivity).
    assert (Hnext : forall f p2 w2,
      (forall i, slot p2 i = slot (update_slot pos f p) i) ->
      length (requests p2) = length (requests p) ->
      pending_reqs p2 = pending_reqs p -> sent_reqs p2 = sent_reqs p ->
      free_reqs p2 = free_reqs p -> nr_free_count p2 = nr_free_count p ->
      curr_reply_req p2 = curr_reply_req p -> closed p2 = closed p ->
      treq (f x) = treq x -> nreq (f x) = nreq x ->
      bytes_out w2 - bytes_out w = remaining_of x ->
      let '(_, p', w') := writer_loop E rest (list_move pos SentReqs p2) w2 in
      bytes_out w' - bytes_out w = unsent p - unsent p' /\
      closed p' = closed p /\ cursors_ok p').
    { intros f p2 w2 Hs2 Hl2 Hpe2 Hse2 Hfr2 Hn2 Hcr2 Hc2 Htq Hnq Hby.
      destruct (Hupd f) as [Hfpos Hfne].
      assert (Hinv2 : engine_inv N p2)
        by (eapply engine_inv_frame; [..|exact Hinv]; assumption).
      assert (Hin2 : pos ∈ pending_reqs p2) by (rewrite Hpe2; exact Hin).
      set (p3 := list_move pos SentReqs p2).
      assert (Hpe3 : pending_reqs p3 = rest).
      { simpl. rewrite Hpe2, Hpend. apply list_del_head. assumption. }
      assert (Hs3 : forall i, i <> pos -> slot p3 i = slot p i).
      { intros i Hne. change (slot p3 i) with (slot p2 i).
        rewrite Hs2. apply Hfne. assumption. }
      assert (Hrw3 : types_rw p3).
      { intros i Hi. change (slot p3 i) with (slot p2 i). rewrite Hs2.
        assert (Hi' : i ∈ pending_reqs p ++ sent_reqs p).
        { simpl in Hi. rewrite Hpe2, Hse2 in Hi.
          rewrite elem_of_app in Hi. rewrite elem_of_app.
          destruct Hi as [Hi|Hi].
          - left. apply list_elem_of_filter in Hi. tauto.
          - apply elem_of_cons in Hi as [->|Hi]; [auto|].
            right. apply list_elem_of_filter in Hi. tauto. }
        destruct (decide (i = pos)) as [->|Hne].
        - rewrite Hfpos, Hnq. exact Hty.
        - rewrite Hfne by assumption. apply Hrw. assumption. }
      assert (Hlive3 : live_inv N p3).
      { split; [apply engine_inv_pending_to_sent; assumption|].
        split; [simpl; congruence|]. split; [exact Hrw3|].
        simpl. rewrite Hc2. exact Hcl. }
      assert (Hcur3 : cursors_ok p3).
      { intros i. rewrite Hpe3. intros Hi.
        assert (Hne : i <> pos) by (intros ->; contradiction).
        rewrite Hs3 by assumption. apply Hcur. rewrite Hpend.
        apply elem_of_cons. auto. }
      specialize (IH p3 w2 Hlive3 Hcur3 Hpe3).
      destruct (writer_loop E rest p3 w2) as [[ret p'] w'].
      destruct IH as (Hby' & Hc' & Hcur').
      split; [|split; [rewrite Hc'; simpl; exact Hc2|exact Hcur']].
      assert (Hu3 : unsent p3 =
                    sum_over (fun i => remaining_of (slot p i)) rest).
      { unfold unsent. rewrite Hpe3. apply sum_over_ext.
        intros i Hi. rewrite Hs3; [reflexivity|]. intros ->. contradiction. }
      lia. }
    destruct Hty as [Hty|Hty]; rewrite Hty in Hd; rewrite Hty.
    + change (TAPDISK_NBD_CMD_READ =? TAPDISK_NBD_CMD_WRITE) with false.
      cbv beta iota. rewrite Hd. cbv beta iota.
      change (set_lists _ _ _ p1) with (list_move pos SentReqs p1).
      apply (Hnext (set_header h) p1 w1); try reflexivity;
        [unfold p1, update_slot; simpl; apply length_alter|].
      unfold remaining_of. rewrite Hty.
      change (TAPDISK_NBD_CMD_READ =? TAPDISK_NBD_CMD_WRITE) with false.
      cbv beta iota. lia.
    + change (TAPDISK_NBD_CMD_WRITE =? TAPDISK_NBD_CMD_WRITE) with true.
      cbv beta iota.
      pose proof (tdnbd_write_some_bytes (body x) w1 Hcb) as Hw2.
      destruct (tdnbd_write_some E (body x) w1) as [[rc2 b] w2].
      destruct Hw2 as (Hl2 & Hc2 & Hb2 & Hrc2).
      set (p2 := update_slot pos (set_body b) p1).
      assert (Hs2 : forall i,
        slot p2 i =
        slot (update_slot pos (fun r => set_body b (set_header h r)) p) i).
      { intros i. unfold p2, p1. rewrite !slot_update_slot.
        destruct (decide (i = pos)) as [->|]; [|reflexivity].
        unfold update_slot. simpl. rewrite list_lookup_alter_eq, Hx.
        reflexivity. }
      destruct (rc2 >? 0) eqn:Hgt2.
      { apply (Hret (fun r => set_body b (set_header h r)) p2 w2);
          try reflexivity; try assumption.
        unfold remaining_of. simpl. rewrite Hty.
        change (TAPDISK_NBD_CMD_WRITE =? TAPDISK_NBD_CMD_WRITE) with true.
        cbv beta iota. lia. }
      rewrite Hd. cbv beta iota.
      change (set_lists _ _ _ p2) with (list_move pos SentReqs p2).
      apply (Hnext (fun r => set_body b (set_header h r)) p2 w2);
        try reflexivity; try assumption.
      * unfold p2, p1, update_slot. simpl. rewrite !length_alter. reflexivity.
      * unfold remaining_of. rewrite Hty.
        change (TAPDISK_NBD_CMD_WRITE =? TAPDISK_NBD_CMD_WRITE) with true.
        cbv beta iota. lia.
Qed.

End WriterBytes.

(** X19: on a socket whose [send] takes at least one byte or would block,
    the number of bytes that go out during a writer callback over pending
    reads and writes is the number by which what the pending requests
    have left to send goes down, counted from their cursors; the cursors
    stay within their buffers, and when the pending list is empty
    afterwards the count that went out is all that was left to send.
    (The embedding counts the bytes that [send] takes; it does not say
    which bytes they are.) *)
Theorem writer_bytes_out_accounting (E : env) (N : nat) (p p' : tdnbd_data)
  (w w' : world) :
  sends_never_fail E -> live_inv N p -> cursors_ok p ->
  tdnbd_writer_cb E p w = (p', w') ->
  bytes_out w' - bytes_out w = unsent p - unsent p' /\
  cursors_ok p' /\
  (pending_reqs p' = [] -> bytes_out w' - bytes_out w = unsent p).
Proof.
  intros Hsend Hlive Hcur. unfold tdnbd_writer_cb.
  pose proof (writer_loop_bytes E N Hsend (pending_reqs p) p w Hlive Hcur
                eq_refl) as H.
  destruct (writer_loop E (pending_reqs p) p w) as [[returned p1] w1].
  destruct H as (Hby & Hc & Hcur1).
  assert (Hfin : forall p2 w2,
    (p1, w1) = (p2, w2) \/
    disable_write_queue p1 w1 = (p2, w2) ->
    bytes_out w2 - bytes_out w = unsent p - unsent p2 /\
    cursors_ok p2 /\
    (pending_reqs p2 = [] -> bytes_out w2 - bytes_out w = unsent p)).
  { intros p2 w2 Hcase.
    assert (H2 : unsent p2 = unsent p1 /\ bytes_out w2 = bytes_out w1 /\
                 (cursors_ok p1 -> cursors_ok p2)).
    { destruct Hcase as [[= <- <-]|Hq]; [auto|].
      unfold disable_write_queue in Hq.
      destruct (writer_event_id p1 <? 0); injection Hq as <- <-; auto. }
    destruct H2 as (Hu & Hb & Hk).
    split; [rewrite Hu, Hb; exact Hby|]. split; [auto|].
    intros Hnil. rewrite Hb, Hby, <- Hu. unfold unsent. rewrite Hnil.
    simpl. lia. }
  destruct returned.
  - intros Heq. apply Hfin. auto.
  - destruct (disable_write_queue p1 w1) as [p2 w2] eqn:Hq.
    assert (Hc2 : closed p2 = closed p).
    { unfold disable_write_queue in Hq.
      destruct (writer_event_id p1 <? 0); injection Hq as <- <-; exact Hc. }
    destruct Hlive as (_ & _ & _ & Hcl).
    assert (Hne : (closed p2 =? 2) = false)
      by (rewrite Hc2; destruct Hcl as [-> | ->]; reflexivity).
    rewrite Hne. intros [= <- <-]. apply Hfin. auto.
Qed.

Lemma writer_bytes_out_accounting_witness :
  let E := env_trickle in
  let ops :=
    [QueueRequest TAPDISK_NBD_CMD_WRITE 512 (replicate 512 "y"%char) 512
       (mk_treq 1 1 8) 0] in
  let m := state_of (engine_run E ops (fst (opened E 2)) (snd (opened E 2))) in
  let p := fst m in
  let w := snd m in
  let p' := fst (tdnbd_writer_cb E p w) in
  let w' := snd (tdnbd_writer_cb E p w) in
  bytes_out w' - bytes_out w = unsent p - unsent p' /\
  cursors_ok p' /\
  (pending_reqs p' = [] -> bytes_out w' - bytes_out w = unsent p).
Proof.
  intros E ops m p w p' w'.
  assert (Hopen : tdnbd_open E 124 2 3 0 (mk_info 0 0 0) world0 =
                  Some (0, fst (opened E 2), mk_info 16777216 512 0,
                        snd (opened E 2)))
    by (vm_compute; reflexivity).
  assert (Hrun : engine_run E ops (fst (opened E 2)) (snd (opened E 2)) =
                 Some (p, w))
    by (vm_compute; reflexivity).
  assert (Hops : Forall read_or_write ops).
  { unfold ops.
    repeat match goal with |- Forall _ _ => constructor end; simpl; auto. }
  destruct (tdnbd_open_live _ _ _ _ _ _ _ _ _ _ Hopen) as (Hl0 & _).
  destruct (engine_run_live E 2 ops _ _ _ _ Hl0 Hops Hrun) as [Hlm _].
  apply (writer_bytes_out_accounting E 2 p p' w w').
  - intros k. unfold E, env_trickle, script. cbn [env_send].
    do 3 (destruct k as [|k]; [simpl; first [reflexivity|lia]|]).
    destruct k; simpl; lia.
  - exact Hlm.
  - intros i Hi.
    assert (Hp : pending_reqs p = [1%nat]) by (vm_compute; reflexivity).
    rewrite Hp in Hi. apply list_elem_of_singleton in Hi. subst i.
    vm_compute. split; discriminate.
  - vm_compute. reflexivity.
Defined.

(** X20: [tdnbd_queue_read] forwards the request, leaving the connection
    as it is, when the image is opened as a secondary; otherwise, on a
    connection that is not dead and has a free slot, the read goes to
    the tail of the pending list with a READ header at byte offset
    [sec * sector_size], and nothing is completed. *)
Theorem queue_read_outcome (E : env) (N : nat) (TD_OPEN_SECONDARY : Z)
  (sector_size : Z) (p : tdnbd_data) (tr : td_request_t) (buf : list ascii)
  (w : world) :
  engine_inv N p -> List.length (requests p) = N ->
  (Z.land (flags p) TD_OPEN_SECONDARY <> 0 ->
   tdnbd_queue_read E TD_OPEN_SECONDARY sector_size p tr buf w
   = Some (true, p, w)) /\
  (Z.land (flags p) TD_OPEN_SECONDARY = 0 ->
   nr_free_count p <> 0 -> closed p <> 3 ->
   exists req p' w',
     tdnbd_queue_read E TD_OPEN_SECONDARY sector_size p tr buf w
     = Some (false, p', w') /\
     free_reqs p = req :: free_reqs p' /\
     pending_reqs p' = pending_reqs p ++ [req] /\
     sent_reqs p' = sent_reqs p /\
     treq (slot p' req) = tr /\
     nreq_type (nreq (slot p' req)) = TAPDISK_NBD_CMD_READ /\
     nreq_from (nreq (slot p' req)) = (treq_sec tr * sector_size) mod 2 ^ 64 /\
     (0 <= treq_secs tr * sector_size < 2 ^ 31 ->
      nreq_len (nreq (slot p' req)) = treq_secs tr * sector_size /\
      len (body (slot p' req)) = treq_secs tr * sector_size) /\
     so_far (body (slot p' req)) = 0 /\
     completions (trace w') = completions (trace w)).
Proof.
  intros Hinv Hlen. split.
  - intros Hsec. unfold tdnbd_queue_read.
    destruct (Z.land (flags p) TD_OPEN_SECONDARY =? 0) eqn:Hz; [lia|].
    reflexivity.
  - intros Hsec Hnr Hc. unfold tdnbd_queue_read. rewrite Hsec.
    change (negb (0 =? 0)) with false. cbv beta iota.
    destruct (tdnbd_queue_request_accept E N p TAPDISK_NBD_CMD_READ
                (to_size_t (treq_sec tr * sector_size)) buf
                (to_int (treq_secs tr * sector_size)) tr 0 w Hinv Hlen Hnr Hc)
      as (req & p' & w' & -> & Hf & Hpe & Hse & _ & _ & Hslot & _ & Ht & _).
    exists req, p', w'. rewrite Hslot. simpl.
    repeat split; try assumption.
    + unfold to_size_t. rewrite Z.mod_mod by lia. reflexivity.
    + unfold to_uint32, to_int.
      rewrite (Z.mod_small (_ + 2 ^ 31)) by lia.
      rewrite Z.mod_small by lia. lia.
    + unfold to_uint32, to_int.
      rewrite (Z.mod_small (treq_secs tr * sector_size + 2 ^ 31)) by lia.
      replace (treq_secs tr * sector_size + 2 ^ 31 - 2 ^ 31)
        with (treq_secs tr * sector_size) by lia.
      rewrite (Z.mod_small (treq_secs tr * sector_size)) by lia.
      rewrite Z.mod_small by lia. lia.
Qed.

Lemma queue_read_outcome_witness :
  let E := env_one_reply in
  let p := fst (opened E 2) in
  let w := snd (opened E 2) in
  let tr := mk_treq 8 2 7 in
  tdnbd_queue_read E 1 512 (set_socket_flags 3 1 p) tr (replicate 1024 NUL) w
  = Some (true, set_socket_flags 3 1 p, w) /\
  exists req p' w',
    tdnbd_queue_read E 1 512 p tr (replicate 1024 NUL) w = Some (false, p', w') /\
    free_reqs p = req :: free_reqs p' /\
    pending_reqs p' = pending_reqs p ++ [req] /\
    sent_reqs p' = sent_reqs p /\
    treq (slot p' req) = tr /\
    nreq_type (nreq (slot p' req)) = TAPDISK_NBD_CMD_READ /\
    nreq_from (nreq (slot p' req)) = (treq_sec tr * 512) mod 2 ^ 64 /\
    (0 <= treq_secs tr * 512 < 2 ^ 31 ->
     nreq_len (nreq (slot p' req)) = treq_secs tr * 512 /\
     len (body (slot p' req)) = treq_secs tr * 512) /\
    so_far (body (slot p' req)) = 0 /\
    completions (trace w') = completions (trace w).
Proof.
  intros E p w tr.
  assert (Hopen : tdnbd_open E 124 2 3 0 (mk_info 0 0 0) world0 =
                  Some (0, p, mk_info 16777216 512 0, w))
    by (vm_compute; reflexivity).
  destruct (tdnbd_open_live _ _ _ _ _ _ _ _ _ _ Hopen)
    as ((Hinv & Hlen & _) & _).
  split.
  - apply (queue_read_outcome E 2 1 512 (set_socket_flags 3 1 p) tr
             (replicate 1024 NUL) w).
    + eapply engine_inv_frame; [..|exact Hinv]; reflexivity.
    + exact Hlen.
    + vm_compute. discriminate.
  - apply (queue_read_outcome E 2 1 512 p tr (replicate 1024 NUL) w Hinv Hlen).
    + vm_compute. reflexivity.
    + vm_compute. discriminate.
    + vm_compute. discriminate.
Defined.

(** ** A dead connection *)

(** X21: a connection that is dead stays dead under further enqueues of
    reads and writes and further callbacks, and accepts no request any
    more. *)
Theorem dead_connection_accepts_nothing (E : env) (N : nat)
  (ops : list engine_op) (p : tdnbd_data) (w : world) :
  live_inv N p -> closed p = 3 -> Forall read_or_write ops ->
  engine_accepted E ops p w = [] /\
  exists p' w', engine_run E ops p w = Some (p', w') /\ closed p' = 3.
Proof.
  revert p w. induction ops as [|op rest IH]; intros p w Hlive Hc Hops; simpl.
  - eauto.
  - apply Forall_cons in Hops as [Hop Hrest].
    destruct (engine_step_inv E N op p w ltac:(apply Hlive))
      as (p1 & w1 & Hstep & _).
    destruct (engine_step_ledger E N op p w p1 w1 Hlive Hop Hstep)
      as (Hl1 & Hd1 & _).
    rewrite Hstep.
    destruct (IH p1 w1 Hl1 (Hd1 Hc) Hrest) as (Hacc & p' & w' & Hrun & Hc').
    rewrite Hacc, app_nil_r. split; [|eauto].
    destruct op as [type offset buf length tr fk| |]; try reflexivity.
    simpl. unfold tdnbd_queue_request.
    destruct (nr_free_count p =? 0); [reflexivity|].
    rewrite Hc. reflexivity.
Qed.

Lemma dead_connection_accepts_nothing_witness :
  let E := env_peer_closes in
  let ops0 :=
    [QueueRequest TAPDISK_NBD_CMD_READ 0 (replicate 512 NUL) 512
       (mk_treq 0 1 7) 0;
     WriterCb; ReaderCb] in
  let m := state_of (engine_run E ops0 (fst (opened E 2)) (snd (opened E 2))) in
  let ops :=
    [QueueRequest TAPDISK_NBD_CMD_READ 1024 (replicate 512 NUL) 512
       (mk_treq 2 1 9) 0;
     WriterCb] in
  engine_accepted E ops (fst m) (snd m) = [] /\
  exists p' w', engine_run E ops (fst m) (snd m) = Some (p', w') /\ closed p' = 3.
Proof.
  intros E ops0 m ops.
  assert (Hopen : tdnbd_open E 124 2 3 0 (mk_info 0 0 0) world0 =
                  Some (0, fst (opened E 2), mk_info 16777216 512 0,
                        snd (opened E 2)))
    by (vm_compute; reflexivity).
  assert (Hrun : engine_run E ops0 (fst (opened E 2)) (snd (opened E 2)) =
                 Some (fst m, snd m))
    by (vm_compute; reflexivity).
  assert (Hops0 : Forall read_or_write ops0).
  { unfold ops0.
    repeat match goal with |- Forall _ _ => constructor end; simpl; auto. }
  destruct (tdnbd_open_live _ _ _ _ _ _ _ _ _ _ Hopen) as (Hl0 & _).
  destruct (engine_run_live E 2 ops0 _ _ _ _ Hl0 Hops0 Hrun) as [Hlm _].
  apply (dead_connection_accepts_nothing E 2 ops (fst m) (snd m) Hlm).
  - vm_compute. reflexivity.
  - unfold ops.
    repeat match goal with |- Forall _ _ => constructor end; simpl; auto.
Defined.

(** * The types of the requests on the lists *)




Section SiteInvariant.

Variable E : env.






End SiteInvariant.


